(** * A resource economy of concurrent units: shallow embedding

    The development embeds the C sources [event.c] (event queue),
    [system.c] (the per-unit cycle) and [manager.c] (the coordinator) as
    executable Rocq functions and proves the properties the specification
    states about them.

    Modelling conventions.
    - C [int] values are integers ([Z]) between [INT_MIN] and [INT_MAX].
      Two computations of the sources leave that range on operands within
      it: the buffer sum of [system_convert] and the products of
      [system_simulate_process_time].  They are reduced to 32 bits, two's
      complement ([wrap_int]), which is what the compiled code computes;
      the pause is then converted to the unsigned [useconds_t] of [usleep].
      The other operations stay within the range of their operands on
      well-formed states: lemma [system_run_in_range] shows that a cycle
      keeps every stored value between 0 and the largest capacity or rule
      amount it started with.
    - A [Resource *] is an index into the resource heap, a [System *] an
      index into the system array; [NULL] is [None].  Dereferencing an index
      outside the heap is a fault: the computation yields [None].
    - All units share the manager's event queue, so the [event_queue] field
      of [System] is the queue of the [Manager] record.
    - The state carries a ghost trace of what a run did: the unit
      operations it entered, the events it pushed and the pauses it
      requested from [usleep]. *)

From Stdlib Require Import ZArith Lia String Sorted.
From stdpp Require Import base option list strings.

Local Open Scope Z_scope.

(** ** Data model *)

(** Modelled from the spec: [defs.h] is not among the sources.  The status
    codes a convert or store attempt reports, as the named constants that
    [system.c] and [manager.c] use. *)
Inductive Status : Set :=
  | STATUS_OK
  | STATUS_EMPTY
  | STATUS_INSUFFICIENT
  | STATUS_LOW
  | STATUS_CAPACITY.

(** Modelled from the spec: [defs.h] is not among the sources.  The run
    modes of a unit, as the named constants that [manager.c] displays. *)
Inductive Mode : Set :=
  | STANDARD
  | SLOW
  | FAST
  | DISABLED
  | TERMINATE.

#[global] Instance Status_eq_dec : EqDecision Status.
Proof. solve_decision. Defined.

#[global] Instance Mode_eq_dec : EqDecision Mode.
Proof. solve_decision. Defined.

Record Resource : Type := mkResource {
  r_name : string;
  r_amount : Z;
  r_max_capacity : Z
}.

Record ResourceAmount : Type := mkResourceAmount {
  ra_resource : option nat;
  ra_amount : Z
}.

Record System : Type := mkSystem {
  s_name : string;
  s_consumed : ResourceAmount;
  s_produced : ResourceAmount;
  s_processing_time : Z;
  s_amount_stored : Z;
  s_status : Mode
}.

Record Event : Type := mkEvent {
  e_system : nat;
  e_resource : option nat;
  e_status : Status;
  e_priority : Z;
  e_amount : Z
}.

(** The linked list of [EventNode]s is the list of their events, head
    first; [q_size] is the counter the code keeps next to it. *)
Record EventQueue : Type := mkEventQueue {
  q_head : list Event;
  q_size : Z
}.

(** The operations of the units on the shared resources. *)
Inductive Op : Set :=
  | Convert (system : nat)
  | Store (system : nat).

(** Entries of the ghost trace. *)
Inductive Effect : Set :=
  | Enters (o : Op)
  | Pushes (event : Event)
  | Sleeps (usec : Z).

Record Manager : Type := mkManager {
  simulation_running : Z;
  system_array : list System;
  resource_array : list Resource;
  event_queue : EventQueue;
  trace : list Effect
}.

#[global] Instance ResourceAmount_eq_dec : EqDecision ResourceAmount.
Proof. solve_decision. Defined.

#[global] Instance Event_eq_dec : EqDecision Event.
Proof. solve_decision. Defined.

(** ** Event queue ([event.c]) *)

Definition event_init (system : nat) (resource : option nat)
    (status : Status) (priority amount : Z) : Event :=
  {| e_system := system; e_resource := resource; e_status := status;
     e_priority := priority; e_amount := amount |}.

Definition event_queue_init : EventQueue :=
  {| q_head := []; q_size := 0 |}.

(** The traversal of [event_queue_push]: skip every node whose priority is
    at least the new event's, link the new node in front of the first one
    that is lower. *)
Fixpoint push_traverse (event : Event) (current : list Event) : list Event :=
  match current with
  | [] => [event]
  | node :: next =>
      if e_priority event <=? e_priority node
      then node :: push_traverse event next
      else event :: current
  end.

Definition event_queue_push (queue : EventQueue) (event : Event) : EventQueue :=
  let head' :=
    match q_head queue with
    | [] => [event]
    | node :: _ =>
        if e_priority node <? e_priority event
        then event :: q_head queue
        else push_traverse event (q_head queue)
    end in
  {| q_head := head'; q_size := q_size queue + 1 |}.

(** [event_queue_pop] returns the flag, the popped event ([None] when the
    out parameter is left untouched) and the queue. *)
Definition event_queue_pop (queue : EventQueue) : Z * option Event * EventQueue :=
  match q_head queue with
  | [] => (0, None, queue)
  | temp :: next =>
      (1, Some temp, {| q_head := next; q_size := q_size queue - 1 |})
  end.

(** Pop until the queue reports empty; [fuel] bounds the number of calls. *)
Fixpoint pop_all (fuel : nat) (queue : EventQueue) : list Event * EventQueue :=
  match fuel with
  | O => ([], queue)
  | S fuel' =>
      match event_queue_pop queue with
      | (_, Some event, queue') =>
          let '(events, final) := pop_all fuel' queue' in
          (event :: events, final)
      | (_, None, queue') => ([], queue')
      end
  end.

Definition push_all (events : list Event) : EventQueue :=
  fold_left event_queue_push events event_queue_init.

(** Descending priority between consecutive events. *)
Definition prio_ge (a b : Event) : Prop := e_priority b <= e_priority a.

Definition with_priority (p : Z) (events : list Event) : list Event :=
  filter (fun e => e_priority e = p) events.

(** ** State and faults *)

(** A computation reads and updates the manager's state; [None] is a fault
    (a dereference outside the heap). *)
Definition M (A : Type) : Type := Manager -> option (A * Manager).

#[global] Instance M_ret : MRet M := fun A (a : A) m => Some (a, m).

#[global] Instance M_bind : MBind M := fun A B (f : A -> M B) (c : M A) m =>
  match c m with
  | Some (a, m') => f a m'
  | None => None
  end.

Definition set_system_array (systems : list System) (m : Manager) : Manager :=
  {| simulation_running := simulation_running m; system_array := systems;
     resource_array := resource_array m; event_queue := event_queue m;
     trace := trace m |}.

Definition set_resource_array (resources : list Resource) (m : Manager) : Manager :=
  {| simulation_running := simulation_running m; system_array := system_array m;
     resource_array := resources; event_queue := event_queue m;
     trace := trace m |}.

Definition set_event_queue (queue : EventQueue) (m : Manager) : Manager :=
  {| simulation_running := simulation_running m; system_array := system_array m;
     resource_array := resource_array m; event_queue := queue;
     trace := trace m |}.

Definition set_simulation_running (running : Z) (m : Manager) : Manager :=
  {| simulation_running := running; system_array := system_array m;
     resource_array := resource_array m; event_queue := event_queue m;
     trace := trace m |}.

Definition set_trace (effects : list Effect) (m : Manager) : Manager :=
  {| simulation_running := simulation_running m; system_array := system_array m;
     resource_array := resource_array m; event_queue := event_queue m;
     trace := effects |}.

Definition load_system (p : nat) : M System := fun m =>
  match system_array m !! p with
  | Some sys => Some (sys, m)
  | None => None
  end.

Definition store_system (p : nat) (sys : System) : M unit := fun m =>
  match system_array m !! p with
  | Some _ => Some (tt, set_system_array (<[p := sys]> (system_array m)) m)
  | None => None
  end.

Definition load_resource (p : nat) : M Resource := fun m =>
  match resource_array m !! p with
  | Some r => Some (r, m)
  | None => None
  end.

Definition store_resource (p : nat) (r : Resource) : M unit := fun m =>
  match resource_array m !! p with
  | Some _ => Some (tt, set_resource_array (<[p := r]> (resource_array m)) m)
  | None => None
  end.

Definition record (effect : Effect) (m : Manager) : Manager :=
  set_trace (trace m ++ [effect]) m.

Definition enter (o : Op) : M unit := fun m => Some (tt, record (Enters o) m).

Definition usleep (usec : Z) : M unit := fun m =>
  Some (tt, record (Sleeps usec) m).

Definition push_event (event : Event) : M unit := fun m =>
  Some (tt, record (Pushes event)
              (set_event_queue (event_queue_push (event_queue m) event) m)).

Definition set_amount (amount : Z) (r : Resource) : Resource :=
  {| r_name := r_name r; r_amount := amount; r_max_capacity := r_max_capacity r |}.

Definition set_amount_stored (stored : Z) (sys : System) : System :=
  {| s_name := s_name sys; s_consumed := s_consumed sys;
     s_produced := s_produced sys; s_processing_time := s_processing_time sys;
     s_amount_stored := stored; s_status := s_status sys |}.

Definition set_status (status : Mode) (sys : System) : System :=
  {| s_name := s_name sys; s_consumed := s_consumed sys;
     s_produced := s_produced sys; s_processing_time := s_processing_time sys;
     s_amount_stored := s_amount_stored sys; s_status := status |}.

(** ** Machine integers *)

(** The range of [int], 32 bits. *)
Definition INT_MAX : Z := 2147483647.
Definition INT_MIN : Z := -2147483648.

(** The value an [int] computation leaves when its result is [z]: the
    32 low bits of [z], read as two's complement. *)
Definition wrap_int (z : Z) : Z := (z + 2 ^ 31) mod 2 ^ 32 - 2 ^ 31.

(** The conversion of an [int] argument to [useconds_t], the unsigned
    32-bit parameter type of [usleep]. *)
Definition useconds (z : Z) : Z := z mod 2 ^ 32.

(** ** The unit cycle ([system.c]) *)

(** The [switch] of [system_simulate_process_time], computed in [int];
    [/] on C integers truncates, as [Z.quot]. *)
Definition adjusted_processing_time (sys : System) : Z :=
  match s_status sys with
  | SLOW => wrap_int (s_processing_time sys * 2)
  | FAST => Z.quot (s_processing_time sys) 2
  | _ => s_processing_time sys
  end.

Definition system_simulate_process_time (system : nat) : M unit :=
  sys ← load_system system;
  usleep (useconds (wrap_int (adjusted_processing_time sys * 1000))).

Definition system_convert (system : nat) : M Status :=
  enter (Convert system);;
  sys ← load_system system;
  let consumed_resource := ra_resource (s_consumed sys) in
  let amount_consumed := ra_amount (s_consumed sys) in
  status ←
    match consumed_resource with
    | None => mret STATUS_OK
    | Some p =>
        r ← load_resource p;
        if amount_consumed <=? r_amount r then
          store_resource p (set_amount (r_amount r - amount_consumed) r);;
          mret STATUS_OK
        else
          mret (if r_amount r =? 0 then STATUS_EMPTY else STATUS_INSUFFICIENT)
    end;
  (if decide (status = STATUS_OK) then
     system_simulate_process_time system;;
     sys ← load_system system;
     match ra_resource (s_produced sys) with
     | Some _ =>
         store_system system
           (set_amount_stored
              (wrap_int (s_amount_stored sys + ra_amount (s_produced sys))) sys)
     | None => store_system system (set_amount_stored 0 sys)
     end
   else mret tt);;
  mret status.

Definition system_store_resources (system : nat) : M Status :=
  enter (Store system);;
  sys ← load_system system;
  match ra_resource (s_produced sys) with
  | None => store_system system (set_amount_stored 0 sys);; mret STATUS_OK
  | Some p =>
      if s_amount_stored sys =? 0 then
        store_system system (set_amount_stored 0 sys);; mret STATUS_OK
      else
        let amount_to_store := s_amount_stored sys in
        r ← load_resource p;
        let available_space := r_max_capacity r - r_amount r in
        (if amount_to_store <=? available_space then
           store_resource p (set_amount (r_amount r + amount_to_store) r);;
           store_system system (set_amount_stored 0 sys)
         else if 0 <? available_space then
           store_resource p (set_amount (r_amount r + available_space) r);;
           store_system system
             (set_amount_stored (amount_to_store - available_space) sys)
         else mret tt);;
        sys ← load_system system;
        if s_amount_stored sys =? 0 then mret STATUS_OK
        else mret STATUS_CAPACITY
  end.

Section Cycle.

(** The constants of [defs.h] that the cycle uses; their values are not
    among the sources.  The retry pause [SYSTEM_WAIT_TIME * 1000] is a
    constant expression whose type [defs.h] decides: it is kept as the
    product. *)
Variables PRIORITY_HIGH PRIORITY_LOW SYSTEM_WAIT_TIME : Z.

(** First half of [system_run]: convert when nothing is buffered. *)
Definition system_run_convert (system : nat) : M unit :=
  sys ← load_system system;
  if s_amount_stored sys =? 0 then
    result_status ← system_convert system;
    if decide (result_status <> STATUS_OK) then
      sys ← load_system system;
      push_event (event_init system (ra_resource (s_consumed sys))
                    result_status PRIORITY_HIGH (ra_amount (s_consumed sys)));;
      usleep (SYSTEM_WAIT_TIME * 1000)
    else mret tt
  else mret tt.

(** Second half of [system_run]: store when something is buffered. *)
Definition system_run_store (system : nat) : M unit :=
  sys ← load_system system;
  if 0 <? s_amount_stored sys then
    result_status ← system_store_resources system;
    if decide (result_status <> STATUS_OK) then
      sys ← load_system system;
      push_event (event_init system (ra_resource (s_produced sys))
                    result_status PRIORITY_LOW (ra_amount (s_produced sys)));;
      usleep (SYSTEM_WAIT_TIME * 1000)
    else mret tt
  else mret tt.

Definition system_run (system : nat) : M unit :=
  system_run_convert system;;
  system_run_store system.

End Cycle.

(** ** The coordinator ([manager.c]) *)

(** Console output and the wall-clock rate limit of the display are not
    modelled: [display_simulation_state] reads the state and changes none
    of it. *)
Definition display_simulation_state : M unit := mret tt.

Definition pop_event : M (Z * option Event) := fun m =>
  let '(flag, event, queue) := event_queue_pop (event_queue m) in
  Some ((flag, event), set_event_queue queue m).

(** The [for] loop over the system array of [manager_run]. *)
Definition update_systems (status : Mode) (event_resource : option nat)
    (systems : list System) : list System :=
  map (fun sys =>
         if decide (status = TERMINATE \/ ra_resource (s_produced sys) = event_resource)
         then set_status status sys
         else sys) systems.

Definition stop_simulation : M unit := fun m =>
  Some (tt, set_simulation_running 0 m).

Definition broadcast (status : Mode) (event_resource : option nat) : M unit :=
  fun m =>
    Some (tt, set_system_array
                (update_systems status event_resource (system_array m)) m).

Definition deref_resource (p : option nat) : M Resource :=
  match p with
  | Some i => load_resource i
  | None => fun _ => None
  end.

(** The body of the [while] loop of [manager_run] up to the next pop.
    [status] is the local variable of that name: it keeps its value from
    one iteration to the next and is returned. The [printf] reads
    [event.system->name] and [event.resource->name]. *)
Definition manager_handle_event (event : Event) (status : Mode) : M Mode :=
  load_system (e_system event);;
  r ← deref_resource (e_resource event);
  let no_oxygen_flag :=
    bool_decide (e_status event = STATUS_EMPTY) && String.eqb (r_name r) "Oxygen" in
  let distance_reached_flag :=
    bool_decide (e_status event = STATUS_CAPACITY) && String.eqb (r_name r) "Distance" in
  let need_more_flag :=
    bool_decide (e_status event = STATUS_LOW)
    || bool_decide (e_status event = STATUS_EMPTY)
    || bool_decide (e_status event = STATUS_INSUFFICIENT) in
  let need_less_flag := bool_decide (e_status event = STATUS_CAPACITY) in
  status ←
    (if no_oxygen_flag || distance_reached_flag then
       stop_simulation;; mret TERMINATE
     else if need_more_flag then mret FAST
     else if need_less_flag then mret SLOW
     else mret status) : M Mode;
  (if no_oxygen_flag || distance_reached_flag || need_more_flag || need_less_flag
   then broadcast status (e_resource event)
   else mret tt);;
  mret status.

(** The [while] loop, entered with the result of a pop. The loop ends when
    a pop reports an empty queue; running out of [fuel] before that is a
    fault, so a result witnesses that the loop ended by itself. A pop that
    reports an event always delivers one. *)
Fixpoint manager_loop (fuel : nat) (status : Mode) : M unit :=
  match fuel with
  | O => fun _ => None
  | S fuel' =>
      found ← pop_event;
      let '(event_found_flag, popped) := found in
      if event_found_flag =? 0 then mret tt
      else
        match popped with
        | Some event =>
            status' ← manager_handle_event event status;
            manager_loop fuel' status'
        | None => fun _ => None
        end
  end.

(** [status0] is the indeterminate initial value of the local [status]. *)
Definition manager_run (status0 : Mode) : M unit := fun m =>
  (display_simulation_state;;
   manager_loop (S (length (q_head (event_queue m)))) status0) m.

(** ** Outcomes of the unit operations, for the statements below *)

(** The unit after a successful conversion. *)
Definition converted (sys : System) : System :=
  match ra_resource (s_produced sys) with
  | Some _ =>
      set_amount_stored
        (wrap_int (s_amount_stored sys + ra_amount (s_produced sys))) sys
  | None => set_amount_stored 0 sys
  end.

(** The state after a successful conversion by unit [system], whose record
    was [sys], with [resources] the resource heap it leaves. *)
Definition after_convert (system : nat) (sys : System)
    (resources : list Resource) (m : Manager) : Manager :=
  {| simulation_running := simulation_running m;
     system_array := <[system := converted sys]> (system_array m);
     resource_array := resources;
     event_queue := event_queue m;
     trace := trace m ++ [Enters (Convert system);
                          Sleeps (useconds
                                    (wrap_int (adjusted_processing_time sys * 1000)))] |}.

(** The state after a store by unit [system] that leaves [stored] in its
    buffer and [resources] as the resource heap. *)
Definition after_store (system : nat) (sys : System) (stored : Z)
    (resources : list Resource) (m : Manager) : Manager :=
  {| simulation_running := simulation_running m;
     system_array := <[system := set_amount_stored stored sys]> (system_array m);
     resource_array := resources;
     event_queue := event_queue m;
     trace := trace m ++ [Enters (Store system)] |}.

(** The state after a unit reported [event] and paused for [wait]
    milliseconds. *)
Definition after_report (event : Event) (wait : Z) (m : Manager) : Manager :=
  {| simulation_running := simulation_running m;
     system_array := system_array m;
     resource_array := resource_array m;
     event_queue := event_queue_push (event_queue m) event;
     trace := trace m ++ [Pushes event; Sleeps (wait * 1000)] |}.

(** The events a stretch of the trace pushed, in order. *)
Definition pushed (effects : list Effect) : list Event :=
  omap (fun effect => match effect with
                      | Pushes event => Some event
                      | _ => None
                      end) effects.

(** The unit operations a stretch of the trace entered, in order. *)
Definition entered (effects : list Effect) : list Op :=
  omap (fun effect => match effect with
                      | Enters o => Some o
                      | _ => None
                      end) effects.

(** The state with the run mode of unit [system] replaced. *)
Definition set_mode (system : nat) (mode : Mode) (m : Manager) : Manager :=
  set_system_array (alter (set_status mode) system (system_array m)) m.

(** Apply [f] to the state a computation ends in. *)
Definition on_state {A : Type} (f : Manager -> Manager)
    (result : option (A * Manager)) : option (A * Manager) :=
  match result with
  | Some (a, m) => Some (a, f m)
  | None => None
  end.

(** The classification of a drained event: the two terminal conditions,
    on a resource named [name]. *)
Definition terminal_event (status : Status) (name : string) : Prop :=
  (status = STATUS_EMPTY /\ name = "Oxygen"%string)
  \/ (status = STATUS_CAPACITY /\ name = "Distance"%string).

(** Set [mode] on a unit when it produces the resource [event_resource]. *)
Definition retarget (mode : Mode) (event_resource : option nat)
    (sys : System) : System :=
  if decide (ra_resource (s_produced sys) = event_resource)
  then set_status mode sys
  else sys.

(** An event whose unit and resource exist. *)
Definition event_ok (m : Manager) (event : Event) : Prop :=
  is_Some (system_array m !! e_system event)
  /\ exists p, e_resource event = Some p /\ is_Some (resource_array m !! p).

(** ** Well-formed states *)

Definition resource_ok (r : Resource) : Prop :=
  0 <= r_amount r <= r_max_capacity r.

Definition pointer_ok (m : Manager) (p : option nat) : Prop :=
  match p with
  | Some i => is_Some (resource_array m !! i)
  | None => True
  end.

Definition system_ok (m : Manager) (sys : System) : Prop :=
  0 <= ra_amount (s_consumed sys) /\
  0 <= ra_amount (s_produced sys) /\
  0 <= s_amount_stored sys /\
  pointer_ok m (ra_resource (s_consumed sys)) /\
  pointer_ok m (ra_resource (s_produced sys)).

Definition resources_bounded (m : Manager) : Prop :=
  Forall resource_ok (resource_array m).

Definition well_formed (m : Manager) : Prop :=
  resources_bounded m /\ Forall (system_ok m) (system_array m).

(** Every capacity, rule amount and buffer is at most [bound]; in a
    well-formed state every stored integer then lies in [0, bound]. *)
Definition in_range (bound : Z) (m : Manager) : Prop :=
  Forall (fun r => r_max_capacity r <= bound) (resource_array m)
  /\ Forall (fun sys => ra_amount (s_consumed sys) <= bound
                        /\ ra_amount (s_produced sys) <= bound
                        /\ s_amount_stored sys <= bound) (system_array m).





(** The operation does not take the buffer of its unit past [INT_MAX]: a
    convert starts with a buffer that has room for the produced amount. *)
Definition convert_fits (o : Op) (m : Manager) : bool :=
  match o with
  | Convert system =>
      match system_array m !! system with
      | Some sys => s_amount_stored sys + ra_amount (s_produced sys) <=? INT_MAX
      | None => true
      end
  | Store _ => true
  end.


(** ** The configuration of [load_data] ([main.c]) *)

Definition fuel : nat := 0.
Definition oxygen : nat := 1.
Definition energy : nat := 2.
Definition distance : nat := 3.

Definition propulsion_system : nat := 0.
Definition life_support_system : nat := 1.
Definition crew_capsule_system : nat := 2.
Definition generator_system : nat := 3.

Definition resource_create (name : string) (amount max_capacity : Z) : Resource :=
  {| r_name := name; r_amount := amount; r_max_capacity := max_capacity |}.

Definition resource_amount_init (resource : option nat) (amount : Z) : ResourceAmount :=
  {| ra_resource := resource; ra_amount := amount |}.

(** [system_create] with the run mode the unit starts in as a parameter:
    the code stores the status code [STATUS_OK] in the mode field, whose
    value as a run mode [defs.h] would tell. *)
Definition system_create (name : string) (consumed produced : ResourceAmount)
    (processing_time : Z) (mode : Mode) : System :=
  {| s_name := name; s_consumed := consumed; s_produced := produced;
     s_processing_time := processing_time; s_amount_stored := 0;
     s_status := mode |}.

(** The state after [manager_init] and [load_data], every unit in mode
    [STANDARD]. *)
Definition load_data : Manager :=
  {| simulation_running := 1;
     system_array :=
       [ system_create "Propulsion" (resource_amount_init (Some fuel) 5)
           (resource_amount_init (Some distance) 25) 50 STANDARD;
         system_create "Life Support" (resource_amount_init (Some energy) 7)
           (resource_amount_init (Some oxygen) 4) 10 STANDARD;
         system_create "Crew" (resource_amount_init (Some oxygen) 1)
           (resource_amount_init None 0) 2 STANDARD;
         system_create "Generator" (resource_amount_init (Some fuel) 5)
           (resource_amount_init (Some energy) 10) 20 STANDARD ];
     resource_array :=
       [ resource_create "Fuel" 1000 1000;
         resource_create "Oxygen" 20 50;
         resource_create "Energy" 30 50;
         resource_create "Distance" 0 5000 ];
     event_queue := event_queue_init;
     trace := [] |}.

(** The state with the amount of resource [p] and the buffer of unit
    [system] replaced. *)
Definition with_amount (p : nat) (amount : Z) (m : Manager) : Manager :=
  set_resource_array (alter (set_amount amount) p (resource_array m)) m.

Definition with_buffer (system : nat) (stored : Z) (m : Manager) : Manager :=
  set_system_array (alter (set_amount_stored stored) system (system_array m)) m.

(** The generator holding 5 of its 10 produced units back for a full
    Energy store: the state a partial store leaves behind. *)
Definition energy_retry : Manager :=
  with_buffer generator_system 5 (with_amount energy 50 load_data).

(** The crew facing an empty Oxygen store. *)
Definition oxygen_depleted : Manager := with_amount oxygen 0 load_data.

(** Propulsion switched to DISABLED. *)
Definition propulsion_disabled : Manager :=
  set_mode propulsion_system DISABLED load_data.


(** ** The statements of the specification that the code does not meet *)



(** The magnitude of the CAPACITY event of a cycle is the amount buffered
    before the store attempt. *)
Definition capacity_event_reports_buffer (PRIORITY_HIGH PRIORITY_LOW
    SYSTEM_WAIT_TIME : Z) (system : nat) (m : Manager) : Prop :=
  forall m1 sys1 m2 m',
    system_run_convert PRIORITY_HIGH SYSTEM_WAIT_TIME system m = Some (tt, m1) ->
    system_array m1 !! system = Some sys1 ->
    0 < s_amount_stored sys1 ->
    system_store_resources system m1 = Some (STATUS_CAPACITY, m2) ->
    system_run PRIORITY_HIGH PRIORITY_LOW SYSTEM_WAIT_TIME system m = Some (tt, m') ->
    exists event,
      event_queue m' = event_queue_push (event_queue m) event
      /\ e_status event = STATUS_CAPACITY
      /\ e_priority event = PRIORITY_LOW
      /\ e_amount event = s_amount_stored sys1.

(** The cycle of a DISABLED unit makes no progress: no convert, no store,
    resources and buffer unchanged, no event. *)
Definition disabled_cycle_idle (PRIORITY_HIGH PRIORITY_LOW SYSTEM_WAIT_TIME : Z)
    (system : nat) (m : Manager) : Prop :=
  forall sys m',
    system_array m !! system = Some sys ->
    s_status sys = DISABLED ->
    system_run PRIORITY_HIGH PRIORITY_LOW SYSTEM_WAIT_TIME system m = Some (tt, m') ->
    entered (trace m') = entered (trace m)
    /\ (forall p, ra_resource (s_consumed sys) = Some p ->
         r_amount <$> resource_array m' !! p = r_amount <$> resource_array m !! p)
    /\ (forall p, ra_resource (s_produced sys) = Some p ->
         r_amount <$> resource_array m' !! p = r_amount <$> resource_array m !! p)
    /\ s_amount_stored <$> system_array m' !! system = Some (s_amount_stored sys)
    /\ pushed (trace m') = pushed (trace m).

(** ** The queue as a mailbox of pending events *)

(** [queue] holds exactly the events [pending], listed in the order they
    arrived: it is sorted by descending priority, every priority class is
    in arrival order, and the counter is the number of pending events. *)
Definition represents (queue : EventQueue) (pending : list Event) : Prop :=
  StronglySorted prio_ge (q_head queue)
  /\ (forall p, with_priority p (q_head queue) = with_priority p pending)
  /\ q_size queue = Z.of_nat (length pending).

(** ** What a unit operation may change *)

(** The name and the capacity of a resource: what no operation writes. *)
Definition fixed_part (r : Resource) : string * Z := (r_name r, r_max_capacity r).

(** [m'] differs from [m] at most in the buffer of unit [system], in the
    amounts of the resources that unit consumes and produces, in the event
    queue and in the trace. *)
Definition unit_step (system : nat) (m m' : Manager) : Prop :=
  simulation_running m' = simulation_running m
  /\ fixed_part <$> resource_array m' = fixed_part <$> resource_array m
  /\ exists sys stored,
       system_array m !! system = Some sys
       /\ system_array m' = <[system := set_amount_stored stored sys]> (system_array m)
       /\ forall q, ra_resource (s_consumed sys) <> Some q ->
                    ra_resource (s_produced sys) <> Some q ->
                    resource_array m' !! q = resource_array m !! q.

(** The two kinds of event a cycle of unit [system], with record [sys],
    reports. *)
Definition shortage_event (PRIORITY_HIGH : Z) (system : nat) (sys : System)
    (event : Event) : Prop :=
  e_system event = system
  /\ e_resource event = ra_resource (s_consumed sys)
  /\ (e_status event = STATUS_EMPTY \/ e_status event = STATUS_INSUFFICIENT)
  /\ e_priority event = PRIORITY_HIGH
  /\ e_amount event = ra_amount (s_consumed sys).

Definition capacity_event (PRIORITY_LOW : Z) (system : nat) (sys : System)
    (event : Event) : Prop :=
  e_system event = system
  /\ e_resource event = ra_resource (s_produced sys)
  /\ e_status event = STATUS_CAPACITY
  /\ e_priority event = PRIORITY_LOW
  /\ e_amount event = ra_amount (s_produced sys).

(** ** The coordination pass as a fold *)

#[global] Instance terminal_event_dec status name :
  Decision (terminal_event status name).
Proof. unfold terminal_event. apply _. Defined.

(** What the body of the loop of [manager_run] does to the state for one
    event whose resource exists: the two terminal conditions first, then
    the speed changes. *)
Definition react (event : Event) (m : Manager) : Manager :=
  match e_resource event with
  | Some p =>
      match resource_array m !! p with
      | Some r =>
          if decide (terminal_event (e_status event) (r_name r)) then
            set_system_array (map (set_status TERMINATE) (system_array m))
              (set_simulation_running 0 m)
          else
            match e_status event with
            | STATUS_LOW | STATUS_EMPTY | STATUS_INSUFFICIENT =>
                set_system_array
                  (map (retarget FAST (e_resource event)) (system_array m)) m
            | STATUS_CAPACITY =>
                set_system_array
                  (map (retarget SLOW (e_resource event)) (system_array m)) m
            | STATUS_OK => m
            end
      | None => m
      end
  | None => m
  end.

(** The event is a terminal one in state [m]. *)
Definition terminal_in (m : Manager) (event : Event) : Prop :=
  exists p r,
    e_resource event = Some p
    /\ resource_array m !! p = Some r
    /\ terminal_event (e_status event) (r_name r).

(** ** Schedules of cycles and coordination passes *)

Inductive Step : Set :=
  | Cycle (system : nat)
  | Pass (status0 : Mode).

Section Schedule.

Variables PRIORITY_HIGH PRIORITY_LOW SYSTEM_WAIT_TIME : Z.

Definition run_step (step : Step) : M unit :=
  match step with
  | Cycle system => system_run PRIORITY_HIGH PRIORITY_LOW SYSTEM_WAIT_TIME system
  | Pass status0 => manager_run status0
  end.

Fixpoint run_steps (steps : list Step) : M unit :=
  match steps with
  | [] => mret tt
  | step :: rest => run_step step;; run_steps rest
  end.

End Schedule.

Definition step_ok (m : Manager) (step : Step) : Prop :=
  match step with
  | Cycle system => is_Some (system_array m !! system)
  | Pass _ => True
  end.

(** A well-formed state whose capacities, rule amounts and buffers are at
    most [INT_MAX] and whose queued events name units and resources that
    exist. *)
Definition state_ok (m : Manager) : Prop :=
  well_formed m
  /\ in_range INT_MAX m
  /\ Forall (event_ok m) (q_head (event_queue m)).

(** ** The growing arrays ([system.c], [resource.c]) *)

(** A cell of a block of pointers: what [malloc] hands out is
    indeterminate until a pointer is stored in it. *)
Inductive Cell : Set :=
  | Indeterminate
  | Holds (pointer : option nat).

(** How a call ends: it returns, it ends the process with
    [exit(EXIT_FAILURE)], or it reads or writes outside a block (or frees
    what is not allocated), which is a fault. *)
Inductive Outcome (A : Type) : Type :=
  | Returns (a : A)
  | Exits
  | Faults.

Arguments Returns {A} a.
Arguments Exits {A}.
Arguments Faults {A}.

(** Modelled from the spec: [defs.h] is not among the sources.
    [SystemArray] and [ResourceArray] have the same three fields, the block
    of pointers ([systems], [resources]; [None] is [NULL]), [size] and
    [capacity]. *)
Record PointerArray : Type := mkPointerArray {
  pa_cells : option (list Cell);
  pa_size : Z;
  pa_capacity : Z
}.

Abbreviation SystemArray := PointerArray.
Abbreviation ResourceArray := PointerArray.

(** [malloc] of [count] pointers; [allocated] tells whether memory is
    left. *)
Definition malloc_cells (allocated : bool) (count : Z) : option (list Cell) :=
  if allocated then Some (replicate (Z.to_nat count) Indeterminate) else None.

(** [realloc] to [count] pointers: the old cells, as far as they fit, then
    indeterminate ones; with [NULL] it is [malloc]. *)
Definition realloc_cells (allocated : bool) (old : option (list Cell))
    (count : Z) : option (list Cell) :=
  if allocated then
    match old with
    | Some cells =>
        Some (take (Z.to_nat count) cells
              ++ replicate (Z.to_nat count - length cells) Indeterminate)
    | None => Some (replicate (Z.to_nat count) Indeterminate)
    end
  else None.

Definition read_cell (cells : option (list Cell)) (index : Z) : option Cell :=
  match cells with
  | Some block => if index <? 0 then None else block !! Z.to_nat index
  | None => None
  end.

Definition write_cell (cells : option (list Cell)) (index : Z) (c : Cell) :
    option (list Cell) :=
  match cells with
  | Some block =>
      if (0 <=? index) && (index <? Z.of_nat (length block))
      then Some (<[Z.to_nat index := c]> block)
      else None
  | None => None
  end.

(** The copy loop of [system_array_add]: [count] cells from index [i] on. *)
Fixpoint copy_cells (count : nat) (i : Z) (old : option (list Cell))
    (new : list Cell) : option (list Cell) :=
  match count with
  | O => Some new
  | S count' =>
      match read_cell old i with
      | Some c =>
          match write_cell (Some new) i c with
          | Some new' => copy_cells count' (i + 1) old new'
          | None => None
          end
      | None => None
      end
  end.

Definition system_array_init (allocated : bool) : Outcome SystemArray :=
  match malloc_cells allocated 1 with
  | Some systems => Returns {| pa_cells := Some systems; pa_size := 0; pa_capacity := 1 |}
  | None => Exits
  end.

Definition system_array_add (allocated : bool) (array : SystemArray)
    (system : option nat) : Outcome SystemArray :=
  let resized :=
    if pa_capacity array <=? pa_size array then
      let new_capacity :=
        if pa_capacity array =? 0 then 1 else pa_capacity array * 2 in
      match malloc_cells allocated new_capacity with
      | None => Exits
      | Some new_systems =>
          match copy_cells (Z.to_nat (pa_size array)) 0 (pa_cells array)
                  new_systems with
          | Some new_systems =>
              Returns {| pa_cells := Some new_systems; pa_size := pa_size array;
                         pa_capacity := new_capacity |}
          | None => Faults
          end
      end
    else Returns array in
  match resized with
  | Returns array =>
      match write_cell (pa_cells array) (pa_size array) (Holds system) with
      | Some systems =>
          Returns {| pa_cells := Some systems; pa_size := pa_size array + 1;
                     pa_capacity := pa_capacity array |}
      | None => Faults
      end
  | Exits => Exits
  | Faults => Faults
  end.

(** [resource_array_add]; [array] is the pointer to the array, [None] when
    it is [NULL]. *)
Definition resource_array_add (allocated : bool) (array : option ResourceArray)
    (resource : option nat) : Outcome (option ResourceArray) :=
  match array, resource with
  | None, _ | _, None => Returns array
  | Some a, Some _ =>
      let resized :=
        if pa_capacity a <? pa_size a + 1 then
          let new_capacity := if pa_capacity a =? 0 then 1 else pa_capacity a * 2 in
          match realloc_cells allocated (pa_cells a) new_capacity with
          | None => None
          | Some new_array =>
              Some {| pa_cells := Some new_array; pa_size := pa_size a;
                      pa_capacity := new_capacity |}
          end
        else Some a in
      match resized with
      | None => Returns array
      | Some a =>
          match write_cell (pa_cells a) (pa_size a) (Holds resource) with
          | Some resources =>
              Returns (Some {| pa_cells := Some resources; pa_size := pa_size a + 1;
                               pa_capacity := pa_capacity a |})
          | None => Faults
          end
      end
  end.

(** The heap of objects the arrays point to: a freed object is [None]. *)
Abbreviation Heap A := (list (option A)).

(** [system_destroy] and [resource_destroy]: nothing for [NULL], the
    object (with its name) is freed otherwise; freeing what is not
    allocated is a fault. *)
Definition destroy {A : Type} (pointer : option nat) (heap : Heap A) :
    option (Heap A) :=
  match pointer with
  | None => Some heap
  | Some p =>
      match heap !! p with
      | Some (Some _) => Some (<[p := None]> heap)
      | _ => None
      end
  end.

Definition system_destroy (system : option nat) (heap : Heap System) :
    option (Heap System) := destroy system heap.

Definition resource_destroy (resource : option nat) (heap : Heap Resource) :
    option (Heap Resource) := destroy resource heap.

(** The loops of the two [clean] functions: destroy what the cells
    [i], [i + 1], ... hold, [count] of them. *)
Fixpoint destroy_cells {A : Type} (count : nat) (i : Z)
    (cells : option (list Cell)) (heap : Heap A) : option (Heap A) :=
  match count with
  | O => Some heap
  | S count' =>
      match read_cell cells i with
      | Some (Holds pointer) =>
          match destroy pointer heap with
          | Some heap' => destroy_cells count' (i + 1) cells heap'
          | None => None
          end
      | _ => None
      end
  end.

Definition cleaned : PointerArray :=
  {| pa_cells := None; pa_size := 0; pa_capacity := 0 |}.

Definition system_array_clean (array : option SystemArray) (heap : Heap System) :
    Outcome (option SystemArray * Heap System) :=
  match array with
  | None => Returns (None, heap)
  | Some a =>
      match destroy_cells (Z.to_nat (pa_size a)) 0 (pa_cells a) heap with
      | Some heap' => Returns (Some cleaned, heap')
      | None => Faults
      end
  end.

Definition resource_array_clean (array : option ResourceArray)
    (heap : Heap Resource) : Outcome (option ResourceArray * Heap Resource) :=
  match array with
  | None => Returns (None, heap)
  | Some a =>
      match pa_cells a with
      | None => Returns (array, heap)
      | Some _ =>
          match destroy_cells (Z.to_nat (pa_size a)) 0 (pa_cells a) heap with
          | Some heap' => Returns (Some cleaned, heap')
          | None => Faults
          end
      end
  end.

(** The array holds exactly the pointers [items], in order, in the first
    cells of a block as long as its capacity; an array without a block has
    capacity 0 and holds nothing. *)
Definition array_holds (array : PointerArray) (items : list (option nat)) : Prop :=
  pa_size array = Z.of_nat (length items)
  /\ match pa_cells array with
     | Some cells =>
         Z.of_nat (length cells) = pa_capacity array
         /\ take (length items) cells = Holds <$> items
     | None => pa_capacity array = 0 /\ items = []
     end.

(** Add the pointers one after the other, memory never running out. *)
Fixpoint system_array_add_all (systems : list (option nat)) (array : SystemArray) :
    Outcome SystemArray :=
  match systems with
  | [] => Returns array
  | system :: rest =>
      match system_array_add true array system with
      | Returns array' => system_array_add_all rest array'
      | Exits => Exits
      | Faults => Faults
      end
  end.

(** Destroy the objects [items] point to, one after the other. *)
Fixpoint destroy_all {A : Type} (items : list (option nat)) (heap : Heap A) :
    option (Heap A) :=
  match items with
  | [] => Some heap
  | pointer :: rest =>
      match destroy pointer heap with
      | Some heap' => destroy_all rest heap'
      | None => None
      end
  end.

(** The heap with the objects [items] point to marked as freed. *)
Fixpoint free_all {A : Type} (items : list (option nat)) (heap : Heap A) : Heap A :=
  match items with
  | [] => heap
  | None :: rest => free_all rest heap
  | Some p :: rest => free_all rest (<[p := None]> heap)
  end.

(** The non-null pointers among [items] are distinct and point to live
    objects of [heap]. *)
Definition all_live {A : Type} (items : list (option nat)) (heap : Heap A) : Prop :=
  NoDup (omap id items)
  /\ Forall (fun p => exists a, heap !! p = Some (Some a)) (omap id items).


(** ** Further scenarios *)

(** The reports of the sample units: the crew out of Oxygen, and the
    generator facing a full Energy store. *)
Definition oxygen_empty : Event :=
  event_init crew_capsule_system (Some oxygen) STATUS_EMPTY 3 1.

Definition energy_full : Event :=
  event_init generator_system (Some energy) STATUS_CAPACITY 1 10.

(** Both reports queued, the later one first in arrival order. *)
Definition two_reports : EventQueue :=
  event_queue_push (event_queue_push event_queue_init energy_full) oxygen_empty.

(** The state of [oxygen_depleted] with the crew's report waiting. *)
Definition oxygen_reported : Manager :=
  set_event_queue (event_queue_push event_queue_init oxygen_empty) oxygen_depleted.

(** The state of [oxygen_depleted] with both reports waiting. *)
Definition oxygen_alarm : Manager := set_event_queue two_reports oxygen_depleted.

(** The system array of [load_data] after its four additions, and the
    heap of the four units it points to. *)
Definition sample_systems : SystemArray :=
  {| pa_cells := Some [Holds (Some propulsion_system); Holds (Some life_support_system);
                       Holds (Some crew_capsule_system); Holds (Some generator_system)];
     pa_size := 4; pa_capacity := 4 |}.

Definition sample_pointers : list (option nat) :=
  [Some propulsion_system; Some life_support_system;
   Some crew_capsule_system; Some generator_system].

Definition sample_heap : Heap System := Some <$> system_array load_data.

(** The resource array of [load_data] after two of its four additions. *)
Definition sample_resources : ResourceArray :=
  {| pa_cells := Some [Holds (Some fuel); Holds (Some oxygen)];
     pa_size := 2; pa_capacity := 2 |}.

(** ** Proof automation for the state monad *)

Ltac unfold_ops :=
  unfold system_convert, system_store_resources, system_simulate_process_time,
    load_system, store_system, load_resource, store_resource, usleep, push_event,
    enter, record, mbind, M_bind, mret, M_ret.

Ltac reduce_state :=
  cbn beta iota delta
    [system_array resource_array event_queue trace simulation_running
     set_system_array set_resource_array set_event_queue set_trace
     set_simulation_running].

(** Compare two states whose traces are bracketed differently. *)
Ltac same_state :=
  unfold after_convert, after_store, after_report, record, converted;
  reduce_state; rewrite <- ?app_assoc; reflexivity.

(** Evaluate a monadic computation under the lookups [Hs] (the unit) and
    [Hr] (the resource). *)
Ltac run_under Hs Hr :=
  unfold_ops;
  repeat first
    [ rewrite Hs
    | rewrite Hr
    | rewrite list_lookup_insert_eq by (eapply lookup_lt_Some; eassumption)
    | rewrite decide_True by done
    | rewrite decide_False by done
    | progress reduce_state ].

(** * Properties *)

(** ** Machine integers *)

(** An [int] result within the range of the type is the result itself. *)
Lemma wrap_int_small z : INT_MIN <= z <= INT_MAX -> wrap_int z = z.
Proof.
  unfold wrap_int, INT_MIN, INT_MAX. intros Hz.
  rewrite Z.mod_small by lia. lia.
Qed.


(** Whatever the result, what is left is an [int]. *)
Lemma wrap_int_range z : INT_MIN <= wrap_int z <= INT_MAX.
Proof.
  unfold wrap_int, INT_MIN, INT_MAX.
  pose proof (Z.mod_pos_bound (z + 2 ^ 31) (2 ^ 32) ltac:(lia)). lia.
Qed.


(** ** Event queue *)

Section EventQueue.

Implicit Types (event node : Event) (current events : list Event)
  (queue : EventQueue).

(** The special case of [event_queue_push] for a higher-priority event is
    what the traversal does at the head anyway. *)
Lemma event_queue_push_head queue event :
  q_head (event_queue_push queue event) = push_traverse event (q_head queue).
Proof.
  unfold event_queue_push; simpl.
  destruct (q_head queue) as [|node next]; [reflexivity|].
  simpl. destruct (Z.ltb_spec (e_priority node) (e_priority event)) as [Hlt|Hge].
  - rewrite (proj2 (Z.leb_gt _ _) Hlt). reflexivity.
  - reflexivity.
Qed.

Lemma event_queue_push_size queue event :
  q_size (event_queue_push queue event) = q_size queue + 1.
Proof. reflexivity. Qed.

Lemma push_traverse_perm event current :
  push_traverse event current ≡ₚ event :: current.
Proof.
  induction current as [|node next IH]; simpl; [reflexivity|].
  destruct (e_priority event <=? e_priority node); [|reflexivity].
  rewrite IH. apply Permutation_swap.
Qed.

Lemma push_traverse_length event current :
  length (push_traverse event current) = S (length current).
Proof. apply (Permutation_length (push_traverse_perm event current)). Qed.

Lemma push_traverse_sorted event current :
  StronglySorted prio_ge current ->
  StronglySorted prio_ge (push_traverse event current).
Proof.
  induction 1 as [|node next Hsorted IH Hall]; simpl.
  - repeat constructor.
  - destruct (Z.leb_spec (e_priority event) (e_priority node)) as [Hle|Hgt].
    + constructor; [exact IH|].
      rewrite (push_traverse_perm event next).
      constructor; [exact Hle | exact Hall].
    + constructor; [constructor; assumption|].
      constructor; [unfold prio_ge; lia|].
      eapply Forall_impl; [exact Hall|].
      unfold prio_ge. intros other Hother. lia.
Qed.

Lemma with_priority_none p events :
  Forall (fun e => e_priority e <> p) events -> with_priority p events = [].
Proof.
  unfold with_priority. induction 1 as [|e rest Hne _ IH]; [reflexivity|].
  rewrite filter_cons_False by exact Hne. exact IH.
Qed.

(** The new event goes behind every queued event of its own priority and
    leaves the other priority classes as they were. *)
Lemma push_traverse_with_priority p event current :
  StronglySorted prio_ge current ->
  with_priority p (push_traverse event current)
  = with_priority p current ++ with_priority p [event].
Proof.
  induction 1 as [|node next Hsorted IH Hall]; simpl; [reflexivity|].
  destruct (Z.leb_spec (e_priority event) (e_priority node)) as [Hle|Hgt].
  - unfold with_priority in *. rewrite !filter_cons, IH.
    destruct (decide (e_priority node = p)); reflexivity.
  - unfold with_priority at 1 3.
    rewrite (filter_cons _ event), (filter_cons _ event []), filter_nil.
    fold (with_priority p (node :: next)).
    destruct (decide (e_priority event = p)) as [Heq|Hne].
    + rewrite with_priority_none; [reflexivity|].
      constructor; [lia|].
      eapply Forall_impl; [exact Hall|].
      unfold prio_ge. intros other Hother. lia.
    + rewrite app_nil_r. reflexivity.
Qed.

Lemma push_fold_head events queue :
  StronglySorted prio_ge (q_head queue) ->
  let queue' := fold_left event_queue_push events queue in
  StronglySorted prio_ge (q_head queue')
  /\ q_head queue' ≡ₚ q_head queue ++ events
  /\ (forall p, with_priority p (q_head queue')
                = with_priority p (q_head queue) ++ with_priority p events)
  /\ q_size queue' = q_size queue + Z.of_nat (length events).
Proof.
  revert queue.
  induction events as [|event rest IH]; intros queue Hsorted; simpl.
  - rewrite app_nil_r. repeat split; try done.
    + intros p. unfold with_priority. rewrite filter_nil, app_nil_r. reflexivity.
    + lia.
  - specialize (IH (event_queue_push queue event)).
    rewrite event_queue_push_head, event_queue_push_size in IH.
    destruct (IH (push_traverse_sorted event _ Hsorted))
      as (Hs & Hperm & Hprio & Hsize).
    repeat split.
    + exact Hs.
    + rewrite Hperm, push_traverse_perm. simpl. apply Permutation_middle.
    + intros p. rewrite Hprio, push_traverse_with_priority by exact Hsorted.
      unfold with_priority.
      rewrite <- app_assoc, <- (filter_app _ [event] rest). reflexivity.
    + lia.
Qed.

Lemma pop_all_drains fuel queue :
  (length (q_head queue) <= fuel)%nat ->
  pop_all fuel queue
  = (q_head queue,
     {| q_head := []; q_size := q_size queue - Z.of_nat (length (q_head queue)) |}).
Proof.
  revert queue.
  induction fuel as [|fuel IH]; intros [head size] Hfuel;
    cbn [q_head q_size] in *.
  - destruct head; cbn [length] in *; [|lia].
    cbn [pop_all]. do 2 f_equal. lia.
  - destruct head as [|temp next]; cbn [length] in *;
      cbn [pop_all event_queue_pop q_head q_size].
    + do 2 f_equal. lia.
    + rewrite IH by (cbn [q_head]; lia).
      cbn [q_head q_size]. do 2 f_equal. lia.
Qed.

(** C2. Whatever events are pushed onto an empty queue, popping until the
    queue is empty returns exactly those events, in descending priority,
    and within one priority in the order they were pushed; the queue then
    reports empty. *)
Theorem event_queue_priority_fifo events (extra : nat) :
  exists popped,
    pop_all (length events + extra) (push_all events) = (popped, event_queue_init)
    /\ event_queue_pop event_queue_init = (0, None, event_queue_init)
    /\ popped ≡ₚ events
    /\ StronglySorted prio_ge popped
    /\ forall p, with_priority p popped = with_priority p events.
Proof.
  destruct (push_fold_head events event_queue_init) as (Hs & Hperm & Hprio & Hsize).
  { constructor. }
  fold (push_all events) in *. simpl in *.
  exists (q_head (push_all events)).
  assert (Hlen : length (q_head (push_all events)) = length events)
    by (apply Permutation_length; exact Hperm).
  repeat split; try assumption.
  rewrite pop_all_drains by lia.
  unfold event_queue_init. do 2 f_equal. lia.
Qed.

End EventQueue.

(** ** Unit operations *)

Section Operations.

Implicit Types (m : Manager) (sys : System) (r : Resource) (s p : nat).

Lemma system_convert_null m s sys :
  system_array m !! s = Some sys ->
  ra_resource (s_consumed sys) = None ->
  system_convert s m
  = Some (STATUS_OK, after_convert s sys (resource_array m) m).
Proof.
  intros Hs Hnull. run_under Hs Hs. rewrite Hnull. run_under Hs Hs.
  unfold after_convert, converted.
  destruct (ra_resource (s_produced sys)); run_under Hs Hs; same_state.
Qed.

Lemma system_convert_enough m s sys p r :
  system_array m !! s = Some sys ->
  ra_resource (s_consumed sys) = Some p ->
  resource_array m !! p = Some r ->
  ra_amount (s_consumed sys) <= r_amount r ->
  system_convert s m
  = Some (STATUS_OK,
          after_convert s sys
            (<[p := set_amount (r_amount r - ra_amount (s_consumed sys)) r]>
               (resource_array m)) m).
Proof.
  intros Hs Hp Hr Hle. run_under Hs Hr. rewrite Hp. run_under Hs Hr.
  rewrite (proj2 (Z.leb_le _ _) Hle). run_under Hs Hr.
  unfold after_convert, converted.
  destruct (ra_resource (s_produced sys)); run_under Hs Hr; same_state.
Qed.

Lemma system_convert_short m s sys p r :
  system_array m !! s = Some sys ->
  ra_resource (s_consumed sys) = Some p ->
  resource_array m !! p = Some r ->
  r_amount r < ra_amount (s_consumed sys) ->
  system_convert s m
  = Some (if r_amount r =? 0 then STATUS_EMPTY else STATUS_INSUFFICIENT,
          record (Enters (Convert s)) m).
Proof.
  intros Hs Hp Hr Hlt. run_under Hs Hr. rewrite Hp. run_under Hs Hr.
  rewrite (proj2 (Z.leb_gt _ _) Hlt).
  destruct (r_amount r =? 0); same_state.
Qed.

Lemma system_store_null m s sys :
  system_array m !! s = Some sys ->
  ra_resource (s_produced sys) = None ->
  system_store_resources s m
  = Some (STATUS_OK, after_store s sys 0 (resource_array m) m).
Proof.
  intros Hs Hnull. run_under Hs Hs. rewrite Hnull. run_under Hs Hs.
  same_state.
Qed.

Lemma system_store_nothing m s sys p :
  system_array m !! s = Some sys ->
  ra_resource (s_produced sys) = Some p ->
  s_amount_stored sys = 0 ->
  system_store_resources s m
  = Some (STATUS_OK, after_store s sys 0 (resource_array m) m).
Proof.
  intros Hs Hp Hzero. run_under Hs Hs.
  rewrite Hp, (proj2 (Z.eqb_eq _ _) Hzero). run_under Hs Hs.
  same_state.
Qed.

Lemma system_store_all m s sys p r :
  system_array m !! s = Some sys ->
  ra_resource (s_produced sys) = Some p ->
  resource_array m !! p = Some r ->
  s_amount_stored sys <> 0 ->
  s_amount_stored sys <= r_max_capacity r - r_amount r ->
  system_store_resources s m
  = Some (STATUS_OK,
          after_store s sys 0
            (<[p := set_amount (r_amount r + s_amount_stored sys) r]>
               (resource_array m)) m).
Proof.
  intros Hs Hp Hr Hnz Hle. run_under Hs Hr. rewrite Hp.
  rewrite (proj2 (Z.eqb_neq _ _) Hnz). run_under Hs Hr.
  rewrite (proj2 (Z.leb_le _ _) Hle). run_under Hs Hr.
  same_state.
Qed.

Lemma system_store_part m s sys p r :
  system_array m !! s = Some sys ->
  ra_resource (s_produced sys) = Some p ->
  resource_array m !! p = Some r ->
  0 < r_max_capacity r - r_amount r < s_amount_stored sys ->
  system_store_resources s m
  = Some (STATUS_CAPACITY,
          after_store s sys
            (s_amount_stored sys - (r_max_capacity r - r_amount r))
            (<[p := set_amount (r_amount r + (r_max_capacity r - r_amount r)) r]>
               (resource_array m)) m).
Proof.
  intros Hs Hp Hr [Hpos Hlt]. run_under Hs Hr. rewrite Hp.
  rewrite (proj2 (Z.eqb_neq (s_amount_stored sys) 0)) by lia. run_under Hs Hr.
  rewrite (proj2 (Z.leb_gt _ _) Hlt), (proj2 (Z.ltb_lt _ _) Hpos).
  run_under Hs Hr. cbn [s_amount_stored set_amount_stored].
  rewrite (proj2 (Z.eqb_neq _ 0)) by lia.
  same_state.
Qed.

Lemma system_store_full m s sys p r :
  system_array m !! s = Some sys ->
  ra_resource (s_produced sys) = Some p ->
  resource_array m !! p = Some r ->
  s_amount_stored sys <> 0 ->
  r_max_capacity r - r_amount r < s_amount_stored sys ->
  r_max_capacity r - r_amount r <= 0 ->
  system_store_resources s m
  = Some (STATUS_CAPACITY, record (Enters (Store s)) m).
Proof.
  intros Hs Hp Hr Hnz Hlt Hfull. run_under Hs Hr. rewrite Hp.
  rewrite (proj2 (Z.eqb_neq _ _) Hnz). run_under Hs Hr.
  rewrite (proj2 (Z.leb_gt _ _) Hlt), (proj2 (Z.ltb_ge _ _) Hfull).
  run_under Hs Hr. rewrite (proj2 (Z.eqb_neq _ _) Hnz).
  same_state.
Qed.

End Operations.

Section OperationOutcomes.

Implicit Types (m : Manager) (sys : System) (r : Resource) (s p : nat).

(** C3. A convert attempt on a present resource with a positive required
    amount reports EMPTY when the resource holds nothing, INSUFFICIENT
    when it holds between 1 and one less than required, and otherwise
    succeeds and takes exactly the required amount out of the resource. *)
Theorem system_convert_outcome m s sys p r :
  system_array m !! s = Some sys ->
  ra_resource (s_consumed sys) = Some p ->
  resource_array m !! p = Some r ->
  0 < ra_amount (s_consumed sys) ->
  exists status m',
    system_convert s m = Some (status, m')
    /\ (r_amount r = 0 -> status = STATUS_EMPTY)
    /\ (1 <= r_amount r <= ra_amount (s_consumed sys) - 1 ->
        status = STATUS_INSUFFICIENT)
    /\ (ra_amount (s_consumed sys) <= r_amount r ->
        status = STATUS_OK
        /\ resource_array m' !! p
           = Some (set_amount (r_amount r - ra_amount (s_consumed sys)) r)).
Proof.
  intros Hs Hp Hr Hpos.
  destruct (Z.le_gt_cases (ra_amount (s_consumed sys)) (r_amount r)) as [Hle|Hlt].
  - eexists _, _. split; [apply (system_convert_enough m s sys p r); assumption|].
    split; [lia|]. split; [lia|]. intros _. split; [reflexivity|].
    cbn [resource_array after_convert].
    apply list_lookup_insert_eq. eapply lookup_lt_Some; eassumption.
  - eexists _, _. split; [apply (system_convert_short m s sys p r); assumption|].
    split; [|split].
    + intros Hzero. rewrite (proj2 (Z.eqb_eq _ _) Hzero). reflexivity.
    + intros Hsome. rewrite (proj2 (Z.eqb_neq _ 0)) by lia. reflexivity.
    + lia.
Qed.


End OperationOutcomes.

Section ClosedForms.

Implicit Types (m : Manager) (sys : System) (r : Resource) (s p : nat).

(** [system_convert] as a function of the state it starts in. *)
Lemma system_convert_eq m s :
  system_convert s m
  = (sys ← system_array m !! s;
     match ra_resource (s_consumed sys) with
     | None => Some (STATUS_OK, after_convert s sys (resource_array m) m)
     | Some p =>
         r ← resource_array m !! p;
         if ra_amount (s_consumed sys) <=? r_amount r then
           Some (STATUS_OK,
                 after_convert s sys
                   (<[p := set_amount (r_amount r - ra_amount (s_consumed sys)) r]>
                      (resource_array m)) m)
         else
           Some (if r_amount r =? 0 then STATUS_EMPTY else STATUS_INSUFFICIENT,
                 record (Enters (Convert s)) m)
     end).
Proof.
  destruct (system_array m !! s) as [sys|] eqn:Hs; cbn [mbind option_bind].
  - destruct (ra_resource (s_consumed sys)) as [p|] eqn:Hp.
    + destruct (resource_array m !! p) as [r|] eqn:Hr; cbn [mbind option_bind].
      * destruct (Z.leb_spec (ra_amount (s_consumed sys)) (r_amount r)).
        -- eapply system_convert_enough; eassumption.
        -- eapply system_convert_short; eassumption.
      * run_under Hs Hr. rewrite Hp. run_under Hs Hr. reflexivity.
    + apply system_convert_null; assumption.
  - run_under Hs Hs. reflexivity.
Qed.

(** [system_store_resources] as a function of the state it starts in. *)
Lemma system_store_resources_eq m s :
  system_store_resources s m
  = (sys ← system_array m !! s;
     match ra_resource (s_produced sys) with
     | None => Some (STATUS_OK, after_store s sys 0 (resource_array m) m)
     | Some p =>
         if s_amount_stored sys =? 0 then
           Some (STATUS_OK, after_store s sys 0 (resource_array m) m)
         else
           r ← resource_array m !! p;
           let available_space := r_max_capacity r - r_amount r in
           if s_amount_stored sys <=? available_space then
             Some (STATUS_OK,
                   after_store s sys 0
                     (<[p := set_amount (r_amount r + s_amount_stored sys) r]>
                        (resource_array m)) m)
           else if 0 <? available_space then
             Some (STATUS_CAPACITY,
                   after_store s sys (s_amount_stored sys - available_space)
                     (<[p := set_amount (r_amount r + available_space) r]>
                        (resource_array m)) m)
           else Some (STATUS_CAPACITY, record (Enters (Store s)) m)
     end).
Proof.
  destruct (system_array m !! s) as [sys|] eqn:Hs; cbn [mbind option_bind].
  - destruct (ra_resource (s_produced sys)) as [p|] eqn:Hp.
    + destruct (Z.eqb_spec (s_amount_stored sys) 0) as [Hzero|Hnz].
      * eapply system_store_nothing; eassumption.
      * destruct (resource_array m !! p) as [r|] eqn:Hr; cbn [mbind option_bind].
        -- cbv zeta.
           destruct (Z.leb_spec (s_amount_stored sys)
                       (r_max_capacity r - r_amount r)).
           ++ eapply system_store_all; eassumption.
           ++ destruct (Z.ltb_spec 0 (r_max_capacity r - r_amount r)).
              ** eapply system_store_part; try eassumption. lia.
              ** eapply system_store_full; eassumption.
        -- run_under Hs Hr. rewrite Hp, (proj2 (Z.eqb_neq _ _) Hnz).
           run_under Hs Hr. reflexivity.
    + apply system_store_null; assumption.
  - run_under Hs Hs. reflexivity.
Qed.

End ClosedForms.

(** ** The cycle *)

Section CycleFacts.

Variables PRIORITY_HIGH PRIORITY_LOW SYSTEM_WAIT_TIME : Z.

Implicit Types (m : Manager) (sys : System) (r : Resource) (s p : nat).

Local Abbreviation run_convert := (system_run_convert PRIORITY_HIGH SYSTEM_WAIT_TIME).
Local Abbreviation run_store := (system_run_store PRIORITY_LOW SYSTEM_WAIT_TIME).
Local Abbreviation run := (system_run PRIORITY_HIGH PRIORITY_LOW SYSTEM_WAIT_TIME).

Lemma system_run_split m s :
  run s m
  = match run_convert s m with
    | Some (_, m1) => run_store s m1
    | None => None
    end.
Proof. reflexivity. Qed.

Lemma system_run_convert_skip m s sys :
  system_array m !! s = Some sys ->
  s_amount_stored sys <> 0 ->
  run_convert s m = Some (tt, m).
Proof.
  intros Hs Hnz. unfold system_run_convert, load_system, mbind, M_bind.
  rewrite Hs, (proj2 (Z.eqb_neq _ _) Hnz). reflexivity.
Qed.

Lemma system_run_convert_done m s sys m1 :
  system_array m !! s = Some sys ->
  s_amount_stored sys = 0 ->
  system_convert s m = Some (STATUS_OK, m1) ->
  run_convert s m = Some (tt, m1).
Proof.
  intros Hs Hzero Hconv. unfold system_run_convert, load_system, mbind, M_bind.
  rewrite Hs, (proj2 (Z.eqb_eq _ _) Hzero), Hconv.
  rewrite decide_False by (intros Hne; apply Hne; reflexivity). reflexivity.
Qed.

Lemma system_run_convert_report m s sys status m1 sys1 :
  system_array m !! s = Some sys ->
  s_amount_stored sys = 0 ->
  system_convert s m = Some (status, m1) ->
  status <> STATUS_OK ->
  system_array m1 !! s = Some sys1 ->
  run_convert s m
  = Some (tt, after_report
                (event_init s (ra_resource (s_consumed sys1)) status
                   PRIORITY_HIGH (ra_amount (s_consumed sys1)))
                SYSTEM_WAIT_TIME m1).
Proof.
  intros Hs Hzero Hconv Hne Hs1.
  unfold system_run_convert, load_system, mbind, M_bind.
  rewrite Hs, (proj2 (Z.eqb_eq _ _) Hzero), Hconv.
  rewrite decide_True by exact Hne. rewrite Hs1.
  unfold push_event, usleep. same_state.
Qed.

Lemma system_run_store_skip m s sys :
  system_array m !! s = Some sys ->
  s_amount_stored sys <= 0 ->
  run_store s m = Some (tt, m).
Proof.
  intros Hs Hle. unfold system_run_store, load_system, mbind, M_bind.
  rewrite Hs, (proj2 (Z.ltb_ge _ _) Hle). reflexivity.
Qed.

Lemma system_run_store_done m s sys m1 :
  system_array m !! s = Some sys ->
  0 < s_amount_stored sys ->
  system_store_resources s m = Some (STATUS_OK, m1) ->
  run_store s m = Some (tt, m1).
Proof.
  intros Hs Hpos Hstore. unfold system_run_store, load_system, mbind, M_bind.
  rewrite Hs, (proj2 (Z.ltb_lt _ _) Hpos), Hstore.
  rewrite decide_False by (intros Hne; apply Hne; reflexivity). reflexivity.
Qed.

Lemma system_run_store_report m s sys status m1 sys1 :
  system_array m !! s = Some sys ->
  0 < s_amount_stored sys ->
  system_store_resources s m = Some (status, m1) ->
  status <> STATUS_OK ->
  system_array m1 !! s = Some sys1 ->
  run_store s m
  = Some (tt, after_report
                (event_init s (ra_resource (s_produced sys1)) status
                   PRIORITY_LOW (ra_amount (s_produced sys1)))
                SYSTEM_WAIT_TIME m1).
Proof.
  intros Hs Hpos Hstore Hne Hs1.
  unfold system_run_store, load_system, mbind, M_bind.
  rewrite Hs, (proj2 (Z.ltb_lt _ _) Hpos), Hstore.
  rewrite decide_True by exact Hne. rewrite Hs1.
  unfold push_event, usleep. same_state.
Qed.

(** What the convert half does in a state where the unit and the
    resource it consumes exist. *)
Lemma system_run_convert_total m s sys :
  system_array m !! s = Some sys ->
  pointer_ok m (ra_resource (s_consumed sys)) ->
  exists m1,
    run_convert s m = Some (tt, m1)
    /\ ((s_amount_stored sys <> 0 /\ m1 = m)
        \/ (s_amount_stored sys = 0
            /\ exists resources,
                 length resources = length (resource_array m)
                 /\ system_convert s m
                    = Some (STATUS_OK, after_convert s sys resources m)
                 /\ m1 = after_convert s sys resources m)
        \/ (s_amount_stored sys = 0
            /\ exists status,
                 status <> STATUS_OK
                 /\ system_convert s m
                    = Some (status, record (Enters (Convert s)) m)
                 /\ m1 = after_report
                           (event_init s (ra_resource (s_consumed sys)) status
                              PRIORITY_HIGH (ra_amount (s_consumed sys)))
                           SYSTEM_WAIT_TIME (record (Enters (Convert s)) m))).
Proof.
  intros Hs Hptr.
  destruct (decide (s_amount_stored sys = 0)) as [Hzero|Hnz].
  2:{ exists m. split; [eapply system_run_convert_skip; eassumption|]. auto. }
  pose proof (system_convert_eq m s) as Heq.
  rewrite Hs in Heq; cbn [mbind option_bind] in Heq.
  destruct (ra_resource (s_consumed sys)) as [p|] eqn:Hp.
  - destruct Hptr as [r Hr]. rewrite Hr in Heq; cbn [mbind option_bind] in Heq.
    destruct (ra_amount (s_consumed sys) <=? r_amount r).
    + eexists. split; [eapply system_run_convert_done; eassumption|].
      right; left. split; [assumption|]. eexists. split; [|split; [exact Heq|reflexivity]].
      apply length_insert.
    + assert (Hne : (if r_amount r =? 0 then STATUS_EMPTY else STATUS_INSUFFICIENT)
                    <> STATUS_OK) by (destruct (r_amount r =? 0); discriminate).
      eexists. split.
      { eapply system_run_convert_report; try eassumption. }
      right; right. split; [assumption|]. eexists. split; [exact Hne|].
      split; [exact Heq|]. rewrite Hp. reflexivity.
  - eexists. split; [eapply system_run_convert_done; eassumption|].
    right; left. split; [assumption|]. eexists. split; [|split; [exact Heq|reflexivity]].
    reflexivity.
Qed.

(** What the store half does in a state where the unit and the resource
    it produces exist. *)
Lemma system_run_store_total m s sys :
  system_array m !! s = Some sys ->
  pointer_ok m (ra_resource (s_produced sys)) ->
  exists m2,
    run_store s m = Some (tt, m2)
    /\ ((s_amount_stored sys <= 0 /\ m2 = m)
        \/ (0 < s_amount_stored sys
            /\ exists resources,
                 length resources = length (resource_array m)
                 /\ system_store_resources s m
                    = Some (STATUS_OK, after_store s sys 0 resources m)
                 /\ m2 = after_store s sys 0 resources m)
        \/ (0 < s_amount_stored sys
            /\ exists stored resources,
                 length resources = length (resource_array m)
                 /\ 0 < stored <= s_amount_stored sys
                 /\ system_store_resources s m
                    = Some (STATUS_CAPACITY, after_store s sys stored resources m)
                 /\ m2 = after_report
                           (event_init s (ra_resource (s_produced sys))
                              STATUS_CAPACITY PRIORITY_LOW
                              (ra_amount (s_produced sys)))
                           SYSTEM_WAIT_TIME
                           (after_store s sys stored resources m))).
Proof.
  intros Hs Hptr.
  assert (Hsl : (s < length (system_array m))%nat)
    by (eapply lookup_lt_Some; eassumption).
  destruct (Z.le_gt_cases (s_amount_stored sys) 0) as [Hle|Hpos].
  { exists m. split; [eapply system_run_store_skip; eassumption|]. auto. }
  pose proof (system_store_resources_eq m s) as Heq.
  rewrite Hs in Heq; cbn [mbind option_bind] in Heq.
  destruct (ra_resource (s_produced sys)) as [p|] eqn:Hp.
  - rewrite (proj2 (Z.eqb_neq (s_amount_stored sys) 0)) in Heq by lia.
    destruct Hptr as [r Hr]. rewrite Hr in Heq; cbn [mbind option_bind] in Heq.
    cbv zeta in Heq.
    destruct (Z.leb_spec (s_amount_stored sys) (r_max_capacity r - r_amount r)).
    + eexists. split; [eapply system_run_store_done; eassumption|].
      right; left. split; [assumption|]. eexists.
      split; [|split; [exact Heq|reflexivity]]. apply length_insert.
    + destruct (Z.ltb_spec 0 (r_max_capacity r - r_amount r)).
      * eexists. split.
        { eapply system_run_store_report; try eassumption; [discriminate|].
          cbn [system_array after_store].
          apply list_lookup_insert_eq. assumption. }
        right; right. split; [assumption|]. eexists _, _.
        split; [apply length_insert|]. split; [|split; [exact Heq|]].
        -- lia.
        -- cbn [s_produced set_amount_stored]. rewrite Hp. reflexivity.
      * assert (Hsame : record (Enters (Store s)) m
                        = after_store s sys (s_amount_stored sys)
                            (resource_array m) m).
        { unfold after_store, record, set_trace. f_equal.
          symmetry. apply list_insert_id.
          rewrite Hs. f_equal. destruct sys; reflexivity. }
        rewrite Hsame in Heq.
        eexists. split.
        { eapply system_run_store_report; try eassumption; [discriminate|].
          cbn [system_array after_store].
          apply list_lookup_insert_eq. assumption. }
        right; right. split; [assumption|]. eexists _, _.
        split; [reflexivity|]. split; [|split; [exact Heq|]].
        -- lia.
        -- cbn [s_produced set_amount_stored]. rewrite Hp. reflexivity.
  - eexists. split; [eapply system_run_store_done; eassumption|].
    right; left. split; [assumption|]. eexists.
    split; [|split; [exact Heq|reflexivity]]. reflexivity.
Qed.

Lemma system_run_convert_inv m s sys m1 :
  system_array m !! s = Some sys ->
  run_convert s m = Some (tt, m1) ->
  (s_amount_stored sys <> 0 /\ m1 = m)
  \/ (s_amount_stored sys = 0
      /\ exists resources,
           length resources = length (resource_array m)
           /\ m1 = after_convert s sys resources m)
  \/ (s_amount_stored sys = 0
      /\ exists status,
           m1 = after_report
                  (event_init s (ra_resource (s_consumed sys)) status
                     PRIORITY_HIGH (ra_amount (s_consumed sys)))
                  SYSTEM_WAIT_TIME (record (Enters (Convert s)) m)).
Proof.
  intros Hs Hrun.
  destruct (decide (s_amount_stored sys = 0)) as [Hzero|Hnz].
  2:{ left. split; [assumption|].
      rewrite (system_run_convert_skip m s sys Hs Hnz) in Hrun. congruence. }
  assert (Hptr : pointer_ok m (ra_resource (s_consumed sys))).
  { destruct (ra_resource (s_consumed sys)) as [p|] eqn:Hp; [|exact I].
    destruct (resource_array m !! p) as [r|] eqn:Hr; [eexists; exact Hr|].
    exfalso. revert Hrun.
    unfold system_run_convert, load_system, mbind, M_bind.
    rewrite Hs, (proj2 (Z.eqb_eq _ _) Hzero), system_convert_eq, Hs.
    cbn [mbind option_bind]. rewrite Hp, Hr. discriminate. }
  destruct (system_run_convert_total m s sys Hs Hptr) as (m1' & Hrun' & Hcases).
  assert (m1' = m1) by congruence. subst m1'.
  destruct Hcases as [[Hnz _]|[(_ & res & Hlen & _ & Hm1)|(_ & status & _ & _ & Hm1)]].
  - contradiction.
  - right; left. split; [assumption|]. eauto.
  - right; right. split; [assumption|]. eauto.
Qed.

(** C10. A cycle that starts with an empty buffer and whose convert
    attempt fails with EMPTY or INSUFFICIENT leaves every resource and
    every unit record (so the consumed resource's amount and the buffer)
    as they were: it enters the convert operation, reports one event,
    pauses, and never enters the store operation. *)
Theorem system_run_failed_convert_frame m s sys status m1 :
  system_array m !! s = Some sys ->
  s_amount_stored sys = 0 ->
  system_convert s m = Some (status, m1) ->
  status = STATUS_EMPTY \/ status = STATUS_INSUFFICIENT ->
  let event := event_init s (ra_resource (s_consumed sys)) status
                 PRIORITY_HIGH (ra_amount (s_consumed sys)) in
  exists m',
    run s m = Some (tt, m')
    /\ resource_array m' = resource_array m
    /\ system_array m' = system_array m
    /\ trace m' = trace m ++ [Enters (Convert s); Pushes event;
                              Sleeps (SYSTEM_WAIT_TIME * 1000)]
    /\ event_queue m' = event_queue_push (event_queue m) event.
Proof.
  intros Hs Hzero Hconv Hfail.
  assert (Hne : status <> STATUS_OK) by (destruct Hfail; subst; discriminate).
  assert (Hm1 : m1 = record (Enters (Convert s)) m).
  { rewrite system_convert_eq, Hs in Hconv. cbn [mbind option_bind] in Hconv.
    destruct (ra_resource (s_consumed sys)) as [p|]; [|congruence].
    destruct (resource_array m !! p) as [r|]; cbn [mbind option_bind] in Hconv;
      [|discriminate].
    destruct (ra_amount (s_consumed sys) <=? r_amount r); congruence. }
  subst m1.
  eexists. split.
  - rewrite system_run_split.
    rewrite (system_run_convert_report m s sys status _ sys Hs Hzero Hconv Hne Hs).
    eapply system_run_store_skip; [exact Hs|lia].
  - repeat split. cbn [trace after_report record set_trace].
    rewrite <- app_assoc. reflexivity.
Qed.

(** C6, as the code has it. In a cycle whose store attempt fails with
    CAPACITY the cycle pushes one event for it, with status CAPACITY,
    priority LOW and the unit's produced amount as magnitude; that is
    the amount buffered before the store attempt when the cycle started
    with an empty buffer (the produced amount being an [int]). *)
Theorem system_run_capacity_event m s sys m1 sys1 m2 :
  system_array m !! s = Some sys ->
  run_convert s m = Some (tt, m1) ->
  system_array m1 !! s = Some sys1 ->
  0 < s_amount_stored sys1 ->
  system_store_resources s m1 = Some (STATUS_CAPACITY, m2) ->
  let event := event_init s (ra_resource (s_produced sys1)) STATUS_CAPACITY
                 PRIORITY_LOW (ra_amount (s_produced sys1)) in
  run s m = Some (tt, after_report event SYSTEM_WAIT_TIME m2)
  /\ event_queue m2 = event_queue m
  /\ (s_amount_stored sys = 0 ->
      INT_MIN <= ra_amount (s_produced sys) <= INT_MAX ->
      e_amount event = s_amount_stored sys1).
Proof.
  intros Hs Hrun1 Hs1 Hpos Hstore event. subst event.
  assert (Hsl : (s < length (system_array m1))%nat)
    by (eapply lookup_lt_Some; eassumption).
  assert (Hs2 : exists sys2, system_array m2 !! s = Some sys2
                             /\ s_produced sys2 = s_produced sys1
                             /\ event_queue m2 = event_queue m1).
  { rewrite system_store_resources_eq, Hs1 in Hstore.
    cbn [mbind option_bind] in Hstore.
    destruct (ra_resource (s_produced sys1)) as [p|]; [|congruence].
    destruct (s_amount_stored sys1 =? 0); [congruence|].
    destruct (resource_array m1 !! p) as [r|]; cbn [mbind option_bind] in Hstore;
      [|discriminate].
    cbv zeta in Hstore.
    destruct (s_amount_stored sys1 <=? r_max_capacity r - r_amount r);
      [congruence|].
    destruct (0 <? r_max_capacity r - r_amount r);
      injection Hstore as <-.
    - eexists. cbn [system_array after_store event_queue].
      rewrite list_lookup_insert_eq by assumption. done.
    - exists sys1. done. }
  destruct Hs2 as (sys2 & Hs2 & Hprod & Hqueue).
  split; [|split].
  - rewrite system_run_split, Hrun1. rewrite <- Hprod.
    eapply system_run_store_report; try eassumption. discriminate.
  - rewrite Hqueue.
    destruct (system_run_convert_inv m s sys m1 Hs Hrun1)
      as [[_ ->]|[(_ & res & _ & ->)|(Hzero & status & ->)]];
      [reflexivity|reflexivity|].
    exfalso. cbn [system_array after_report record set_trace] in Hs1.
    assert (sys1 = sys) by congruence. subst sys1. lia.
  - intros Hzero Hint. cbn [e_amount event_init].
    destruct (system_run_convert_inv m s sys m1 Hs Hrun1)
      as [[Hnz _]|[(_ & res & _ & ->)|(_ & status & ->)]].
    + contradiction.
    + cbn [system_array after_convert] in Hs1.
      rewrite list_lookup_insert_eq in Hs1 by (eapply lookup_lt_Some; exact Hs).
      injection Hs1 as <-. unfold converted in *.
      destruct (ra_resource (s_produced sys));
        cbn [s_amount_stored s_produced set_amount_stored] in *; [|lia].
      rewrite Hzero, Z.add_0_l. symmetry. apply wrap_int_small. exact Hint.
    + cbn [system_array after_report record set_trace] in Hs1.
      assert (sys1 = sys) by congruence. subst sys1. lia.
Qed.

(** C8. In a state where the unit and the resources it names exist, a
    cycle returns and pushes at most one event: the events recorded in
    the stretch of trace the cycle adds are at most one, and they are
    what was pushed onto the queue. *)
Theorem system_run_at_most_one_event m s sys :
  system_array m !! s = Some sys ->
  pointer_ok m (ra_resource (s_consumed sys)) ->
  pointer_ok m (ra_resource (s_produced sys)) ->
  exists m' effects,
    run s m = Some (tt, m')
    /\ trace m' = trace m ++ effects
    /\ event_queue m'
       = fold_left event_queue_push (pushed effects) (event_queue m)
    /\ (length (pushed effects) <= 1)%nat.
Proof.
  intros Hs Hcons Hprod.
  assert (Hsl : (s < length (system_array m))%nat)
    by (eapply lookup_lt_Some; eassumption).
  destruct (system_run_convert_total m s sys Hs Hcons) as (m1 & Hrun1 & Hcases).
  rewrite system_run_split, Hrun1.
  destruct Hcases as [[Hnz ->]|[(Hzero & res & Hlen & _ & ->)|(Hzero & status & _ & _ & ->)]].
  - (* nothing converted *)
    destruct (system_run_store_total m s sys Hs Hprod) as (m2 & Hrun2 & Hcases).
    exists m2.
    destruct Hcases as [[_ ->]|[(_ & res & _ & _ & ->)|(_ & stored & res & _ & _ & _ & ->)]].
    + exists []. rewrite app_nil_r. repeat split; [assumption|]. simpl; lia.
    + eexists. split; [exact Hrun2|]. split; [reflexivity|].
      split; [reflexivity|]. simpl; lia.
    + eexists. split; [exact Hrun2|].
      cbn [trace after_report after_store event_queue].
      rewrite <- app_assoc. split; [reflexivity|].
      split; [reflexivity|]. simpl; lia.
  - (* converted, then possibly stored *)
    set (m1 := after_convert s sys res m).
    assert (Hs1 : system_array m1 !! s = Some (converted sys)).
    { apply list_lookup_insert_eq. assumption. }
    assert (Hprod1 : pointer_ok m1 (ra_resource (s_produced (converted sys)))).
    { assert (Hsame : s_produced (converted sys) = s_produced sys)
        by (unfold converted; destruct (ra_resource (s_produced sys)); reflexivity).
      rewrite Hsame. destruct (ra_resource (s_produced sys)) as [p|]; [|exact I].
      cbn [pointer_ok resource_array m1 after_convert] in *.
      apply lookup_lt_is_Some. rewrite Hlen. apply lookup_lt_is_Some. assumption. }
    destruct (system_run_store_total m1 s _ Hs1 Hprod1) as (m2 & Hrun2 & Hcases).
    exists m2.
    destruct Hcases as [[_ ->]|[(_ & res2 & _ & _ & ->)|(_ & stored & res2 & _ & _ & _ & ->)]].
    + eexists. split; [exact Hrun2|]. split; [reflexivity|].
      split; [reflexivity|]. simpl; lia.
    + eexists. split; [exact Hrun2|].
      cbn [trace after_store after_convert m1 event_queue].
      rewrite <- app_assoc. split; [reflexivity|].
      split; [reflexivity|]. simpl; lia.
    + eexists. split; [exact Hrun2|].
      cbn [trace after_report after_store after_convert m1 event_queue].
      rewrite <- !app_assoc. split; [reflexivity|].
      split; [reflexivity|]. simpl; lia.
  - (* conversion failed and was reported: nothing to store *)
    eexists _, _. split.
    { eapply system_run_store_skip; [exact Hs|lia]. }
    cbn [trace after_report record set_trace event_queue].
    rewrite <- app_assoc. split; [reflexivity|].
    split; [reflexivity|]. simpl; lia.
Qed.

(** *** The cycle and the run mode *)

Lemma alter_after_insert {A} (g : A -> A) (l : list A) i x :
  alter g i (<[i := x]> l) = <[i := g x]> l.
Proof. rewrite !list_insert_alter, list_alter_alter_eq. reflexivity. Qed.

Lemma insert_after_alter {A} (g : A -> A) (l : list A) i x :
  <[i := x]> (alter g i l) = <[i := x]> l.
Proof. rewrite !list_insert_alter, list_alter_alter_eq. reflexivity. Qed.

Lemma set_mode_lookup m s mode :
  system_array (set_mode s mode m) !! s
  = set_status mode <$> system_array m !! s.
Proof. apply list_lookup_alter_eq. Qed.

Lemma set_mode_after_convert m s sys mode resources :
  adjusted_processing_time (set_status mode sys) = adjusted_processing_time sys ->
  after_convert s (set_status mode sys) resources (set_mode s mode m)
  = set_mode s mode (after_convert s sys resources m).
Proof.
  intros Htime. unfold after_convert, set_mode, set_system_array.
  cbn [system_array resource_array event_queue trace simulation_running].
  rewrite Htime, alter_after_insert, insert_after_alter.
  do 2 f_equal. unfold converted. cbn [s_produced set_status].
  destruct (ra_resource (s_produced sys)); reflexivity.
Qed.

Lemma set_mode_after_store m s sys mode stored resources :
  after_store s (set_status mode sys) stored resources (set_mode s mode m)
  = set_mode s mode (after_store s sys stored resources m).
Proof.
  unfold after_store, set_mode, set_system_array.
  cbn [system_array resource_array event_queue trace simulation_running].
  rewrite alter_after_insert, insert_after_alter. reflexivity.
Qed.

(** Replacing the mode by one with the same processing time commutes
    with a conversion. *)
Lemma system_convert_mode m s mode :
  (forall sys, system_array m !! s = Some sys ->
     adjusted_processing_time (set_status mode sys) = adjusted_processing_time sys) ->
  system_convert s (set_mode s mode m)
  = on_state (set_mode s mode) (system_convert s m).
Proof.
  intros Htime. rewrite !system_convert_eq, set_mode_lookup.
  destruct (system_array m !! s) as [sys|]; [|reflexivity].
  specialize (Htime sys eq_refl).
  cbn [fmap option_fmap option_map mbind option_bind s_consumed set_status
       resource_array set_mode set_system_array].
  destruct (ra_resource (s_consumed sys)) as [p|].
  - destruct (resource_array m !! p) as [r|]; [|reflexivity].
    cbn [mbind option_bind].
    destruct (ra_amount (s_consumed sys) <=? r_amount r); cbn [on_state].
    + f_equal. f_equal.
      apply (set_mode_after_convert m s sys mode _ Htime).
    + reflexivity.
  - cbn [on_state]. f_equal. f_equal.
    apply (set_mode_after_convert m s sys mode _ Htime).
Qed.

(** The store never looks at the mode. *)
Lemma system_store_resources_mode m s mode :
  system_store_resources s (set_mode s mode m)
  = on_state (set_mode s mode) (system_store_resources s m).
Proof.
  rewrite !system_store_resources_eq, set_mode_lookup.
  destruct (system_array m !! s) as [sys|]; [|reflexivity].
  cbn [fmap option_fmap option_map mbind option_bind s_produced s_amount_stored
       set_status resource_array set_mode set_system_array].
  destruct (ra_resource (s_produced sys)) as [p|].
  - destruct (s_amount_stored sys =? 0); cbn [on_state].
    + do 2 f_equal. apply (set_mode_after_store m s sys mode).
    + destruct (resource_array m !! p) as [r|]; [|reflexivity].
      cbn [mbind option_bind]. cbv zeta.
      destruct (s_amount_stored sys <=? r_max_capacity r - r_amount r);
        [|destruct (0 <? r_max_capacity r - r_amount r)]; cbn [on_state].
      * do 2 f_equal. apply (set_mode_after_store m s sys mode).
      * do 2 f_equal. apply (set_mode_after_store m s sys mode).
      * reflexivity.
  - cbn [on_state]. do 2 f_equal. apply (set_mode_after_store m s sys mode).
Qed.

Lemma system_run_convert_mode m s mode :
  (forall sys, system_array m !! s = Some sys ->
     adjusted_processing_time (set_status mode sys) = adjusted_processing_time sys) ->
  run_convert s (set_mode s mode m)
  = on_state (set_mode s mode) (run_convert s m).
Proof.
  intros Htime. pose proof (system_convert_mode m s mode Htime) as Hconv.
  unfold system_run_convert, load_system, mbind, M_bind.
  rewrite set_mode_lookup.
  destruct (system_array m !! s) as [sys|]; [|reflexivity].
  cbn [fmap option_fmap option_map s_amount_stored set_status].
  destruct (s_amount_stored sys =? 0); [|reflexivity].
  rewrite Hconv.
  destruct (system_convert s m) as [[status m1]|]; [|reflexivity].
  cbn [on_state].
  destruct (decide (status <> STATUS_OK)); [|reflexivity].
  rewrite set_mode_lookup.
  destruct (system_array m1 !! s) as [sys1|]; reflexivity.
Qed.

Lemma system_run_store_mode m s mode :
  run_store s (set_mode s mode m)
  = on_state (set_mode s mode) (run_store s m).
Proof.
  unfold system_run_store, load_system, mbind, M_bind.
  rewrite set_mode_lookup.
  destruct (system_array m !! s) as [sys|]; [|reflexivity].
  cbn [fmap option_fmap option_map s_amount_stored set_status].
  destruct (0 <? s_amount_stored sys); [|reflexivity].
  rewrite (system_store_resources_mode m s mode).
  destruct (system_store_resources s m) as [[status m1]|]; [|reflexivity].
  cbn [on_state].
  destruct (decide (status <> STATUS_OK)); [|reflexivity].
  rewrite set_mode_lookup.
  destruct (system_array m1 !! s) as [sys1|]; reflexivity.
Qed.

(** C7, as the code has it. The cycle never tests for DISABLED: on a
    DISABLED unit it does exactly what it does on the same unit in mode
    STANDARD (the same conversion, store, resource and buffer updates,
    events and pauses); the two runs differ in the unit's mode field
    only. *)
Theorem system_run_disabled_as_standard m s sys :
  system_array m !! s = Some sys ->
  s_status sys = DISABLED ->
  run s (set_mode s STANDARD m)
  = on_state (set_mode s STANDARD) (run s m).
Proof.
  intros Hs Hmode. rewrite !system_run_split.
  rewrite system_run_convert_mode.
  - destruct (run_convert s m) as [[[] m1]|]; [|reflexivity].
    cbn [on_state]. apply system_run_store_mode.
  - intros sys' Hs'. assert (sys' = sys) by congruence. subst sys'.
    unfold adjusted_processing_time. cbn [s_status s_processing_time set_status].
    rewrite Hmode. reflexivity.
Qed.

End CycleFacts.

(** ** The capacity invariant *)

Section Invariant.

Implicit Types (m : Manager) (sys : System) (r : Resource) (s p : nat).

Lemma pointer_ok_resized m m' ptr :
  length (resource_array m') = length (resource_array m) ->
  pointer_ok m ptr -> pointer_ok m' ptr.
Proof.
  intros Hlen. destruct ptr as [p|]; [|trivial]. cbn [pointer_ok].
  rewrite !lookup_lt_is_Some, Hlen. trivial.
Qed.

Lemma system_ok_resized m m' sys :
  length (resource_array m') = length (resource_array m) ->
  system_ok m sys -> system_ok m' sys.
Proof.
  intros Hlen (Hc & Hp & Hst & Hpc & Hpp).
  repeat split; try assumption; eapply pointer_ok_resized; eassumption.
Qed.

Lemma system_ok_stored m sys stored :
  0 <= stored -> system_ok m sys -> system_ok m (set_amount_stored stored sys).
Proof. intros Hpos (Hc & Hp & Hst & Hpc & Hpp). repeat split; assumption. Qed.

(** A state built from a well-formed one by replacing one unit record
    and the resource heap is well formed when the new pieces are. *)
Lemma well_formed_update m m' s sys' :
  well_formed m ->
  length (resource_array m') = length (resource_array m) ->
  Forall resource_ok (resource_array m') ->
  system_array m' = <[s := sys']> (system_array m) ->
  system_ok m sys' ->
  well_formed m'.
Proof.
  intros [Hres Hsys] Hlen Hres' Harr Hok. split; [exact Hres'|].
  rewrite Harr. apply Forall_insert.
  - eapply Forall_impl; [exact Hsys|].
    intros sys0. apply system_ok_resized. exact Hlen.
  - eapply system_ok_resized; eassumption.
Qed.

Lemma system_convert_well_formed m s :
  well_formed m ->
  is_Some (system_array m !! s) ->
  convert_fits (Convert s) m = true ->
  exists status m',
    system_convert s m = Some (status, m')
    /\ well_formed m'
    /\ length (system_array m') = length (system_array m).
Proof.
  intros Hwf [sys Hs] Hfits. pose proof Hwf as [Hres Hsys].
  pose proof (proj1 (Forall_lookup _ _) Hsys s sys Hs)
    as Hok.
  pose proof Hok as (Hc & Hp & Hst & Hpc & Hpp).
  cbn [convert_fits] in Hfits. rewrite Hs in Hfits. apply Z.leb_le in Hfits.
  assert (Hconv : system_ok m (converted sys)).
  { unfold converted. destruct (ra_resource (s_produced sys));
      apply system_ok_stored; try assumption; [|lia].
    rewrite wrap_int_small by (unfold INT_MIN; lia). lia. }
  rewrite system_convert_eq, Hs. cbn [mbind option_bind].
  destruct (ra_resource (s_consumed sys)) as [p|].
  - destruct Hpc as [r Hr]. rewrite Hr. cbn [mbind option_bind].
    pose proof (proj1 (Forall_lookup _ _) Hres p r Hr) as [Hlow Hhigh].
    destruct (Z.leb_spec (ra_amount (s_consumed sys)) (r_amount r)).
    + eexists _, _. split; [reflexivity|]. split.
      * eapply (well_formed_update m _ s (converted sys) Hwf);
          cbn [resource_array system_array after_convert];
          [apply length_insert| |reflexivity|exact Hconv].
        apply Forall_insert; [exact Hres|].
        unfold resource_ok. cbn [r_amount r_max_capacity set_amount]. lia.
      * cbn [system_array after_convert]. apply length_insert.
    + eexists _, _. split; [reflexivity|]. split; [exact Hwf|reflexivity].
  - eexists _, _. split; [reflexivity|]. split.
    + eapply (well_formed_update m _ s (converted sys) Hwf);
        cbn [resource_array system_array after_convert];
        [reflexivity|exact Hres|reflexivity|exact Hconv].
    + cbn [system_array after_convert]. apply length_insert.
Qed.

Lemma system_store_resources_well_formed m s :
  well_formed m ->
  is_Some (system_array m !! s) ->
  exists status m',
    system_store_resources s m = Some (status, m')
    /\ well_formed m'
    /\ length (system_array m') = length (system_array m).
Proof.
  intros Hwf [sys Hs]. pose proof Hwf as [Hres Hsys].
  pose proof (proj1 (Forall_lookup _ _) Hsys s sys Hs)
    as Hok.
  pose proof Hok as (Hc & Hp & Hst & Hpc & Hpp).
  rewrite system_store_resources_eq, Hs. cbn [mbind option_bind].
  assert (Hempty : well_formed (after_store s sys 0 (resource_array m) m)).
  { eapply (well_formed_update m _ s (set_amount_stored 0 sys) Hwf);
      cbn [resource_array system_array after_store];
      [reflexivity|exact Hres|reflexivity|].
    apply system_ok_stored; [lia|exact Hok]. }
  destruct (ra_resource (s_produced sys)) as [p|].
  - destruct (s_amount_stored sys =? 0).
    { eexists _, _. split; [reflexivity|]. split; [exact Hempty|].
      cbn [system_array after_store]. apply length_insert. }
    destruct Hpp as [r Hr]. rewrite Hr. cbn [mbind option_bind]. cbv zeta.
    pose proof (proj1 (Forall_lookup _ _) Hres p r Hr) as [Hlow Hhigh].
    destruct (Z.leb_spec (s_amount_stored sys) (r_max_capacity r - r_amount r)).
    + eexists _, _. split; [reflexivity|]. split.
      * eapply (well_formed_update m _ s (set_amount_stored 0 sys) Hwf);
          cbn [resource_array system_array after_store];
          [apply length_insert| |reflexivity|].
        -- apply Forall_insert; [exact Hres|].
           unfold resource_ok. cbn [r_amount r_max_capacity set_amount]. lia.
        -- apply system_ok_stored; [lia|exact Hok].
      * cbn [system_array after_store]. apply length_insert.
    + destruct (Z.ltb_spec 0 (r_max_capacity r - r_amount r)).
      * eexists _, _. split; [reflexivity|]. split.
        -- eapply (well_formed_update m _ s _ Hwf);
             cbn [resource_array system_array after_store];
             [apply length_insert| |reflexivity|].
           ++ apply Forall_insert; [exact Hres|].
              unfold resource_ok. cbn [r_amount r_max_capacity set_amount]. lia.
           ++ apply system_ok_stored; [lia|exact Hok].
        -- cbn [system_array after_store]. apply length_insert.
      * eexists _, _. split; [reflexivity|]. split; [exact Hwf|reflexivity].
  - eexists _, _. split; [reflexivity|]. split; [exact Hempty|].
    cbn [system_array after_store]. apply length_insert.
Qed.



End Invariant.

(** ** Ranges of the stored integers *)

Section Ranges.

Variables PRIORITY_HIGH PRIORITY_LOW SYSTEM_WAIT_TIME : Z.

Implicit Types (m : Manager) (sys : System) (r : Resource) (s p : nat).

Lemma in_range_set_amount bound m p r amount :
  Forall (fun r => r_max_capacity r <= bound) (resource_array m) ->
  resource_array m !! p = Some r ->
  Forall (fun r => r_max_capacity r <= bound)
    (<[p := set_amount amount r]> (resource_array m)).
Proof.
  intros Hall Hr. apply Forall_insert; [exact Hall|].
  exact (proj1 (Forall_lookup _ _) Hall p r Hr).
Qed.

Lemma in_range_set_amount_stored bound m s sys stored resources :
  in_range bound m ->
  system_array m !! s = Some sys ->
  stored <= bound ->
  Forall (fun r => r_max_capacity r <= bound) resources ->
  Forall (fun sys => ra_amount (s_consumed sys) <= bound
                     /\ ra_amount (s_produced sys) <= bound
                     /\ s_amount_stored sys <= bound)
    (<[s := set_amount_stored stored sys]> (system_array m)).
Proof.
  intros [_ Hsys] Hs Hstored _. apply Forall_insert; [exact Hsys|].
  destruct (proj1 (Forall_lookup _ _) Hsys s sys Hs) as (Hc & Hp & _).
  repeat split; assumption.
Qed.

Lemma system_convert_in_range bound m s sys status m' :
  bound <= INT_MAX ->
  well_formed m ->
  in_range bound m ->
  system_array m !! s = Some sys ->
  s_amount_stored sys = 0 ->
  system_convert s m = Some (status, m') ->
  in_range bound m'.
Proof.
  intros Hbound [_ Hwf] Hrange Hs Hzero Hconv. pose proof Hrange as [Hres Hsys].
  destruct (proj1 (Forall_lookup _ _) Hwf s sys Hs) as (Hc0 & Hp0 & _).
  destruct (proj1 (Forall_lookup _ _) Hsys s sys Hs) as (Hc & Hp & _).
  assert (Hconverted :
            Forall (fun sys => ra_amount (s_consumed sys) <= bound
                               /\ ra_amount (s_produced sys) <= bound
                               /\ s_amount_stored sys <= bound)
              (<[s := converted sys]> (system_array m))).
  { unfold converted. rewrite Hzero, Z.add_0_l.
    rewrite wrap_int_small by (unfold INT_MIN; lia).
    destruct (ra_resource (s_produced sys));
      eapply in_range_set_amount_stored; try eassumption; lia. }
  rewrite system_convert_eq, Hs in Hconv. cbn [mbind option_bind] in Hconv.
  destruct (ra_resource (s_consumed sys)) as [p|].
  - destruct (resource_array m !! p) as [r|] eqn:Hr;
      cbn [mbind option_bind] in Hconv; [|discriminate].
    destruct (ra_amount (s_consumed sys) <=? r_amount r);
      injection Hconv as <- <-.
    + split; [|exact Hconverted].
      cbn [resource_array after_convert].
      eapply in_range_set_amount; eassumption.
    + exact Hrange.
  - injection Hconv as <- <-. split; [exact Hres|exact Hconverted].
Qed.

Lemma system_store_resources_in_range bound m s status m' :
  well_formed m ->
  in_range bound m ->
  system_store_resources s m = Some (status, m') ->
  in_range bound m'.
Proof.
  intros [_ Hwf] Hrange Hstore. pose proof Hrange as [Hres Hsys].
  rewrite system_store_resources_eq in Hstore.
  destruct (system_array m !! s) as [sys|] eqn:Hs;
    cbn [mbind option_bind] in Hstore; [|discriminate].
  destruct (proj1 (Forall_lookup _ _) Hwf s sys Hs) as (Hc0 & _ & Hst0 & _).
  destruct (proj1 (Forall_lookup _ _) Hsys s sys Hs) as (Hc & _ & Hst).
  assert (Hempty :
            Forall (fun sys => ra_amount (s_consumed sys) <= bound
                               /\ ra_amount (s_produced sys) <= bound
                               /\ s_amount_stored sys <= bound)
              (<[s := set_amount_stored 0 sys]> (system_array m))).
  { eapply in_range_set_amount_stored; try eassumption. lia. }
  destruct (ra_resource (s_produced sys)) as [p|].
  - destruct (s_amount_stored sys =? 0).
    { injection Hstore as <- <-. split; [exact Hres|exact Hempty]. }
    destruct (resource_array m !! p) as [r|] eqn:Hr;
      cbn [mbind option_bind] in Hstore; [|discriminate].
    cbv zeta in Hstore.
    destruct (s_amount_stored sys <=? r_max_capacity r - r_amount r).
    + injection Hstore as <- <-. split; [|exact Hempty].
      cbn [resource_array after_store]. eapply in_range_set_amount; eassumption.
    + destruct (Z.ltb_spec 0 (r_max_capacity r - r_amount r));
        injection Hstore as <- <-.
      * split.
        -- cbn [resource_array after_store].
           eapply in_range_set_amount; eassumption.
        -- cbn [system_array after_store].
           eapply in_range_set_amount_stored; try eassumption. lia.
      * exact Hrange.
  - injection Hstore as <- <-. split; [exact Hres|exact Hempty].
Qed.

(** A cycle on a well-formed state whose integers lie in [0, bound], with
    [bound] at most the largest [int], returns such a state: no value the
    cycle stores is out of the range of the C type. *)
Lemma system_run_in_range bound m s :
  bound <= INT_MAX ->
  well_formed m ->
  in_range bound m ->
  is_Some (system_array m !! s) ->
  exists m',
    system_run PRIORITY_HIGH PRIORITY_LOW SYSTEM_WAIT_TIME s m = Some (tt, m')
    /\ well_formed m'
    /\ in_range bound m'.
Proof.
  intros Hbound Hwf Hrange [sys Hs]. rewrite system_run_split.
  assert (Hfirst : exists m1,
             system_run_convert PRIORITY_HIGH SYSTEM_WAIT_TIME s m = Some (tt, m1)
             /\ well_formed m1 /\ in_range bound m1
             /\ length (system_array m1) = length (system_array m)).
  { destruct (decide (s_amount_stored sys = 0)) as [Hzero|Hnz].
    2:{ exists m. split; [eapply system_run_convert_skip; eassumption|auto]. }
    assert (Hfits : convert_fits (Convert s) m = true).
    { cbn [convert_fits]. rewrite Hs, Hzero. apply Z.leb_le.
      destruct Hrange as [_ Hsys].
      destruct (proj1 (Forall_lookup _ _) Hsys s sys Hs) as (_ & Hp & _). lia. }
    destruct (system_convert_well_formed m s Hwf (ex_intro _ sys Hs) Hfits)
      as (status & m1 & Hconv & Hwf1 & Hlen1).
    pose proof (system_convert_in_range bound m s sys status m1
                  Hbound Hwf Hrange Hs Hzero Hconv) as Hrange1.
    destruct (decide (status = STATUS_OK)) as [->|Hne].
    - exists m1. split; [eapply system_run_convert_done; eassumption|auto].
    - destruct (lookup_lt_is_Some_2 (system_array m1) s) as [sys1 Hs1].
      { rewrite Hlen1. eapply lookup_lt_Some; eassumption. }
      eexists. split; [eapply system_run_convert_report; eassumption|].
      repeat split; first [apply Hwf1 | apply Hrange1 | exact Hlen1]. }
  destruct Hfirst as (m1 & -> & Hwf1 & Hrange1 & Hlen1).
  destruct (lookup_lt_is_Some_2 (system_array m1) s) as [sys1 Hs1].
  { rewrite Hlen1. eapply lookup_lt_Some; eassumption. }
  destruct (Z.le_gt_cases (s_amount_stored sys1) 0) as [Hle|Hpos].
  { exists m1. split; [eapply system_run_store_skip; eassumption|auto]. }
  destruct (system_store_resources_well_formed m1 s Hwf1 (ex_intro _ sys1 Hs1))
    as (status & m2 & Hstore & Hwf2 & Hlen2).
  pose proof (system_store_resources_in_range bound m1 s status m2
                Hwf1 Hrange1 Hstore) as Hrange2.
  destruct (decide (status = STATUS_OK)) as [->|Hne].
  - exists m2. split; [eapply system_run_store_done; eassumption|auto].
  - destruct (lookup_lt_is_Some_2 (system_array m2) s) as [sys2 Hs2].
    { rewrite Hlen2. eapply lookup_lt_Some; eassumption. }
    eexists. split; [eapply system_run_store_report; eassumption|].
    repeat split; first [apply Hwf2 | apply Hrange2].
Qed.

End Ranges.

(** ** The coordinator *)

Section Coordinator.

Implicit Types (m : Manager) (sys : System) (r : Resource) (event : Event).

Lemma update_systems_terminate event_resource systems :
  update_systems TERMINATE event_resource systems
  = map (set_status TERMINATE) systems.
Proof.
  unfold update_systems. apply map_ext. intros sys.
  rewrite decide_True by (left; reflexivity). reflexivity.
Qed.

Lemma update_systems_retarget mode event_resource systems :
  mode <> TERMINATE ->
  update_systems mode event_resource systems
  = map (retarget mode event_resource) systems.
Proof.
  intros Hmode. unfold update_systems, retarget. apply map_ext. intros sys.
  destruct (decide (ra_resource (s_produced sys) = event_resource)) as [Heq|Hne].
  - rewrite decide_True by (right; exact Heq). reflexivity.
  - rewrite decide_False by (intros [?|?]; contradiction). reflexivity.
Qed.

Lemma terminal_event_flags status name :
  bool_decide (status = STATUS_EMPTY) && String.eqb name "Oxygen"
  || bool_decide (status = STATUS_CAPACITY) && String.eqb name "Distance"
  = true
  <-> terminal_event status name.
Proof.
  unfold terminal_event.
  rewrite orb_true_iff, !andb_true_iff, !bool_decide_eq_true, !String.eqb_eq.
  reflexivity.
Qed.

(** What one iteration of the loop does to the state, for an event whose
    unit and resource exist. *)
Lemma manager_handle_event_outcome m event status sys0 p r :
  system_array m !! e_system event = Some sys0 ->
  e_resource event = Some p ->
  resource_array m !! p = Some r ->
  exists status' m',
    manager_handle_event event status m = Some (status', m')
    /\ resource_array m' = resource_array m
    /\ event_queue m' = event_queue m
    /\ trace m' = trace m
    /\ (terminal_event (e_status event) (r_name r) ->
        simulation_running m' = 0
        /\ system_array m' = map (set_status TERMINATE) (system_array m))
    /\ (~ terminal_event (e_status event) (r_name r) ->
        e_status event = STATUS_LOW \/ e_status event = STATUS_EMPTY
        \/ e_status event = STATUS_INSUFFICIENT ->
        simulation_running m' = simulation_running m
        /\ system_array m'
           = map (retarget FAST (e_resource event)) (system_array m))
    /\ (~ terminal_event (e_status event) (r_name r) ->
        e_status event = STATUS_CAPACITY ->
        simulation_running m' = simulation_running m
        /\ system_array m'
           = map (retarget SLOW (e_resource event)) (system_array m))
    /\ (e_status event = STATUS_OK ->
        simulation_running m' = simulation_running m
        /\ system_array m' = system_array m).
Proof.
  intros Hs Hp Hr.
  unfold manager_handle_event, load_system, deref_resource, load_resource,
    mbind, M_bind.
  rewrite Hs, Hp, Hr. cbv zeta.
  pose proof (terminal_event_flags (e_status event) (r_name r)) as Hterm.
  destruct (bool_decide (e_status event = STATUS_EMPTY) && String.eqb (r_name r) "Oxygen"
            || bool_decide (e_status event = STATUS_CAPACITY)
               && String.eqb (r_name r) "Distance") eqn:Hflag.
  - (* terminal *)
    cbn [orb]. unfold stop_simulation, broadcast, mret, M_ret.
    eexists _, _. split; [reflexivity|].
    cbn [resource_array event_queue trace simulation_running system_array
         set_simulation_running set_system_array].
    rewrite update_systems_terminate.
    assert (Hyes : terminal_event (e_status event) (r_name r))
      by (apply Hterm; reflexivity).
    repeat split; try reflexivity; try (intros; contradiction).
    all: exfalso; destruct Hyes as [[Hst _]|[Hst _]]; congruence.
  - (* not terminal *)
    assert (Hno : ~ terminal_event (e_status event) (r_name r))
      by (intros Hyes; apply Hterm in Hyes; discriminate).
    cbn [orb].
    destruct (e_status event) eqn:Hst;
      cbn [bool_decide decide_rel Status_eq_dec orb andb] in *;
      unfold stop_simulation, broadcast, mret, M_ret;
      (eexists _, _; split; [reflexivity|]);
      cbn [resource_array event_queue trace simulation_running system_array
           set_simulation_running set_system_array];
      rewrite ?update_systems_retarget by discriminate;
      repeat split; try reflexivity; try (intros; contradiction);
      try (intros; discriminate);
      try (match goal with
           | H : _ \/ _ \/ _ |- _ => destruct H as [?|[?|?]]; discriminate
           end).
Qed.

Lemma manager_loop_step m event rest size fuel status :
  event_queue m = {| q_head := event :: rest; q_size := size |} ->
  manager_loop (S fuel) status m
  = match manager_handle_event event status
            (set_event_queue {| q_head := rest; q_size := size - 1 |} m) with
    | Some (status', m') => manager_loop fuel status' m'
    | None => None
    end.
Proof.
  intros Hq. cbn [manager_loop]. unfold mbind, M_bind, pop_event, event_queue_pop.
  rewrite Hq. reflexivity.
Qed.

Lemma event_ok_resized m m' event :
  length (system_array m') = length (system_array m) ->
  resource_array m' = resource_array m ->
  event_ok m event -> event_ok m' event.
Proof.
  intros Hlen Hres [Hsys Hptr]. split.
  - apply lookup_lt_is_Some. rewrite Hlen. apply lookup_lt_is_Some. exact Hsys.
  - rewrite Hres. exact Hptr.
Qed.

Lemma manager_loop_drains events :
  forall m size status fuel,
    event_queue m = {| q_head := events; q_size := size |} ->
    Forall (event_ok m) events ->
    (length events < fuel)%nat ->
    exists m',
      manager_loop fuel status m = Some (tt, m')
      /\ event_queue m'
         = {| q_head := []; q_size := size - Z.of_nat (length events) |}
      /\ resource_array m' = resource_array m
      /\ length (system_array m') = length (system_array m).
Proof.
  induction events as [|event rest IH]; intros m size status fuel Hq Hok Hfuel;
    (destruct fuel as [|fuel]; [cbn [length] in Hfuel; lia|]).
  - exists (set_event_queue (event_queue m) m).
    cbn [manager_loop]. unfold mbind, M_bind, pop_event, event_queue_pop.
    rewrite Hq. cbn [q_head]. repeat split.
    cbn [event_queue set_event_queue length]. f_equal. lia.
  - apply Forall_cons_1 in Hok as [[[sys0 Hs] (p & Hp & [r Hr])] Hrest].
    set (m0 := set_event_queue {| q_head := rest; q_size := size - 1 |} m).
    destruct (manager_handle_event_outcome m0 event status sys0 p r Hs Hp Hr)
      as (status' & m1 & Hhandle & Hres1 & Hq1 & _ & Hterm & Hmore & Hless & Hother).
    assert (Hstep : manager_loop (S fuel) status m = manager_loop fuel status' m1).
    { rewrite (manager_loop_step m event rest size fuel status Hq).
      fold m0. rewrite Hhandle. reflexivity. }
    change (resource_array m0) with (resource_array m) in Hres1.
    change (event_queue m0) with {| q_head := rest; q_size := size - 1 |} in Hq1.
    change (system_array m0) with (system_array m) in Hterm, Hmore, Hless, Hother.
    assert (Hlen1 : length (system_array m1) = length (system_array m)).
    { destruct (decide (terminal_event (e_status event) (r_name r))) as [Ht|Hnt].
      - destruct (Hterm Ht) as [_ ->]. apply length_map.
      - destruct (e_status event) eqn:Hst.
        + destruct Hother as [_ ->]; congruence.
        + destruct (Hmore Hnt) as [_ ->]; [auto|apply length_map].
        + destruct (Hmore Hnt) as [_ ->]; [auto|apply length_map].
        + destruct (Hmore Hnt) as [_ ->]; [auto|apply length_map].
        + destruct (Hless Hnt) as [_ ->]; [auto|apply length_map]. }
    destruct (IH m1 (size - 1) status' fuel Hq1) as (m' & Hloop & Hq' & Hres' & Hlen').
    { eapply Forall_impl; [exact Hrest|]. intros event'.
      apply event_ok_resized; assumption. }
    { cbn [length] in Hfuel. lia. }
    exists m'. rewrite Hstep. split; [exact Hloop|].
    split; [|split; congruence].
    rewrite Hq'. f_equal. cbn [length]. lia.
Qed.

(** A coordination pass over a queue of events whose units and resources
    exist returns with the queue drained; no resource is touched. *)
Lemma manager_run_drains m status0 :
  Forall (event_ok m) (q_head (event_queue m)) ->
  exists m',
    manager_run status0 m = Some (tt, m')
    /\ q_head (event_queue m') = []
    /\ resource_array m' = resource_array m
    /\ length (system_array m') = length (system_array m).
Proof.
  intros Hok.
  destruct (manager_loop_drains (q_head (event_queue m)) m
              (q_size (event_queue m)) status0
              (S (length (q_head (event_queue m)))))
    as (m' & Hloop & Hq & Hres & Hlen).
  - destruct (event_queue m); reflexivity.
  - exact Hok.
  - lia.
  - exists m'. split; [exact Hloop|]. rewrite Hq. auto.
Qed.

End Coordinator.

(** ** The scenarios of the specification, run *)

(** Each scenario runs one cycle of a unit and then one coordination pass,
    as the sequential driver of [main.c] does. *)

Example equal_priorities_pop_in_arrival_order :
  let e1 := event_init 0 (Some fuel) STATUS_LOW 2 1 in
  let e2 := event_init 1 (Some fuel) STATUS_LOW 2 2 in
  let e3 := event_init 2 (Some fuel) STATUS_LOW 2 3 in
  fst (pop_all 4 (push_all [e1; e2; e3])) = [e1; e2; e3].
Proof. reflexivity. Qed.

Example decreasing_priorities_pop_in_push_order :
  let e1 := event_init 0 (Some fuel) STATUS_EMPTY 3 1 in
  let e2 := event_init 1 (Some fuel) STATUS_LOW 2 2 in
  let e3 := event_init 2 (Some fuel) STATUS_CAPACITY 1 3 in
  fst (pop_all 4 (push_all [e1; e2; e3])) = [e1; e2; e3].
Proof. reflexivity. Qed.

Example mixed_priorities_pop_high_first :
  let a := event_init 0 (Some distance) STATUS_CAPACITY 1 25 in
  let b := event_init 1 (Some energy) STATUS_INSUFFICIENT 3 7 in
  let c := event_init 3 (Some energy) STATUS_CAPACITY 1 10 in
  let d := event_init 2 (Some oxygen) STATUS_EMPTY 3 1 in
  fst (pop_all 5 (push_all [a; b; c; d])) = [b; d; a; c].
Proof. reflexivity. Qed.

(** The generator reaches the retry state [energy_retry] from [load_data]
    with Energy at 45 of 50: its cycle stores 5 of the 10 it produced and
    reports CAPACITY with magnitude 10, the amount then buffered. *)
Example energy_retry_reached :
  exists m',
    system_run 3 1 100 generator_system (with_amount energy 45 load_data)
    = Some (tt, m')
    /\ resource_array m' !! energy = resource_array energy_retry !! energy
    /\ system_array m' !! generator_system
       = system_array energy_retry !! generator_system
    /\ pushed (trace m')
       = [event_init generator_system (Some energy) STATUS_CAPACITY 1 10].
Proof. eexists. split; [vm_compute; reflexivity|]. repeat split. Qed.

(** Oxygen at 0 of 50: the crew's convert reports EMPTY on Oxygen and the
    coordinator terminates every unit. *)
Example oxygen_empty_terminates :
  (system_run 3 1 100 crew_capsule_system;; manager_run STANDARD) oxygen_depleted
  = Some (tt, set_trace
                [Enters (Convert crew_capsule_system);
                 Pushes (event_init crew_capsule_system (Some oxygen)
                           STATUS_EMPTY 3 1);
                 Sleeps 100000]
                (set_simulation_running 0
                   (set_system_array
                      (map (set_status TERMINATE) (system_array oxygen_depleted))
                      oxygen_depleted))).
Proof. vm_compute. reflexivity. Qed.

(** Distance at 5000 of 5000 and 25 buffered by propulsion: the store
    reports CAPACITY on Distance and the coordinator terminates every
    unit. *)
Example distance_capacity_terminates :
  let m := with_buffer propulsion_system 25 (with_amount distance 5000 load_data) in
  exists m',
    (system_run 3 1 100 propulsion_system;; manager_run STANDARD) m = Some (tt, m')
    /\ pushed (trace m')
       = [event_init propulsion_system (Some distance) STATUS_CAPACITY 1 25]
    /\ simulation_running m' = 0
    /\ map s_status (system_array m') = [TERMINATE; TERMINATE; TERMINATE; TERMINATE].
Proof. eexists. split; [vm_compute; reflexivity|]. repeat split. Qed.

(** Energy at 5 of 50: life support, which needs 7, reports INSUFFICIENT and
    the coordinator sets the one producer of Energy, the generator, to
    FAST. *)
Example energy_insufficient_speeds_up_producers :
  let m := with_amount energy 5 load_data in
  exists m',
    (system_run 3 1 100 life_support_system;; manager_run STANDARD) m = Some (tt, m')
    /\ pushed (trace m')
       = [event_init life_support_system (Some energy) STATUS_INSUFFICIENT 3 7]
    /\ simulation_running m' = 1
    /\ resource_array m' = resource_array m
    /\ map s_status (system_array m') = [STANDARD; STANDARD; STANDARD; FAST].
Proof. eexists. split; [vm_compute; reflexivity|]. repeat split. Qed.

(** A buffer below 0 is stored as it is: with -1 buffered by propulsion
    the store takes Distance from 0 to -1.  The buffers of a well-formed
    state are non-negative. *)
Example negative_buffer_is_stored :
  exists m',
    system_store_resources propulsion_system
      (with_buffer propulsion_system (-1) load_data) = Some (STATUS_OK, m')
    /\ r_amount <$> resource_array m' !! distance = Some (-1).
Proof. eexists. split; [vm_compute; reflexivity|]. reflexivity. Qed.

(** A processing time of 5000000 ms: the product with 1000 does not fit
    an [int], and [usleep] receives what 32 bits keep of it. *)
Example long_pause_wraps :
  let sys := system_create "Crew" (resource_amount_init (Some oxygen) 1)
               (resource_amount_init None 0) 5000000 STANDARD in
  let m := set_system_array (<[crew_capsule_system := sys]> (system_array load_data))
             load_data in
  exists m',
    system_convert crew_capsule_system m = Some (STATUS_OK, m')
    /\ trace m' = [Enters (Convert crew_capsule_system); Sleeps 705032704].
Proof. eexists. split; [vm_compute; reflexivity|]. reflexivity. Qed.

(** ** The properties on the configuration of [load_data] *)

Lemma load_data_well_formed : well_formed load_data.
Proof.
  split.
  - repeat constructor; cbn; lia.
  - repeat constructor; cbn; try lia; eexists; reflexivity.
Defined.



Lemma system_convert_outcome_witness :
  exists status m',
    system_convert propulsion_system load_data = Some (status, m')
    /\ (1000 = 0 -> status = STATUS_EMPTY)
    /\ (1 <= 1000 <= 5 - 1 -> status = STATUS_INSUFFICIENT)
    /\ (5 <= 1000 ->
        status = STATUS_OK
        /\ resource_array m' !! fuel
           = Some (set_amount (1000 - 5) (resource_create "Fuel" 1000 1000))).
Proof.
  exact (system_convert_outcome load_data propulsion_system _ fuel
           (resource_create "Fuel" 1000 1000) eq_refl eq_refl eq_refl eq_refl).
Defined.


Lemma system_run_capacity_event_witness :
  system_run 3 1 100 generator_system energy_retry
  = Some (tt, after_report
                (event_init generator_system (Some energy) STATUS_CAPACITY 1 10)
                100 (record (Enters (Store generator_system)) energy_retry)).
Proof.
  apply (system_run_capacity_event 3 1 100 energy_retry generator_system
           _ energy_retry _ (record (Enters (Store generator_system)) energy_retry)
           eq_refl eq_refl eq_refl eq_refl eq_refl).
Defined.

(** The specification's reading of C6 fails on a retry: the generator
    holds 5 back, the Energy store is full, and the event of the cycle
    carries the produced amount 10. *)
Lemma capacity_event_magnitude_counterexample :
  ~ capacity_event_reports_buffer 3 1 100 generator_system energy_retry
  /\ exists sys m',
       system_array energy_retry !! generator_system = Some sys
       /\ s_amount_stored sys = 5
       /\ system_run 3 1 100 generator_system energy_retry = Some (tt, m')
       /\ pushed (trace m')
          = [event_init generator_system (Some energy) STATUS_CAPACITY 1 10].
Proof.
  split.
  - intros Hclaim.
    destruct (Hclaim energy_retry _ _ _ eq_refl eq_refl eq_refl eq_refl eq_refl)
      as (event & Hqueue & _ & _ & Hamount).
    vm_compute in Hqueue. injection Hqueue as <-.
    vm_compute in Hamount. discriminate Hamount.
  - eexists _, _. split; [reflexivity|]. split; [reflexivity|].
    split; [vm_compute; reflexivity|reflexivity].
Qed.

Lemma system_run_disabled_as_standard_witness :
  system_run 3 1 100 propulsion_system
    (set_mode propulsion_system STANDARD propulsion_disabled)
  = on_state (set_mode propulsion_system STANDARD)
      (system_run 3 1 100 propulsion_system propulsion_disabled).
Proof.
  apply (system_run_disabled_as_standard 3 1 100 propulsion_disabled
           propulsion_system _ eq_refl eq_refl).
Defined.

(** The specification's reading of C7 fails: the cycle of the DISABLED
    propulsion unit enters the convert and the store operation and turns 5
    Fuel into 25 Distance. *)
Lemma disabled_cycle_counterexample :
  ~ disabled_cycle_idle 3 1 100 propulsion_system propulsion_disabled
  /\ exists m',
       system_run 3 1 100 propulsion_system propulsion_disabled = Some (tt, m')
       /\ entered (trace m') = [Convert propulsion_system; Store propulsion_system]
       /\ r_amount <$> resource_array propulsion_disabled !! fuel = Some 1000
       /\ r_amount <$> resource_array m' !! fuel = Some 995
       /\ r_amount <$> resource_array propulsion_disabled !! distance = Some 0
       /\ r_amount <$> resource_array m' !! distance = Some 25.
Proof.
  split.
  - intros Hclaim.
    destruct (Hclaim _ _ eq_refl eq_refl eq_refl) as (Hentered & _).
    vm_compute in Hentered. discriminate Hentered.
  - eexists. split; [vm_compute; reflexivity|]. repeat split.
Qed.

Lemma system_run_at_most_one_event_witness :
  exists m' effects,
    system_run 3 1 100 propulsion_system load_data = Some (tt, m')
    /\ trace m' = trace load_data ++ effects
    /\ event_queue m'
       = fold_left event_queue_push (pushed effects) (event_queue load_data)
    /\ (length (pushed effects) <= 1)%nat.
Proof.
  apply (system_run_at_most_one_event 3 1 100 load_data propulsion_system _ eq_refl).
  - eexists; reflexivity.
  - eexists; reflexivity.
Defined.

Lemma system_run_failed_convert_frame_witness :
  let event := event_init crew_capsule_system (Some oxygen) STATUS_EMPTY 3 1 in
  exists m',
    system_run 3 1 100 crew_capsule_system oxygen_depleted = Some (tt, m')
    /\ resource_array m' = resource_array oxygen_depleted
    /\ system_array m' = system_array oxygen_depleted
    /\ trace m' = trace oxygen_depleted
                  ++ [Enters (Convert crew_capsule_system); Pushes event;
                      Sleeps (100 * 1000)]
    /\ event_queue m' = event_queue_push (event_queue oxygen_depleted) event.
Proof.
  apply (system_run_failed_convert_frame 3 1 100 oxygen_depleted
           crew_capsule_system _ STATUS_EMPTY
           (record (Enters (Convert crew_capsule_system)) oxygen_depleted)
           eq_refl eq_refl eq_refl).
  left. reflexivity.
Defined.

(** * Further properties of the code *)

(** ** Event queue: pushes and pops in any order *)

Section Mailbox.

Implicit Types (event node : Event) (pending events : list Event)
  (queue : EventQueue).

Lemma push_traverse_position event current :
  exists before after,
    current = before ++ after
    /\ push_traverse event current = before ++ event :: after
    /\ Forall (fun node => e_priority event <= e_priority node) before
    /\ match after with
       | [] => True
       | node :: _ => e_priority node < e_priority event
       end.
Proof.
  induction current as [|node next (before & after & Hcur & Hpush & Hbefore & Hafter)];
    cbn [push_traverse].
  - exists [], []. repeat split. constructor.
  - destruct (Z.leb_spec (e_priority event) (e_priority node)) as [Hle|Hgt].
    + exists (node :: before), after. rewrite Hcur at 1. rewrite Hpush.
      repeat split; [constructor; assumption|exact Hafter].
    + exists [], (node :: next). repeat split; [constructor|exact Hgt].
Qed.

(** X1. Whatever the queue holds, a push links the new event behind the
    longest front stretch of events whose priority is at least its own and
    directly in front of the first event of lower priority; the events
    already queued keep their order, and the counter grows by one. *)
Theorem event_queue_push_position queue event :
  exists before after,
    q_head queue = before ++ after
    /\ q_head (event_queue_push queue event) = before ++ event :: after
    /\ Forall (fun node => e_priority event <= e_priority node) before
    /\ match after with
       | [] => True
       | node :: _ => e_priority node < e_priority event
       end
    /\ q_size (event_queue_push queue event) = q_size queue + 1.
Proof.
  destruct (push_traverse_position event (q_head queue))
    as (before & after & Hcur & Hpush & Hbefore & Hafter).
  exists before, after. rewrite event_queue_push_head.
  repeat split; assumption.
Qed.

Lemma represents_init : represents event_queue_init [].
Proof. repeat split. constructor. Qed.

(** X2. A push onto a queue that holds the pending events in priority and
    arrival order gives a queue that holds them with the new event as the
    latest arrival. *)
Theorem event_queue_push_represents queue pending event :
  represents queue pending ->
  represents (event_queue_push queue event) (pending ++ [event]).
Proof.
  intros (Hsorted & Hclasses & Hsize). unfold represents.
  rewrite event_queue_push_head, event_queue_push_size.
  split; [apply push_traverse_sorted; exact Hsorted|]. split.
  - intros p. rewrite push_traverse_with_priority by exact Hsorted.
    rewrite Hclasses. unfold with_priority. rewrite filter_app. reflexivity.
  - rewrite length_app, Hsize. cbn [length]. lia.
Qed.

Lemma with_priority_elem_of p events event :
  event ∈ with_priority p events <-> e_priority event = p /\ event ∈ events.
Proof.
  unfold with_priority.
  exact (list_elem_of_filter (fun e => e_priority e = p) events event).
Qed.

(** The first event of a priority class splits the list it was filtered
    from. *)
Lemma with_priority_first p events event rest :
  with_priority p events = event :: rest ->
  exists older newer,
    events = older ++ event :: newer
    /\ Forall (fun e => e_priority e <> p) older
    /\ with_priority p newer = rest.
Proof.
  unfold with_priority.
  induction events as [|e events IH]; intros Hfilter.
  - rewrite filter_nil in Hfilter. discriminate.
  - rewrite filter_cons in Hfilter.
    destruct (decide (e_priority e = p)) as [Heq|Hne].
    + injection Hfilter as -> Hrest. exists [], events. repeat split; [constructor|exact Hrest].
    + destruct (IH Hfilter) as (older & newer & -> & Holder & Hnewer).
      exists (e :: older), newer. repeat split; [constructor; assumption|exact Hnewer].
Qed.

(** X3. A pop from a queue that holds the pending events reports empty
    exactly when nothing is pending and then leaves the queue as it is;
    otherwise it returns the oldest of the pending events of the highest
    priority, and the queue holds the other pending events. *)
Theorem event_queue_pop_oldest_highest queue pending :
  represents queue pending ->
  (pending = [] /\ event_queue_pop queue = (0, None, queue))
  \/ exists event older newer queue',
       event_queue_pop queue = (1, Some event, queue')
       /\ pending = older ++ event :: newer
       /\ Forall (fun e => e_priority e < e_priority event) older
       /\ Forall (fun e => e_priority e <= e_priority event) newer
       /\ represents queue' (older ++ newer).
Proof.
  intros (Hsorted & Hclasses & Hsize).
  destruct queue as [head size]. cbn [q_head q_size] in *.
  destruct head as [|event next].
  - left. split; [|reflexivity].
    destruct pending as [|e pending]; [reflexivity|].
    specialize (Hclasses (e_priority e)).
    unfold with_priority in Hclasses.
    rewrite filter_nil, filter_cons_True in Hclasses by reflexivity. discriminate.
  - right.
    apply StronglySorted_inv in Hsorted as [Hnext Hmax].
    assert (Hfirst : with_priority (e_priority event) pending
                     = event :: with_priority (e_priority event) next).
    { rewrite <- Hclasses. unfold with_priority.
      rewrite filter_cons_True by reflexivity. reflexivity. }
    destruct (with_priority_first _ _ _ _ Hfirst)
      as (older & newer & -> & Holder & Hnewer).
    assert (Hbound : forall e, e ∈ older ++ event :: newer ->
                               e_priority e <= e_priority event).
    { intros e He.
      assert (Hin : e ∈ with_priority (e_priority e) (event :: next)).
      { rewrite Hclasses. apply with_priority_elem_of. split; [reflexivity|exact He]. }
      apply with_priority_elem_of in Hin as [_ Hin].
      apply elem_of_cons in Hin as [->|Hin]; [lia|].
      rewrite Forall_forall in Hmax. apply (Hmax e). exact Hin. }
    exists event, older, newer, {| q_head := next; q_size := size - 1 |}.
    split; [reflexivity|]. split; [reflexivity|]. split; [|split].
    + rewrite Forall_forall in Holder |- *. intros e He.
      specialize (Holder e He).
      assert (e_priority e <= e_priority event)
        by (apply Hbound; apply elem_of_app; left; exact He).
      lia.
    + rewrite Forall_forall. intros e He.
      apply Hbound. apply elem_of_app. right. apply elem_of_cons. right. exact He.
    + split; [exact Hnext|]. split.
      * intros p. specialize (Hclasses p). unfold with_priority in *.
        rewrite !filter_app in Hclasses. rewrite filter_app.
        destruct (decide (e_priority event = p)) as [Heq|Hne].
        -- subst p.
           assert (Hnone : filter (fun e => e_priority e = e_priority event) older = []).
           { apply (with_priority_none (e_priority event) older). exact Holder. }
           rewrite Hnone in Hclasses |- *.
           rewrite !filter_cons_True in Hclasses by reflexivity.
           cbn [app] in *. injection Hclasses as Hc. exact Hc.
        -- rewrite !filter_cons_False in Hclasses by exact Hne. exact Hclasses.
      * cbn [q_size]. rewrite Hsize, !length_app. cbn [length]. lia.
Qed.

End Mailbox.

(** ** Unit operations: what they leave alone *)

Section Frames.

Implicit Types (m : Manager) (sys : System) (r : Resource) (s p : nat).

Lemma set_amount_stored_same sys :
  set_amount_stored (s_amount_stored sys) sys = sys.
Proof. destruct sys; reflexivity. Qed.

Lemma fixed_part_set_amount (resources : list Resource) p r amount :
  resources !! p = Some r ->
  fixed_part <$> <[p := set_amount amount r]> resources = fixed_part <$> resources.
Proof.
  intros Hr. rewrite list_fmap_insert. apply list_insert_id.
  rewrite list_lookup_fmap, Hr. reflexivity.
Qed.

Lemma system_convert_effect m s status m' :
  system_convert s m = Some (status, m') ->
  unit_step s m m'
  /\ event_queue m' = event_queue m
  /\ (exists effects, trace m' = trace m ++ effects /\ pushed effects = [])
  /\ (status <> STATUS_OK ->
      resource_array m' = resource_array m
      /\ system_array m' = system_array m
      /\ (status = STATUS_EMPTY \/ status = STATUS_INSUFFICIENT)
      /\ exists sys p r,
           system_array m !! s = Some sys
           /\ ra_resource (s_consumed sys) = Some p
           /\ resource_array m !! p = Some r
           /\ r_amount r < ra_amount (s_consumed sys)).
Proof.
  rewrite system_convert_eq.
  destruct (system_array m !! s) as [sys|] eqn:Hs;
    cbn [mbind option_bind]; [|discriminate].
  assert (Hok : forall resources,
             fixed_part <$> resources = fixed_part <$> resource_array m ->
             (forall q, ra_resource (s_consumed sys) <> Some q ->
                        resources !! q = resource_array m !! q) ->
             unit_step s m (after_convert s sys resources m)
             /\ event_queue (after_convert s sys resources m) = event_queue m
             /\ exists effects,
                  trace (after_convert s sys resources m) = trace m ++ effects
                  /\ pushed effects = []).
  { intros resources Hfixed Hother. split; [|split].
    - split; [reflexivity|]. split; [exact Hfixed|].
      exists sys. unfold after_convert, converted.
      cbn [system_array resource_array].
      destruct (ra_resource (s_produced sys)); eexists;
        (split; [first [exact Hs|reflexivity]|]); (split; [reflexivity|]); intros q Hq _; auto.
    - reflexivity.
    - eexists. split; reflexivity. }
  destruct (ra_resource (s_consumed sys)) as [p|] eqn:Hp.
  - destruct (resource_array m !! p) as [r|] eqn:Hr;
      cbn [mbind option_bind]; [|discriminate].
    destruct (Z.leb_spec (ra_amount (s_consumed sys)) (r_amount r)) as [Hle|Hlt];
      intros [= <- <-].
    + destruct (Hok (<[p := set_amount (r_amount r - ra_amount (s_consumed sys)) r]>
                       (resource_array m))) as (Hstep & Hqueue & Htrace).
      * apply fixed_part_set_amount. exact Hr.
      * intros q Hq. apply list_lookup_insert_ne. congruence.
      * split; [exact Hstep|]. split; [exact Hqueue|]. split; [exact Htrace|].
        intros Hne. contradiction.
    + split; [|split; [reflexivity|split]].
      * split; [reflexivity|]. split; [reflexivity|].
        exists sys, (s_amount_stored sys). split; [first [exact Hs|reflexivity]|]. split; [|reflexivity].
        rewrite set_amount_stored_same. symmetry. apply list_insert_id. exact Hs.
      * eexists. split; reflexivity.
      * intros _. split; [reflexivity|]. split; [reflexivity|]. split.
        -- destruct (r_amount r =? 0); auto.
        -- exists sys, p, r. auto.
  - intros [= <- <-].
    destruct (Hok (resource_array m)) as (Hstep & Hqueue & Htrace);
      [reflexivity|reflexivity|].
    split; [exact Hstep|]. split; [exact Hqueue|]. split; [exact Htrace|].
        intros Hne. contradiction.
Qed.

Lemma system_store_resources_effect m s status m' :
  system_store_resources s m = Some (status, m') ->
  unit_step s m m'
  /\ event_queue m' = event_queue m
  /\ (exists effects, trace m' = trace m ++ effects /\ pushed effects = [])
  /\ exists sys stored,
       system_array m !! s = Some sys
       /\ system_array m' !! s = Some (set_amount_stored stored sys)
       /\ (status = STATUS_OK <-> stored = 0)
       /\ (status = STATUS_OK \/ status = STATUS_CAPACITY)
       /\ match ra_resource (s_produced sys) with
          | None => stored = 0 /\ resource_array m' = resource_array m
          | Some p =>
              forall r, resource_array m !! p = Some r ->
                resource_array m' !! p
                = Some (set_amount (r_amount r + s_amount_stored sys - stored) r)
          end.
Proof.
  rewrite system_store_resources_eq.
  destruct (system_array m !! s) as [sys|] eqn:Hs;
    cbn [mbind option_bind]; [|discriminate].
  assert (Hsl : (s < length (system_array m))%nat)
    by (eapply lookup_lt_Some; exact Hs).
  assert (Hok : forall stored resources,
             fixed_part <$> resources = fixed_part <$> resource_array m ->
             (forall q, ra_resource (s_produced sys) <> Some q ->
                        resources !! q = resource_array m !! q) ->
             unit_step s m (after_store s sys stored resources m)
             /\ event_queue (after_store s sys stored resources m) = event_queue m
             /\ exists effects,
                  trace (after_store s sys stored resources m) = trace m ++ effects
                  /\ pushed effects = []).
  { intros stored resources Hfixed Hother. split; [|split].
    - split; [reflexivity|]. split; [exact Hfixed|].
      exists sys, stored. split; [first [exact Hs|reflexivity]|]. split; [reflexivity|].
      intros q _ Hq. auto.
    - reflexivity.
    - eexists. split; reflexivity. }
  assert (Hzero : forall r : Resource,
             set_amount (r_amount r + s_amount_stored sys - s_amount_stored sys) r = r).
  { intros [name amount cap]. unfold set_amount. cbn. f_equal. lia. }
  destruct (ra_resource (s_produced sys)) as [p|] eqn:Hp.
  - destruct (Z.eqb_spec (s_amount_stored sys) 0) as [Hempty|Hnz].
    { intros [= <- <-].
      destruct (Hok 0 (resource_array m)) as (Hstep & Hqueue & Htrace);
        [reflexivity|reflexivity|].
      split; [exact Hstep|]. split; [exact Hqueue|]. split; [exact Htrace|].
      exists sys, 0.
      split; [first [exact Hs|reflexivity]|]. split.
      { cbn [system_array after_store]. apply list_lookup_insert_eq. exact Hsl. }
      split; [tauto|]. split; [auto|].
      rewrite Hp. intros r Hr. cbn [resource_array after_store]. rewrite Hr, Hempty.
      f_equal. destruct r as [name amount cap]. unfold set_amount. cbn. f_equal. lia. }
    destruct (resource_array m !! p) as [r|] eqn:Hr;
      cbn [mbind option_bind]; [|discriminate].
    assert (Hpl : (p < length (resource_array m))%nat)
      by (eapply lookup_lt_Some; exact Hr).
    cbv zeta.
    destruct (Z.leb_spec (s_amount_stored sys) (r_max_capacity r - r_amount r)).
    + intros [= <- <-].
      destruct (Hok 0 (<[p := set_amount (r_amount r + s_amount_stored sys) r]>
                         (resource_array m))) as (Hstep & Hqueue & Htrace).
      * apply fixed_part_set_amount. exact Hr.
      * intros q Hq. apply list_lookup_insert_ne. congruence.
      * split; [exact Hstep|]. split; [exact Hqueue|]. split; [exact Htrace|].
      exists sys, 0.
        split; [first [exact Hs|reflexivity]|]. split.
        { cbn [system_array after_store]. apply list_lookup_insert_eq. exact Hsl. }
        split; [tauto|]. split; [auto|].
        rewrite Hp. intros r0 Hr0. assert (r0 = r) by congruence. subst r0.
        cbn [resource_array after_store].
        rewrite list_lookup_insert_eq by exact Hpl. do 2 f_equal. lia.
    + destruct (Z.ltb_spec 0 (r_max_capacity r - r_amount r)); intros [= <- <-].
      * destruct (Hok (s_amount_stored sys - (r_max_capacity r - r_amount r))
                    (<[p := set_amount (r_amount r + (r_max_capacity r - r_amount r)) r]>
                       (resource_array m))) as (Hstep & Hqueue & Htrace).
        -- apply fixed_part_set_amount. exact Hr.
        -- intros q Hq. apply list_lookup_insert_ne. congruence.
        -- split; [exact Hstep|]. split; [exact Hqueue|]. split; [exact Htrace|].
           eexists sys, _.
           split; [first [exact Hs|reflexivity]|]. split.
           { cbn [system_array after_store]. apply list_lookup_insert_eq. exact Hsl. }
           split; [split; [discriminate|lia]|]. split; [auto|].
           rewrite Hp. intros r0 Hr0. assert (r0 = r) by congruence. subst r0.
           cbn [resource_array after_store].
           rewrite list_lookup_insert_eq by exact Hpl. do 2 f_equal. lia.
      * split; [|split; [reflexivity|split]].
        -- split; [reflexivity|]. split; [reflexivity|].
           exists sys, (s_amount_stored sys). split; [first [exact Hs|reflexivity]|]. split; [|reflexivity].
           rewrite set_amount_stored_same. symmetry. apply list_insert_id. exact Hs.
        -- eexists. split; reflexivity.
        -- exists sys, (s_amount_stored sys). split; [first [exact Hs|reflexivity]|].
           rewrite set_amount_stored_same. split; [first [exact Hs|reflexivity]|].
           split; [split; [discriminate|contradiction]|]. split; [auto|].
           rewrite Hp. intros r0 Hr0. cbn [resource_array record set_trace].
           rewrite Hr0, Hzero. reflexivity.
  - intros [= <- <-].
    destruct (Hok 0 (resource_array m)) as (Hstep & Hqueue & Htrace);
      [reflexivity|reflexivity|].
    split; [exact Hstep|]. split; [exact Hqueue|]. split; [exact Htrace|].
      exists sys, 0.
    split; [first [exact Hs|reflexivity]|]. split.
    { cbn [system_array after_store]. apply list_lookup_insert_eq. exact Hsl. }
    split; [tauto|]. split; [auto|]. rewrite Hp. split; reflexivity.
Qed.

(** X4. In a store attempt that returns, what leaves the buffer enters
    the resource: the amount of the produced resource grows by exactly what
    the buffer loses, and a unit that produces nothing just drops its
    buffer and writes no resource. The status is OK exactly when the buffer
    is empty afterwards, and CAPACITY otherwise. *)
Theorem system_store_resources_conserves m s status m' :
  system_store_resources s m = Some (status, m') ->
  exists sys stored,
    system_array m !! s = Some sys
    /\ system_array m' !! s = Some (set_amount_stored stored sys)
    /\ (status = STATUS_OK <-> stored = 0)
    /\ (status = STATUS_OK \/ status = STATUS_CAPACITY)
    /\ match ra_resource (s_produced sys) with
       | None => stored = 0 /\ resource_array m' = resource_array m
       | Some p =>
           forall r, resource_array m !! p = Some r ->
             resource_array m' !! p
             = Some (set_amount (r_amount r + s_amount_stored sys - stored) r)
       end.
Proof.
  intros Hstore.
  destruct (system_store_resources_effect m s status m' Hstore)
    as (_ & _ & _ & sys & stored & Hconserved).
  exists sys, stored. exact Hconserved.
Qed.

End Frames.

(** ** The cycle: what it leaves alone and what it reports *)

Section CycleFrames.

Variables PRIORITY_HIGH PRIORITY_LOW SYSTEM_WAIT_TIME : Z.

Implicit Types (m : Manager) (sys : System) (r : Resource) (s p : nat).

Local Abbreviation run_convert := (system_run_convert PRIORITY_HIGH SYSTEM_WAIT_TIME).
Local Abbreviation run_store := (system_run_store PRIORITY_LOW SYSTEM_WAIT_TIME).
Local Abbreviation run := (system_run PRIORITY_HIGH PRIORITY_LOW SYSTEM_WAIT_TIME).

Lemma system_run_convert_cases m s m1 :
  run_convert s m = Some (tt, m1) ->
  exists sys,
    system_array m !! s = Some sys
    /\ ((s_amount_stored sys <> 0 /\ m1 = m)
        \/ (s_amount_stored sys = 0 /\ system_convert s m = Some (STATUS_OK, m1))
        \/ (s_amount_stored sys = 0
            /\ exists status mc sys1,
                 status <> STATUS_OK
                 /\ system_convert s m = Some (status, mc)
                 /\ system_array mc !! s = Some sys1
                 /\ m1 = after_report
                           (event_init s (ra_resource (s_consumed sys1)) status
                              PRIORITY_HIGH (ra_amount (s_consumed sys1)))
                           SYSTEM_WAIT_TIME mc)).
Proof.
  unfold system_run_convert, load_system, mbind, M_bind.
  destruct (system_array m !! s) as [sys|] eqn:Hs; [|discriminate].
  intros Hrun. exists sys. split; [reflexivity|].
  destruct (Z.eqb_spec (s_amount_stored sys) 0) as [Hzero|Hnz].
  2:{ left. split; [exact Hnz|]. injection Hrun as <-. reflexivity. }
  right. destruct (system_convert s m) as [[status mc]|]; [|discriminate].
  destruct (decide (status <> STATUS_OK)) as [Hne|Heq].
  - right. split; [exact Hzero|].
    destruct (system_array mc !! s) as [sys1|] eqn:Hs1; [|discriminate].
    exists status, mc, sys1. repeat split; try assumption.
    unfold push_event, usleep in Hrun. injection Hrun as <-. same_state.
  - left. split; [exact Hzero|].
    destruct (decide (status = STATUS_OK)) as [->|Hne]; [|contradiction].
    injection Hrun as <-. reflexivity.
Qed.

Lemma system_run_store_cases m s m2 :
  run_store s m = Some (tt, m2) ->
  exists sys,
    system_array m !! s = Some sys
    /\ ((s_amount_stored sys <= 0 /\ m2 = m)
        \/ (0 < s_amount_stored sys
            /\ system_store_resources s m = Some (STATUS_OK, m2))
        \/ (0 < s_amount_stored sys
            /\ exists status mc sys1,
                 status <> STATUS_OK
                 /\ system_store_resources s m = Some (status, mc)
                 /\ system_array mc !! s = Some sys1
                 /\ m2 = after_report
                           (event_init s (ra_resource (s_produced sys1)) status
                              PRIORITY_LOW (ra_amount (s_produced sys1)))
                           SYSTEM_WAIT_TIME mc)).
Proof.
  unfold system_run_store, load_system, mbind, M_bind.
  destruct (system_array m !! s) as [sys|] eqn:Hs; [|discriminate].
  intros Hrun. exists sys. split; [reflexivity|].
  destruct (Z.ltb_spec 0 (s_amount_stored sys)) as [Hpos|Hle].
  2:{ left. split; [exact Hle|]. injection Hrun as <-. reflexivity. }
  right. destruct (system_store_resources s m) as [[status mc]|]; [|discriminate].
  destruct (decide (status <> STATUS_OK)) as [Hne|Heq].
  - right. split; [exact Hpos|].
    destruct (system_array mc !! s) as [sys1|] eqn:Hs1; [|discriminate].
    exists status, mc, sys1. repeat split; try assumption.
    unfold push_event, usleep in Hrun. injection Hrun as <-. same_state.
  - left. split; [exact Hpos|].
    destruct (decide (status = STATUS_OK)) as [->|Hne]; [|contradiction].
    injection Hrun as <-. reflexivity.
Qed.

Lemma unit_step_refl m s :
  is_Some (system_array m !! s) -> unit_step s m m.
Proof.
  intros [sys Hs]. split; [reflexivity|]. split; [reflexivity|].
  exists sys, (s_amount_stored sys). split; [exact Hs|]. split; [|reflexivity].
  rewrite set_amount_stored_same. symmetry. apply list_insert_id. exact Hs.
Qed.

Lemma unit_step_trans m m1 m2 s :
  unit_step s m m1 -> unit_step s m1 m2 -> unit_step s m m2.
Proof.
  intros (Hrun1 & Hfixed1 & sys & stored1 & Hs & Harr1 & Hres1)
         (Hrun2 & Hfixed2 & sys1 & stored2 & Hs1 & Harr2 & Hres2).
  assert (sys1 = set_amount_stored stored1 sys) as ->.
  { rewrite Harr1, list_lookup_insert_eq in Hs1
      by (eapply lookup_lt_Some; exact Hs).
    congruence. }
  split; [congruence|]. split; [congruence|].
  exists sys, stored2. split; [exact Hs|]. split.
  - rewrite Harr2, Harr1, list_insert_insert_eq. reflexivity.
  - intros q Hc Hp. rewrite Hres2 by assumption. apply Hres1; assumption.
Qed.

Lemma unit_step_report m s event wait :
  is_Some (system_array m !! s) ->
  unit_step s m (after_report event wait m).
Proof. apply unit_step_refl. Qed.

Lemma unit_step_lookup m m' s :
  unit_step s m m' ->
  exists sys stored,
    system_array m !! s = Some sys
    /\ system_array m' !! s = Some (set_amount_stored stored sys)
    /\ length (system_array m') = length (system_array m)
    /\ length (resource_array m') = length (resource_array m).
Proof.
  intros (_ & Hfixed & sys & stored & Hs & Harr & _).
  exists sys, stored. split; [exact Hs|]. rewrite Harr. split; [|split].
  - apply list_lookup_insert_eq. eapply lookup_lt_Some; exact Hs.
  - apply length_insert.
  - apply (f_equal length) in Hfixed. rewrite !length_fmap in Hfixed. exact Hfixed.
Qed.

(** X5. A cycle that returns changes nothing but the unit's own buffer,
    the amounts of the two resources the unit names, the event queue and
    the trace: it never writes [simulation_running], another unit, a run
    mode (its own included), a rule, a name or a capacity. *)
Theorem system_run_frame m s m' :
  run s m = Some (tt, m') ->
  unit_step s m m'.
Proof.
  rewrite system_run_split.
  destruct (run_convert s m) as [[[] m1]|] eqn:Hrun1; [|discriminate].
  intros Hrun2.
  assert (Hstep1 : unit_step s m m1).
  { destruct (system_run_convert_cases m s m1 Hrun1)
      as (sys & Hs & [[_ ->]|[[_ Hconv]|(_ & status & mc & sys1 & _ & Hconv & Hs1 & ->)]]).
    - apply unit_step_refl. eauto.
    - apply (system_convert_effect m s _ _ Hconv).
    - eapply unit_step_trans; [apply (system_convert_effect m s _ _ Hconv)|].
      apply unit_step_report. eauto. }
  eapply unit_step_trans; [exact Hstep1|].
  destruct (system_run_store_cases m1 s m' Hrun2)
    as (sys & Hs & [[_ ->]|[[_ Hstore]|(_ & status & mc & sys1 & _ & Hstore & Hs1 & ->)]]).
  - apply unit_step_refl. eauto.
  - apply (system_store_resources_effect m1 s _ _ Hstore).
  - eapply unit_step_trans; [apply (system_store_resources_effect m1 s _ _ Hstore)|].
    apply unit_step_report. eauto.
Qed.

Lemma event_ok_unit_step m m' s event :
  unit_step s m m' -> event_ok m event -> event_ok m' event.
Proof.
  intros Hstep [Hsys (p & Hp & Hres)].
  destruct (unit_step_lookup m m' s Hstep) as (_ & _ & _ & _ & Hlen & Hrlen).
  split.
  - apply lookup_lt_is_Some. rewrite Hlen. apply lookup_lt_is_Some. exact Hsys.
  - exists p. split; [exact Hp|].
    apply lookup_lt_is_Some. rewrite Hrlen. apply lookup_lt_is_Some. exact Hres.
Qed.

(** What the convert half adds to the trace and to the queue. *)
Lemma system_run_convert_reports m s m1 :
  run_convert s m = Some (tt, m1) ->
  exists sys effects,
    system_array m !! s = Some sys
    /\ unit_step s m m1
    /\ trace m1 = trace m ++ effects
    /\ event_queue m1 = fold_left event_queue_push (pushed effects) (event_queue m)
    /\ Forall (fun event => event_ok m1 event
                            /\ shortage_event PRIORITY_HIGH s sys event)
         (pushed effects).
Proof.
  intros Hrun.
  destruct (system_run_convert_cases m s m1 Hrun)
    as (sys & Hs & [[_ ->]|[[_ Hconv]|(_ & status & mc & sys1 & Hne & Hconv & Hs1 & ->)]]).
  - exists sys, []. split; [exact Hs|]. split; [apply unit_step_refl; eauto|].
    rewrite app_nil_r. repeat split. constructor.
  - destruct (system_convert_effect m s _ _ Hconv)
      as (Hstep & Hqueue & (effects & Htrace & Hnone) & _).
    exists sys, effects. split; [exact Hs|]. split; [exact Hstep|].
    split; [exact Htrace|]. rewrite Hnone. split; [exact Hqueue|constructor].
  - destruct (system_convert_effect m s _ _ Hconv)
      as (Hstep & Hqueue & (effects & Htrace & Hnone) & Hfail).
    destruct (Hfail Hne) as (_ & Harr & Hstatus & sys' & p & r & Hs' & Hp & Hr & _).
    assert (sys' = sys) by congruence. subst sys'.
    assert (sys1 = sys) by congruence. subst sys1.
    set (event := event_init s (ra_resource (s_consumed sys)) status
                    PRIORITY_HIGH (ra_amount (s_consumed sys))).
    assert (Hstep1 : unit_step s m (after_report event SYSTEM_WAIT_TIME mc)).
    { eapply unit_step_trans; [exact Hstep|]. apply unit_step_report. eauto. }
    exists sys, (effects ++ [Pushes event; Sleeps (SYSTEM_WAIT_TIME * 1000)]).
    split; [exact Hs|]. split; [exact Hstep1|]. split; [|split].
    + cbn [trace after_report]. rewrite Htrace, app_assoc. reflexivity.
    + unfold pushed. rewrite omap_app. fold (pushed effects). rewrite Hnone.
      cbn. rewrite Hqueue. reflexivity.
    + unfold pushed. rewrite omap_app. fold (pushed effects). rewrite Hnone.
      cbn. constructor; [|constructor]. split.
      * eapply event_ok_unit_step; [exact Hstep1|].
        split; [cbn; eauto|]. exists p. cbn. split; [exact Hp|eauto].
      * repeat split. exact Hstatus.
Qed.

(** What the store half adds to the trace and to the queue. *)
Lemma system_run_store_reports m s m2 :
  run_store s m = Some (tt, m2) ->
  exists sys effects,
    system_array m !! s = Some sys
    /\ unit_step s m m2
    /\ trace m2 = trace m ++ effects
    /\ event_queue m2 = fold_left event_queue_push (pushed effects) (event_queue m)
    /\ Forall (fun event => event_ok m2 event
                            /\ capacity_event PRIORITY_LOW s sys event)
         (pushed effects).
Proof.
  intros Hrun.
  destruct (system_run_store_cases m s m2 Hrun)
    as (sys & Hs & [[_ ->]|[[_ Hstore]|(_ & status & mc & sys1 & Hne & Hstore & Hs1 & ->)]]).
  - exists sys, []. split; [exact Hs|]. split; [apply unit_step_refl; eauto|].
    rewrite app_nil_r. repeat split. constructor.
  - destruct (system_store_resources_effect m s _ _ Hstore)
      as (Hstep & Hqueue & (effects & Htrace & Hnone) & _).
    exists sys, effects. split; [exact Hs|]. split; [exact Hstep|].
    split; [exact Htrace|]. rewrite Hnone. split; [exact Hqueue|constructor].
  - destruct (system_store_resources_effect m s _ _ Hstore)
      as (Hstep & Hqueue & (effects & Htrace & Hnone)
          & sys' & stored & Hs' & Hs1' & Hok & Hstatus & Hconserved).
    assert (sys' = sys) by congruence. subst sys'.
    assert (sys1 = set_amount_stored stored sys) by congruence. subst sys1.
    assert (status = STATUS_CAPACITY) as -> by (destruct Hstatus; [contradiction|assumption]).
    assert (Hptr : exists p, ra_resource (s_produced sys) = Some p
                            /\ is_Some (resource_array m !! p)).
    { rewrite system_store_resources_eq, Hs in Hstore.
      cbn [mbind option_bind] in Hstore.
      destruct (ra_resource (s_produced sys)) as [p|] eqn:Hp; [|discriminate].
      exists p. split; [reflexivity|].
      destruct (resource_array m !! p) as [r|] eqn:Hr; [eexists; reflexivity|].
      destruct (s_amount_stored sys =? 0); discriminate. }
    destruct Hptr as (p & Hp & Hr).
    cbn [s_produced set_amount_stored].
    set (event := event_init s (ra_resource (s_produced sys)) STATUS_CAPACITY
                    PRIORITY_LOW (ra_amount (s_produced sys))).
    assert (Hstep1 : unit_step s m (after_report event SYSTEM_WAIT_TIME mc)).
    { eapply unit_step_trans; [exact Hstep|]. apply unit_step_report. eauto. }
    exists sys, (effects ++ [Pushes event; Sleeps (SYSTEM_WAIT_TIME * 1000)]).
    split; [exact Hs|]. split; [exact Hstep1|]. split; [|split].
    + cbn [trace after_report]. rewrite Htrace, app_assoc. reflexivity.
    + unfold pushed. rewrite omap_app. fold (pushed effects). rewrite Hnone.
      cbn. rewrite Hqueue. reflexivity.
    + unfold pushed. rewrite omap_app. fold (pushed effects). rewrite Hnone.
      cbn. constructor; [|constructor]. split.
      * eapply event_ok_unit_step; [exact Hstep1|].
        split; [cbn; eauto|]. exists p. cbn. split; [exact Hp|exact Hr].
      * repeat split.
Qed.

(** X6. Every event a cycle pushes names the unit that ran and a resource
    that exists, so the coordinator can read both. It is either a shortage
    report (EMPTY or INSUFFICIENT on the consumed resource, priority HIGH,
    magnitude the consumed rule amount) or a capacity report (CAPACITY on
    the produced resource, priority LOW, magnitude the produced rule
    amount); the queue after the cycle is the queue before with these
    events pushed. *)
Theorem system_run_reports m s m' :
  run s m = Some (tt, m') ->
  exists sys effects,
    system_array m !! s = Some sys
    /\ trace m' = trace m ++ effects
    /\ event_queue m' = fold_left event_queue_push (pushed effects) (event_queue m)
    /\ Forall (fun event =>
                 event_ok m' event
                 /\ (shortage_event PRIORITY_HIGH s sys event
                     \/ capacity_event PRIORITY_LOW s sys event))
         (pushed effects).
Proof.
  rewrite system_run_split.
  destruct (run_convert s m) as [[[] m1]|] eqn:Hrun1; [|discriminate].
  intros Hrun2.
  destruct (system_run_convert_reports m s m1 Hrun1)
    as (sys & effects1 & Hs & Hstep1 & Htrace1 & Hqueue1 & Hevents1).
  destruct (system_run_store_reports m1 s m' Hrun2)
    as (sys1 & effects2 & Hs1 & Hstep2 & Htrace2 & Hqueue2 & Hevents2).
  destruct (unit_step_lookup m m1 s Hstep1) as (sys' & stored & Hs' & Hs1' & _).
  assert (sys' = sys) by congruence. subst sys'.
  assert (sys1 = set_amount_stored stored sys) by congruence. subst sys1.
  exists sys, (effects1 ++ effects2). split; [exact Hs|]. split; [|split].
  - rewrite Htrace2, Htrace1, app_assoc. reflexivity.
  - unfold pushed. rewrite omap_app. fold (pushed effects1) (pushed effects2).
    rewrite fold_left_app, <- Hqueue1. exact Hqueue2.
  - unfold pushed. rewrite omap_app. fold (pushed effects1) (pushed effects2).
    apply Forall_app. split.
    + eapply Forall_impl; [exact Hevents1|]. intros event [Hok Hshort].
      split; [eapply event_ok_unit_step; eassumption|left; exact Hshort].
    + eapply Forall_impl; [exact Hevents2|]. intros event [Hok Hcap].
      split; [exact Hok|right; exact Hcap].
Qed.


End CycleFrames.

(** ** The coordination pass *)

Section Pass.

Implicit Types (m : Manager) (sys : System) (r : Resource) (event : Event)
  (events : list Event).

Lemma manager_ext m m' :
  simulation_running m' = simulation_running m ->
  system_array m' = system_array m ->
  resource_array m' = resource_array m ->
  event_queue m' = event_queue m ->
  trace m' = trace m ->
  m' = m.
Proof. destruct m, m'; cbn; intros; subst; reflexivity. Qed.

Lemma react_resource_array event m :
  resource_array (react event m) = resource_array m.
Proof.
  unfold react. destruct (e_resource event) as [p|]; [|reflexivity].
  destruct (resource_array m !! p) as [r|]; [|reflexivity].
  destruct (decide _); [reflexivity|]. destruct (e_status event); reflexivity.
Qed.

Lemma react_event_queue event m :
  event_queue (react event m) = event_queue m.
Proof.
  unfold react. destruct (e_resource event) as [p|]; [|reflexivity].
  destruct (resource_array m !! p) as [r|]; [|reflexivity].
  destruct (decide _); [reflexivity|]. destruct (e_status event); reflexivity.
Qed.

Lemma react_trace event m : trace (react event m) = trace m.
Proof.
  unfold react. destruct (e_resource event) as [p|]; [|reflexivity].
  destruct (resource_array m !! p) as [r|]; [|reflexivity].
  destruct (decide _); [reflexivity|]. destruct (e_status event); reflexivity.
Qed.

(** A reaction rewrites run modes only: every unit record keeps its other
    fields. *)
Lemma react_system_array event m :
  Forall2 (fun sys sys' => exists mode, sys' = set_status mode sys)
    (system_array m) (system_array (react event m)).
Proof.
  assert (Hsame : forall sys, exists mode, sys = set_status mode sys).
  { intros sys. exists (s_status sys). destruct sys; reflexivity. }
  assert (Hid : Forall2 (fun sys sys' => exists mode, sys' = set_status mode sys)
                  (system_array m) (system_array m)).
  { apply Forall2_same_length_lookup_2; [reflexivity|].
    intros i sys sys' H1 H2. assert (sys' = sys) by congruence. subst. apply Hsame. }
  assert (Hmap : forall f : System -> System,
             (forall sys, exists mode, f sys = set_status mode sys) ->
             Forall2 (fun sys sys' => exists mode, sys' = set_status mode sys)
               (system_array m) (map f (system_array m))).
  { intros f Hf. apply Forall2_fmap_r. apply Forall2_same_length_lookup_2; [reflexivity|].
    intros i sys sys' H1 H2. assert (sys' = sys) by congruence. subst. apply Hf. }
  assert (Hretarget : forall mode ptr sys,
             exists mode', retarget mode ptr sys = set_status mode' sys).
  { intros mode ptr sys. unfold retarget. destruct (decide _); eauto. }
  unfold react. destruct (e_resource event) as [p|]; [|exact Hid].
  destruct (resource_array m !! p) as [r|]; [|exact Hid].
  destruct (decide _).
  - apply Hmap. eauto.
  - destruct (e_status event); cbn [system_array set_system_array];
      first [exact Hid | apply Hmap; apply Hretarget].
Qed.

Lemma react_set_event_queue event queue m :
  react event (set_event_queue queue m) = set_event_queue queue (react event m).
Proof.
  unfold react. destruct (e_resource event) as [p|]; [|reflexivity].
  cbn [resource_array set_event_queue].
  destruct (resource_array m !! p) as [r|]; [|reflexivity].
  destruct (decide _); [reflexivity|]. destruct (e_status event); reflexivity.
Qed.

Lemma fold_react_set_event_queue events queue m :
  fold_left (fun m event => react event m) events (set_event_queue queue m)
  = set_event_queue queue (fold_left (fun m event => react event m) events m).
Proof.
  revert m. induction events as [|event rest IH]; intros m; [reflexivity|].
  cbn [fold_left]. rewrite react_set_event_queue. apply IH.
Qed.

Lemma event_ok_react event event' m :
  event_ok m event' -> event_ok (react event m) event'.
Proof.
  intros [Hsys Hres]. split.
  - apply lookup_lt_is_Some.
    rewrite <- (Forall2_length _ _ _ (react_system_array event m)).
    apply lookup_lt_is_Some. exact Hsys.
  - rewrite react_resource_array. exact Hres.
Qed.

(** One iteration of the loop computes [react]. *)
Lemma manager_handle_event_react m event status :
  event_ok m event ->
  exists status', manager_handle_event event status m = Some (status', react event m).
Proof.
  intros [[sys0 Hs] (p & Hp & [r Hr])].
  destruct (manager_handle_event_outcome m event status sys0 p r Hs Hp Hr)
    as (status' & m' & Hhandle & Hres & Hqueue & Htrace & Hterm & Hmore & Hless & Hother).
  exists status'. rewrite Hhandle. do 2 f_equal.
  assert (Hfields : simulation_running m' = simulation_running (react event m)
                    /\ system_array m' = system_array (react event m)).
  { unfold react. rewrite Hp in Hmore, Hless |- *. rewrite Hr.
    destruct (decide (terminal_event (e_status event) (r_name r))) as [Ht|Hnt];
      [exact (Hterm Ht)|].
    destruct (e_status event) eqn:Hst.
    - apply Hother. reflexivity.
    - apply (Hmore Hnt). auto.
    - apply (Hmore Hnt). auto.
    - apply (Hmore Hnt). auto.
    - apply (Hless Hnt). reflexivity. }
  destruct Hfields as [Hrunning Hsystems].
  apply manager_ext;
    rewrite ?react_resource_array, ?react_event_queue, ?react_trace; assumption.
Qed.

Lemma manager_loop_fold events :
  forall m size status fuel,
    event_queue m = {| q_head := events; q_size := size |} ->
    Forall (event_ok m) events ->
    (length events < fuel)%nat ->
    manager_loop fuel status m
    = Some (tt, set_event_queue
                  {| q_head := []; q_size := size - Z.of_nat (length events) |}
                  (fold_left (fun m event => react event m) events m)).
Proof.
  induction events as [|event rest IH]; intros m size status fuel Hq Hok Hfuel;
    (destruct fuel as [|fuel]; [cbn [length] in Hfuel; lia|]).
  - cbn [manager_loop]. unfold mbind, M_bind, pop_event, event_queue_pop.
    rewrite Hq. cbn [q_head fold_left length Z.eqb mret M_ret].
    replace (size - Z.of_nat 0) with size by lia. reflexivity.
  - apply Forall_cons_1 in Hok as [Hevent Hrest].
    rewrite (manager_loop_step m event rest size fuel status Hq).
    set (m0 := set_event_queue {| q_head := rest; q_size := size - 1 |} m).
    destruct (manager_handle_event_react m0 event status) as [status' ->].
    { exact Hevent. }
    rewrite (IH (react event m0) (size - 1) status' fuel).
    + unfold m0. rewrite react_set_event_queue, fold_react_set_event_queue.
      cbn [fold_left].
      replace (size - 1 - Z.of_nat (length rest))
        with (size - Z.of_nat (length (event :: rest)))
        by (cbn [length]; lia).
      reflexivity.
    + rewrite react_event_queue. reflexivity.
    + eapply Forall_impl; [exact Hrest|]. intros event' Hok'.
      apply event_ok_react. exact Hok'.
    + cbn [length] in Hfuel. lia.
Qed.

(** The reaction to one event whose resource exists, case by case. *)
Lemma react_outcome m event p r :
  e_resource event = Some p ->
  resource_array m !! p = Some r ->
  (terminal_event (e_status event) (r_name r) ->
   simulation_running (react event m) = 0
   /\ system_array (react event m) = map (set_status TERMINATE) (system_array m))
  /\ (~ terminal_event (e_status event) (r_name r) ->
      e_status event = STATUS_LOW \/ e_status event = STATUS_EMPTY
      \/ e_status event = STATUS_INSUFFICIENT ->
      simulation_running (react event m) = simulation_running m
      /\ system_array (react event m)
         = map (retarget FAST (e_resource event)) (system_array m))
  /\ (~ terminal_event (e_status event) (r_name r) ->
      e_status event = STATUS_CAPACITY ->
      simulation_running (react event m) = simulation_running m
      /\ system_array (react event m)
         = map (retarget SLOW (e_resource event)) (system_array m))
  /\ (e_status event = STATUS_OK ->
      simulation_running (react event m) = simulation_running m
      /\ system_array (react event m) = system_array m).
Proof.
  intros Hp Hr. unfold react. rewrite Hp, Hr.
  destruct (decide (terminal_event (e_status event) (r_name r))) as [Ht|Hnt].
  - split; [intros _; split; reflexivity|].
    split; [intros Hnt; contradiction|].
    split; [intros Hnt; contradiction|].
    intros Hst. destruct Ht as [[Hst' _]|[Hst' _]]; congruence.
  - split; [intros Ht; contradiction|].
    destruct (e_status event) eqn:Hst;
      (split; [intros _ Hmore|split; [intros _ Hless|intros Hother]]);
      try (split; reflexivity); try discriminate;
      destruct Hmore as [?|[?|?]]; discriminate.
Qed.

(** C5. A coordination pass ([manager_run]) over queued events whose units
    and resources exist returns with the queue drained. It pops the event
    at the head of the queue, reacts to it, and goes on exactly as a pass
    over the rest of the queue from the state the reaction leaves, so
    every drained event is reacted to in turn; with no other event queued
    that state is the result of the pass. The reaction: EMPTY on the
    resource named Oxygen or CAPACITY on the resource named Distance sets
    every unit to TERMINATE and clears [simulation_running]; otherwise
    LOW, EMPTY or INSUFFICIENT sets FAST on exactly the units that produce
    the event's resource; otherwise CAPACITY sets SLOW on exactly those
    units; any other status changes no unit. Resources and the trace are
    not touched. *)
Theorem manager_run_classifies m status0 event rest p r :
  q_head (event_queue m) = event :: rest ->
  Forall (event_ok m) (event :: rest) ->
  e_resource event = Some p ->
  resource_array m !! p = Some r ->
  exists m1 m',
    manager_run status0 m = Some (tt, m')
    /\ q_head (event_queue m') = []
    /\ (forall status1, manager_run status1 m1 = Some (tt, m'))
    /\ (rest = [] -> m' = m1)
    /\ event_queue m1
       = {| q_head := rest; q_size := q_size (event_queue m) - 1 |}
    /\ resource_array m1 = resource_array m
    /\ trace m1 = trace m
    /\ (terminal_event (e_status event) (r_name r) ->
        simulation_running m1 = 0
        /\ system_array m1 = map (set_status TERMINATE) (system_array m))
    /\ (~ terminal_event (e_status event) (r_name r) ->
        e_status event = STATUS_LOW \/ e_status event = STATUS_EMPTY
        \/ e_status event = STATUS_INSUFFICIENT ->
        simulation_running m1 = simulation_running m
        /\ system_array m1
           = map (retarget FAST (e_resource event)) (system_array m))
    /\ (~ terminal_event (e_status event) (r_name r) ->
        e_status event = STATUS_CAPACITY ->
        simulation_running m1 = simulation_running m
        /\ system_array m1
           = map (retarget SLOW (e_resource event)) (system_array m))
    /\ (e_status event <> STATUS_LOW ->
        e_status event <> STATUS_EMPTY ->
        e_status event <> STATUS_INSUFFICIENT ->
        e_status event <> STATUS_CAPACITY ->
        simulation_running m1 = simulation_running m
        /\ system_array m1 = system_array m).
Proof.
  intros Hq Hok Hp Hr.
  set (size := q_size (event_queue m)).
  set (m1 := set_event_queue {| q_head := rest; q_size := size - 1 |}
               (react event m)).
  set (m' := set_event_queue
               {| q_head := [];
                  q_size := size - Z.of_nat (length (event :: rest)) |}
               (fold_left (fun m event => react event m) (event :: rest) m)).
  assert (Hqueue : event_queue m = {| q_head := event :: rest; q_size := size |}).
  { unfold size. destruct (event_queue m) as [head n]. cbn [q_head q_size] in *.
    rewrite Hq. reflexivity. }
  exists m1, m'. split; [|split; [reflexivity|split; [|split]]].
  - unfold manager_run, display_simulation_state, mbind, M_bind, mret, M_ret.
    rewrite Hq. apply manager_loop_fold; [exact Hqueue|exact Hok|lia].
  - intros status1.
    unfold manager_run, display_simulation_state, mbind, M_bind, mret, M_ret.
    change (q_head (event_queue m1)) with rest.
    rewrite (manager_loop_fold rest m1 (size - 1) status1 (S (length rest)));
      [| reflexivity | | lia].
    + unfold m1, m'. rewrite fold_react_set_event_queue. cbn [fold_left length].
      unfold set_event_queue.
      cbn [simulation_running system_array resource_array trace].
      replace (size - 1 - Z.of_nat (length rest))
        with (size - Z.of_nat (S (length rest))) by lia.
      reflexivity.
    + apply Forall_cons_1 in Hok as [_ Hrest].
      eapply Forall_impl; [exact Hrest|]. intros event' Hok'.
      apply (event_ok_resized (react event m) m1); [reflexivity|reflexivity|].
      apply event_ok_react. exact Hok'.
  - intros ->. unfold m', m1. cbn [fold_left length].
    replace (size - Z.of_nat 1) with (size - 1) by lia. reflexivity.
  - destruct (react_outcome m event p r Hp Hr) as (Hterm & Hmore & Hless & Hother).
    unfold m1.
    cbn [event_queue resource_array trace simulation_running system_array
         set_event_queue].
    rewrite react_resource_array, react_trace.
    split; [reflexivity|]. split; [reflexivity|]. split; [reflexivity|].
    split; [exact Hterm|]. split; [exact Hmore|]. split; [exact Hless|].
    intros H1 H2 H3 H4. apply Hother.
    destruct (e_status event); congruence.
Qed.

(** X8. A coordination pass over queued events whose units and resources
    exist returns with the queue empty and its counter lowered by the
    number of events drained; the state it leaves is the one obtained by
    reacting to the events one after the other, in queue order, whatever
    the stale value of the local [status]. *)
Theorem manager_run_fold m status0 :
  Forall (event_ok m) (q_head (event_queue m)) ->
  manager_run status0 m
  = Some (tt, set_event_queue
                {| q_head := [];
                   q_size := q_size (event_queue m)
                             - Z.of_nat (length (q_head (event_queue m))) |}
                (fold_left (fun m event => react event m)
                   (q_head (event_queue m)) m)).
Proof.
  intros Hok. unfold manager_run, display_simulation_state, mbind, M_bind, mret, M_ret.
  apply manager_loop_fold; [|exact Hok|lia].
  destruct (event_queue m); reflexivity.
Qed.

Lemma manager_run_unfold m status0 :
  manager_run status0 m
  = manager_loop (S (length (q_head (event_queue m)))) status0 m.
Proof. reflexivity. Qed.

Lemma fold_react_resource_array events m :
  resource_array (fold_left (fun m event => react event m) events m)
  = resource_array m.
Proof.
  revert m. induction events as [|event rest IH]; intros m; [reflexivity|].
  cbn [fold_left]. rewrite IH. apply react_resource_array.
Qed.

Lemma fold_react_trace events m :
  trace (fold_left (fun m event => react event m) events m) = trace m.
Proof.
  revert m. induction events as [|event rest IH]; intros m; [reflexivity|].
  cbn [fold_left]. rewrite IH. apply react_trace.
Qed.

Lemma modes_only_refl (systems : list System) :
  Forall2 (fun sys sys' => exists mode, sys' = set_status mode sys) systems systems.
Proof.
  induction systems as [|sys systems IH]; constructor; [|exact IH].
  exists (s_status sys). destruct sys; reflexivity.
Qed.

Lemma modes_only_trans (l1 l2 l3 : list System) :
  Forall2 (fun sys sys' => exists mode, sys' = set_status mode sys) l1 l2 ->
  Forall2 (fun sys sys' => exists mode, sys' = set_status mode sys) l2 l3 ->
  Forall2 (fun sys sys' => exists mode, sys' = set_status mode sys) l1 l3.
Proof.
  intros H12. revert l3.
  induction H12 as [|a b l1 l2 [mode ->] _ IH12]; intros l3 H23.
  - apply Forall2_nil_inv_l in H23. subst. constructor.
  - apply Forall2_cons_inv_l in H23 as (c & l3' & [mode' ->] & H23 & ->).
    constructor; [exists mode'; reflexivity|apply IH12; exact H23].
Qed.

Lemma fold_react_system_array events m :
  Forall2 (fun sys sys' => exists mode, sys' = set_status mode sys)
    (system_array m)
    (system_array (fold_left (fun m event => react event m) events m)).
Proof.
  revert m. induction events as [|event rest IH]; intros m; cbn [fold_left].
  - apply modes_only_refl.
  - eapply modes_only_trans; [apply react_system_array|apply IH].
Qed.

Lemma terminal_in_react event event' m :
  terminal_in (react event m) event' <-> terminal_in m event'.
Proof. unfold terminal_in. rewrite react_resource_array. reflexivity. Qed.

Lemma react_simulation_running event m :
  (terminal_in m event /\ simulation_running (react event m) = 0)
  \/ (~ terminal_in m event
      /\ simulation_running (react event m) = simulation_running m).
Proof.
  unfold react, terminal_in.
  destruct (e_resource event) as [p|].
  2:{ right. split; [|reflexivity]. intros (p & r & Hp & _). discriminate. }
  destruct (resource_array m !! p) as [r|] eqn:Hr.
  2:{ right. split; [|reflexivity]. intros (p' & r & Hp' & Hr' & _).
      injection Hp' as <-. rewrite Hr in Hr'. discriminate. }
  destruct (decide (terminal_event (e_status event) (r_name r))) as [Ht|Hnt].
  - left. split; [eauto|reflexivity].
  - right. split.
    + intros (p' & r' & Hp' & Hr' & Ht). injection Hp' as <-.
      rewrite Hr in Hr'. injection Hr' as <-. contradiction.
    + destruct (e_status event); reflexivity.
Qed.

Lemma fold_react_simulation_running events m :
  let m' := fold_left (fun m event => react event m) events m in
  (simulation_running m' = 0
   <-> simulation_running m = 0 \/ Exists (terminal_in m) events)
  /\ (simulation_running m' = 0 \/ simulation_running m' = simulation_running m).
Proof.
  revert m. induction events as [|event rest IH]; intros m; cbn [fold_left].
  - cbv zeta. split; [|auto]. rewrite Exists_nil. tauto.
  - specialize (IH (react event m)). cbv zeta in IH |- *.
    destruct IH as [IHiff IHval]. rewrite Exists_cons.
    assert (Hrest : Exists (terminal_in (react event m)) rest
                    <-> Exists (terminal_in m) rest).
    { rewrite !Exists_exists. split; intros (e & He & Ht); exists e;
        (split; [exact He|]); apply (terminal_in_react event e m); exact Ht. }
    rewrite Hrest in IHiff.
    destruct (react_simulation_running event m) as [[Ht Hzero]|[Hnt Hsame]].
    + rewrite Hzero in IHiff, IHval. split; [|left; tauto]. tauto.
    + rewrite Hsame in IHiff, IHval. split; [tauto|exact IHval].
Qed.

(** X9. A coordination pass over queued events whose units and resources
    exist writes nothing but run modes and [simulation_running]: resources,
    buffers, rules and the trace stay as they are. It never sets
    [simulation_running] to anything but 0, and leaves it 0 exactly when
    it was 0 before or one of the drained events is terminal (EMPTY on
    Oxygen or CAPACITY on Distance). *)
Theorem manager_run_stops_on_terminal m status0 :
  Forall (event_ok m) (q_head (event_queue m)) ->
  exists m',
    manager_run status0 m = Some (tt, m')
    /\ (simulation_running m' = 0
        <-> simulation_running m = 0
            \/ Exists (terminal_in m) (q_head (event_queue m)))
    /\ (simulation_running m' = 0 \/ simulation_running m' = simulation_running m)
    /\ resource_array m' = resource_array m
    /\ trace m' = trace m
    /\ Forall2 (fun sys sys' => exists mode, sys' = set_status mode sys)
         (system_array m) (system_array m').
Proof.
  intros Hok. eexists. split.
  - rewrite manager_run_unfold.
    apply (manager_loop_fold (q_head (event_queue m)) m (q_size (event_queue m)));
      [|exact Hok|lia].
    destruct (event_queue m); reflexivity.
  - cbn [simulation_running resource_array trace system_array set_event_queue].
    destruct (fold_react_simulation_running (q_head (event_queue m)) m)
      as [Hiff Hval].
    split; [exact Hiff|]. split; [exact Hval|].
    split; [apply fold_react_resource_array|].
    split; [apply fold_react_trace|apply fold_react_system_array].
Qed.

Lemma retarget_produced mode ptr sys :
  s_produced (retarget mode ptr sys) = s_produced sys.
Proof. unfold retarget. destruct (decide _); reflexivity. Qed.

(** X10. The last event of a pass decides: when the last queued event is
    terminal every unit ends the pass in TERMINATE; when it is a shortage
    report that is not terminal, every unit that produces its resource
    ends in FAST, and when it is a capacity report that is not terminal,
    in SLOW - whatever came before it in the queue, a terminal event
    included. *)
Theorem manager_run_last_event_wins m status0 earlier last p r :
  q_head (event_queue m) = earlier ++ [last] ->
  Forall (event_ok m) (earlier ++ [last]) ->
  e_resource last = Some p ->
  resource_array m !! p = Some r ->
  exists m',
    manager_run status0 m = Some (tt, m')
    /\ forall i sys',
         system_array m' !! i = Some sys' ->
         (terminal_event (e_status last) (r_name r) -> s_status sys' = TERMINATE)
         /\ (~ terminal_event (e_status last) (r_name r) ->
             ra_resource (s_produced sys') = Some p ->
             (e_status last = STATUS_LOW \/ e_status last = STATUS_EMPTY
              \/ e_status last = STATUS_INSUFFICIENT -> s_status sys' = FAST)
             /\ (e_status last = STATUS_CAPACITY -> s_status sys' = SLOW)).
Proof.
  intros Hq Hok Hp Hr. eexists. split.
  - rewrite manager_run_unfold.
    apply (manager_loop_fold (q_head (event_queue m)) m (q_size (event_queue m)));
      [|rewrite Hq; exact Hok|lia].
    destruct (event_queue m); reflexivity.
  - cbn [system_array set_event_queue]. rewrite Hq, fold_left_app. cbn [fold_left].
    set (mid := fold_left (fun m event => react event m) earlier m).
    assert (Hmid : resource_array mid !! p = Some r)
      by (unfold mid; rewrite fold_react_resource_array; exact Hr).
    unfold react. rewrite Hp, Hmid.
    intros i sys' Hsys'.
    destruct (decide (terminal_event (e_status last) (r_name r))) as [Ht|Hnt].
    + cbn [system_array set_system_array] in Hsys'.
      rewrite list_lookup_fmap in Hsys'.
      destruct (system_array mid !! i) as [sys|]; [|discriminate].
      injection Hsys' as <-. split; [reflexivity|]. intros Hnt. contradiction.
    + split; [intros Ht; contradiction|]. intros _ Hprod.
      destruct (e_status last) eqn:Hst;
        cbn [system_array set_system_array] in Hsys';
        try rewrite list_lookup_fmap in Hsys';
        (split; [intros [?|[?|?]]; try discriminate|intros ?; try discriminate]);
        (destruct (system_array mid !! i) as [sys|]; [|discriminate]);
        injection Hsys' as <-;
        rewrite retarget_produced in Hprod; unfold retarget;
        rewrite decide_True by exact Hprod; reflexivity.
Qed.

End Pass.

(** ** Schedules: cycles and passes in any order *)

Section Schedules.

Variables PRIORITY_HIGH PRIORITY_LOW SYSTEM_WAIT_TIME : Z.

Implicit Types (m : Manager) (sys : System) (r : Resource) (s p : nat).

Lemma fold_push_Forall (P : Event -> Prop) events queue :
  Forall P (q_head queue) ->
  Forall P events ->
  Forall P (q_head (fold_left event_queue_push events queue)).
Proof.
  revert queue. induction events as [|event rest IH]; intros queue Hq Hev;
    [exact Hq|].
  apply Forall_cons_1 in Hev as [Hevent Hrest]. cbn [fold_left].
  apply IH; [|exact Hrest].
  rewrite event_queue_push_head, push_traverse_perm.
  constructor; assumption.
Qed.

Lemma system_run_state_ok m s :
  state_ok m ->
  is_Some (system_array m !! s) ->
  exists m',
    system_run PRIORITY_HIGH PRIORITY_LOW SYSTEM_WAIT_TIME s m = Some (tt, m')
    /\ state_ok m'
    /\ length (system_array m') = length (system_array m).
Proof.
  intros (Hwf & Hrange & Hqueue) Hs.
  destruct (system_run_in_range PRIORITY_HIGH PRIORITY_LOW SYSTEM_WAIT_TIME
              INT_MAX m s (Z.le_refl _) Hwf Hrange Hs)
    as (m' & Hrun & Hwf' & Hrange').
  exists m'. split; [exact Hrun|].
  pose proof Hrun as Hsplit. rewrite system_run_split in Hsplit.
  destruct (system_run_convert PRIORITY_HIGH SYSTEM_WAIT_TIME s m)
    as [[[] m1]|] eqn:Hrun1; [|discriminate].
  destruct (system_run_convert_reports PRIORITY_HIGH SYSTEM_WAIT_TIME m s m1 Hrun1)
    as (sys & effects1 & _ & Hstep1 & _ & Hqueue1 & Hevents1).
  destruct (system_run_store_reports PRIORITY_LOW SYSTEM_WAIT_TIME m1 s m' Hsplit)
    as (sys1 & effects2 & _ & Hstep2 & _ & Hqueue2 & Hevents2).
  split; [split; [exact Hwf'|split; [exact Hrange'|]]|].
  - rewrite Hqueue2. apply fold_push_Forall.
    + rewrite Hqueue1. apply fold_push_Forall.
      * eapply Forall_impl; [exact Hqueue|]. intros event Hok.
        eapply event_ok_unit_step; [exact Hstep2|].
        eapply event_ok_unit_step; [exact Hstep1|exact Hok].
      * eapply Forall_impl; [exact Hevents1|]. intros event [Hok _].
        eapply event_ok_unit_step; [exact Hstep2|exact Hok].
    + eapply Forall_impl; [exact Hevents2|]. intros event [Hok _]. exact Hok.
  - destruct (unit_step_lookup m m1 s Hstep1) as (_ & _ & _ & _ & Hlen1 & _).
    destruct (unit_step_lookup m1 m' s Hstep2) as (_ & _ & _ & _ & Hlen2 & _).
    congruence.
Qed.

Lemma well_formed_modes m m' :
  well_formed m ->
  resource_array m' = resource_array m ->
  Forall2 (fun sys sys' => exists mode, sys' = set_status mode sys)
    (system_array m) (system_array m') ->
  well_formed m'.
Proof.
  intros [Hres Hsys] Hsame Hmodes. split.
  - unfold resources_bounded. rewrite Hsame. exact Hres.
  - revert Hsys. induction Hmodes as [|sys sys' l l' [mode ->] _ IH]; intros Hsys;
      [constructor|].
    apply Forall_cons_1 in Hsys as [Hok Hrest].
    constructor; [|apply IH; exact Hrest].
    destruct Hok as (Hc & Hp & Hst & Hpc & Hpp).
    repeat split; try assumption.
    + apply (pointer_ok_resized m m'); [rewrite Hsame; reflexivity|exact Hpc].
    + apply (pointer_ok_resized m m'); [rewrite Hsame; reflexivity|exact Hpp].
Qed.

Lemma in_range_modes bound m m' :
  in_range bound m ->
  resource_array m' = resource_array m ->
  Forall2 (fun sys sys' => exists mode, sys' = set_status mode sys)
    (system_array m) (system_array m') ->
  in_range bound m'.
Proof.
  intros [Hres Hsys] Hsame Hmodes. split.
  - rewrite Hsame. exact Hres.
  - revert Hsys. induction Hmodes as [|sys sys' l l' [mode ->] _ IH]; intros Hsys;
      [constructor|].
    apply Forall_cons_1 in Hsys as [Hok Hrest].
    constructor; [exact Hok|apply IH; exact Hrest].
Qed.

Lemma manager_run_state_ok m status0 :
  state_ok m ->
  exists m',
    manager_run status0 m = Some (tt, m')
    /\ state_ok m'
    /\ length (system_array m') = length (system_array m).
Proof.
  intros (Hwf & Hrange & Hqueue). eexists. split.
  - rewrite manager_run_unfold.
    apply (manager_loop_fold (q_head (event_queue m)) m (q_size (event_queue m)));
      [|exact Hqueue|lia].
    destruct (event_queue m); reflexivity.
  - split; [split; [|split]|].
    + apply (well_formed_modes m); [exact Hwf| |].
      * cbn [resource_array set_event_queue]. apply fold_react_resource_array.
      * cbn [system_array set_event_queue]. apply fold_react_system_array.
    + apply (in_range_modes INT_MAX m); [exact Hrange| |].
      * cbn [resource_array set_event_queue]. apply fold_react_resource_array.
      * cbn [system_array set_event_queue]. apply fold_react_system_array.
    + cbn [event_queue set_event_queue q_head]. constructor.
    + cbn [system_array set_event_queue]. symmetry.
      apply (Forall2_length _ _ _ (fold_react_system_array _ m)).
Qed.

(** X11. From a well-formed state whose capacities, rule amounts and
    buffers are at most [INT_MAX] and whose queued events name units and
    resources that exist, every schedule of whole cycles of existing units
    and coordination passes runs to completion without a fault, and ends in
    such a state again: every resource within [0, capacity], every buffer
    non-negative and, as every capacity and rule amount, at most
    [INT_MAX], every queued event readable by the coordinator. *)
Theorem schedule_runs_safely steps m :
  state_ok m ->
  Forall (step_ok m) steps ->
  exists m',
    run_steps PRIORITY_HIGH PRIORITY_LOW SYSTEM_WAIT_TIME steps m = Some (tt, m')
    /\ state_ok m'
    /\ Forall (fun r => 0 <= r_amount r <= r_max_capacity r) (resource_array m').
Proof.
  revert m. induction steps as [|step rest IH]; intros m Hok Hsteps.
  - exists m. split; [reflexivity|]. split; [exact Hok|]. apply Hok.
  - apply Forall_cons_1 in Hsteps as [Hstep Hrest].
    assert (Hfirst : exists m1,
               run_step PRIORITY_HIGH PRIORITY_LOW SYSTEM_WAIT_TIME step m
               = Some (tt, m1)
               /\ state_ok m1
               /\ length (system_array m1) = length (system_array m)).
    { destruct step as [s|status0]; cbn [run_step step_ok] in *.
      - apply system_run_state_ok; assumption.
      - apply manager_run_state_ok; assumption. }
    destruct Hfirst as (m1 & Hrun1 & Hok1 & Hlen1).
    destruct (IH m1 Hok1) as (m' & Hrun & Hok' & Hbounded).
    { eapply Forall_impl; [exact Hrest|]. intros [s|status0]; cbn [step_ok];
        [|trivial].
      rewrite !lookup_lt_is_Some, Hlen1. trivial. }
    exists m'. split; [|split; assumption].
    cbn [run_steps]. unfold mbind, M_bind. rewrite Hrun1. exact Hrun.
Qed.

End Schedules.

(** ** The growing arrays *)

Section Arrays.

Implicit Types (array : PointerArray) (items : list (option nat))
  (cells : list Cell).

Lemma read_cell_Some cells (i : nat) :
  read_cell (Some cells) (Z.of_nat i) = cells !! i.
Proof.
  unfold read_cell. rewrite (proj2 (Z.ltb_ge _ _)) by lia.
  rewrite Nat2Z.id. reflexivity.
Qed.

Lemma write_cell_Some cells (i : nat) c :
  (i < length cells)%nat ->
  write_cell (Some cells) (Z.of_nat i) c = Some (<[i := c]> cells).
Proof.
  intros Hi. unfold write_cell.
  rewrite (proj2 (Z.leb_le _ _)), (proj2 (Z.ltb_lt _ _)) by lia.
  rewrite Nat2Z.id. reflexivity.
Qed.

Lemma take_S_insert cells (i : nat) c :
  (i < length cells)%nat ->
  take (S i) (<[i := c]> cells) = take i cells ++ [c].
Proof.
  intros Hi. rewrite (take_S_r _ _ c) by (apply list_lookup_insert_eq; exact Hi).
  rewrite take_insert_ge by lia. reflexivity.
Qed.

(** The copy loop moves the first [count] cells of the old block into the
    new one. *)
Lemma copy_cells_take count : forall (i : nat) old new,
  (i + count <= length old)%nat ->
  (i + count <= length new)%nat ->
  copy_cells count (Z.of_nat i) (Some old) new
  = Some (take i new ++ take count (drop i old) ++ drop (i + count) new).
Proof.
  induction count as [|count IH]; intros i old new Hold Hnew; cbn [copy_cells].
  - rewrite Nat.add_0_r, take_0. cbn [app]. rewrite take_drop. reflexivity.
  - rewrite read_cell_Some.
    destruct (lookup_lt_is_Some_2 old i) as [c Hc]; [lia|]. rewrite Hc.
    rewrite write_cell_Some by lia.
    replace (Z.of_nat i + 1) with (Z.of_nat (S i)) by lia.
    rewrite IH by (rewrite ?length_insert; lia).
    rewrite take_S_insert by lia.
    rewrite (drop_S old c i Hc), firstn_cons.
    rewrite drop_insert_lt by lia.
    replace (S i + count)%nat with (i + S count)%nat by lia.
    rewrite <- app_assoc. reflexivity.
Qed.

Lemma array_holds_room array items cells :
  array_holds array items ->
  pa_cells array = Some cells ->
  (length items <= length cells)%nat
  /\ pa_capacity array = Z.of_nat (length cells).
Proof.
  intros [Hsize Hcells] Heq. rewrite Heq in Hcells.
  destruct Hcells as [Hcap Htake]. split; [|lia].
  apply (f_equal length) in Htake.
  rewrite length_take, length_fmap in Htake. lia.
Qed.

(** Storing a pointer in the first free cell of a block with room. *)
Lemma array_holds_write array items cells system :
  array_holds array items ->
  pa_cells array = Some cells ->
  pa_size array < pa_capacity array ->
  write_cell (pa_cells array) (pa_size array) (Holds system)
  = Some (<[length items := Holds system]> cells)
  /\ array_holds
       {| pa_cells := Some (<[length items := Holds system]> cells);
          pa_size := pa_size array + 1; pa_capacity := pa_capacity array |}
       (items ++ [system]).
Proof.
  intros Hholds Heq Hroom.
  destruct (array_holds_room array items cells Hholds Heq) as [Hle Hcap].
  destruct Hholds as [Hsize Hcells]. rewrite Heq in Hcells |- *.
  destruct Hcells as [_ Htake].
  assert (Hlt : (length items < length cells)%nat) by lia.
  rewrite Hsize. split; [apply write_cell_Some; exact Hlt|].
  split; cbn [pa_size pa_cells pa_capacity].
  - rewrite length_app. cbn [length]. lia.
  - split; [rewrite length_insert; lia|].
    rewrite length_app. cbn [length].
    replace (length items + 1)%nat with (S (length items)) by lia.
    rewrite take_S_insert by exact Hlt.
    rewrite Htake, fmap_app. reflexivity.
Qed.

(** A pointer added by [system_array_add] when it returns. *)
Lemma system_array_add_returns allocated array items system :
  array_holds array items ->
  pa_size array < pa_capacity array \/ allocated = true ->
  exists array',
    system_array_add allocated array system = Returns array'
    /\ array_holds array' (items ++ [system])
    /\ pa_capacity array'
       = (if pa_size array <? pa_capacity array then pa_capacity array
          else if pa_capacity array =? 0 then 1 else pa_capacity array * 2).
Proof.
  intros Hholds Hcan. unfold system_array_add.
  destruct (Z.leb_spec (pa_capacity array) (pa_size array)) as [Hfull|Hroom].
  - destruct Hcan as [Hroom| ->]; [lia|].
    rewrite (proj2 (Z.ltb_ge _ _) Hfull).
    pose proof Hholds as [Hsize Hcells].
    destruct (pa_cells array) as [cells|] eqn:Heq.
    + destruct (array_holds_room array items cells Hholds Heq) as [Hle Hcap].
      destruct Hcells as [_ Htake].
      assert (Hlen : length cells = length items) by lia.
      assert (Hall : cells = Holds <$> items).
      { rewrite <- Htake. symmetry. apply take_ge. lia. }
      set (new_capacity := if pa_capacity array =? 0 then 1 else pa_capacity array * 2).
      assert (Hnew : new_capacity = Z.max 1 (2 * Z.of_nat (length items))).
      { unfold new_capacity. destruct (Z.eqb_spec (pa_capacity array) 0); lia. }
      cbn [malloc_cells]. rewrite Hsize, Nat2Z.id.
      rewrite (copy_cells_take (length items) 0 cells)
        by (rewrite ?length_replicate; lia).
      rewrite take_0, drop_0, Nat.add_0_l, (take_ge cells) by lia.
      cbn [app]. rewrite drop_replicate.
      set (fresh := cells ++ replicate (Z.to_nat new_capacity - length items)
                               Indeterminate).
      assert (Hfresh : length fresh = Z.to_nat new_capacity).
      { unfold fresh. rewrite length_app, length_replicate. lia. }
      destruct (array_holds_write
                  {| pa_cells := Some fresh; pa_size := Z.of_nat (length items);
                     pa_capacity := new_capacity |} items fresh system)
        as [Hwrite Hholds'].
      * split; [reflexivity|]. cbn [pa_cells pa_capacity].
        split; [lia|]. unfold fresh.
        rewrite take_app_le by lia. rewrite take_ge by lia. exact Hall.
      * reflexivity.
      * cbn [pa_size pa_capacity]. lia.
      * cbn [pa_cells pa_size pa_capacity] in Hwrite, Hholds' |- *.
        rewrite Hwrite. eexists. split; [reflexivity|].
        split; [exact Hholds'|reflexivity].
    + destruct Hcells as [Hcap ->]. cbn [length] in Hsize.
      destruct array as [block size capacity].
      cbn [pa_cells pa_size pa_capacity] in *. subst block size capacity.
      eexists. split; [reflexivity|]. split; [|reflexivity].
      split; [reflexivity|]. split; reflexivity.
  - rewrite (proj2 (Z.ltb_lt _ _) Hroom).
    destruct (pa_cells array) as [cells|] eqn:Heq.
    + destruct (array_holds_write array items cells system Hholds Heq Hroom)
        as [Hwrite Hholds'].
      rewrite Heq in Hwrite. rewrite Hwrite.
      eexists. split; [reflexivity|]. split; [exact Hholds'|reflexivity].
    + destruct Hholds as [Hsize Hcells]. rewrite Heq in Hcells.
      destruct Hcells as [Hcap ->]. cbn [length] in Hsize. lia.
Qed.

(** X12. [system_array_add] on an array that holds [items]: with room
    left, or with memory for a new block, it returns the array holding the
    old pointers followed by the new one ([NULL] included), in a block that
    is as large as before when there was room and twice as large (1 for an
    array without a block) when there was none; the old pointers are
    copied, none is lost. Without room and without memory the process
    exits. *)
Theorem system_array_add_appends allocated array items system :
  array_holds array items ->
  (pa_size array < pa_capacity array \/ allocated = true ->
   exists array',
     system_array_add allocated array system = Returns array'
     /\ array_holds array' (items ++ [system])
     /\ pa_capacity array'
        = (if pa_size array <? pa_capacity array then pa_capacity array
           else if pa_capacity array =? 0 then 1 else pa_capacity array * 2))
  /\ (pa_capacity array <= pa_size array -> allocated = false ->
      system_array_add allocated array system = Exits).
Proof.
  intros Hholds. split.
  - apply system_array_add_returns. exact Hholds.
  - intros Hfull ->. unfold system_array_add.
    rewrite (proj2 (Z.leb_le _ _) Hfull). reflexivity.
Qed.

(** X13. [resource_array_add] on an array that holds [items]: a [NULL]
    resource is refused and the array stays as it is; with room left, or
    with memory for [realloc], the resource is appended behind the old
    pointers, in a block as large as before or twice as large (1 for an
    array without a block); without room and without memory the function
    returns with the array unchanged, so the resource is not added. *)
Theorem resource_array_add_appends allocated array items p :
  array_holds array items ->
  resource_array_add allocated (Some array) None = Returns (Some array)
  /\ (pa_size array < pa_capacity array \/ allocated = true ->
      exists array',
        resource_array_add allocated (Some array) (Some p) = Returns (Some array')
        /\ array_holds array' (items ++ [Some p])
        /\ pa_capacity array'
           = (if pa_size array <? pa_capacity array then pa_capacity array
              else if pa_capacity array =? 0 then 1 else pa_capacity array * 2))
  /\ (pa_capacity array <= pa_size array -> allocated = false ->
      resource_array_add allocated (Some array) (Some p) = Returns (Some array)).
Proof.
  intros Hholds. split; [reflexivity|]. split.
  2:{ intros Hfull ->. unfold resource_array_add.
      rewrite (proj2 (Z.ltb_lt _ _)) by lia. reflexivity. }
  intros Hcan. unfold resource_array_add.
  destruct (Z.ltb_spec (pa_capacity array) (pa_size array + 1)) as [Hfull|Hroom].
  - destruct Hcan as [Hroom| ->]; [lia|].
    rewrite (proj2 (Z.ltb_ge (pa_size array) (pa_capacity array))) by lia.
    pose proof Hholds as [Hsize Hcells].
    set (new_capacity := if pa_capacity array =? 0 then 1 else pa_capacity array * 2).
    destruct (pa_cells array) as [cells|] eqn:Heq.
    + destruct (array_holds_room array items cells Hholds Heq) as [Hle Hcap].
      destruct Hcells as [_ Htake].
      assert (Hlen : length cells = length items) by lia.
      assert (Hall : cells = Holds <$> items).
      { rewrite <- Htake. symmetry. apply take_ge. lia. }
      assert (Hnew : new_capacity = Z.max 1 (2 * Z.of_nat (length items))).
      { unfold new_capacity. destruct (Z.eqb_spec (pa_capacity array) 0); lia. }
      cbn [realloc_cells]. rewrite (take_ge cells) by lia.
      set (fresh := cells ++ replicate (Z.to_nat new_capacity - length cells)
                               Indeterminate).
      assert (Hfresh : length fresh = Z.to_nat new_capacity).
      { unfold fresh. rewrite length_app, length_replicate. lia. }
      destruct (array_holds_write
                  {| pa_cells := Some fresh; pa_size := pa_size array;
                     pa_capacity := new_capacity |} items fresh (Some p))
        as [Hwrite Hholds'].
      * split; [exact Hsize|]. cbn [pa_cells pa_capacity].
        split; [lia|]. unfold fresh.
        rewrite take_app_le by lia. rewrite take_ge by lia. exact Hall.
      * reflexivity.
      * cbn [pa_size pa_capacity]. lia.
      * cbn [pa_cells pa_size pa_capacity] in Hwrite, Hholds' |- *.
        rewrite Hwrite. eexists. split; [reflexivity|].
        split; [exact Hholds'|reflexivity].
    + destruct Hcells as [Hcap ->]. cbn [length] in Hsize.
      destruct array as [block size capacity].
      cbn [pa_cells pa_size pa_capacity] in *. subst block size capacity.
      eexists. split; [reflexivity|]. split; [|reflexivity].
      split; [reflexivity|]. split; reflexivity.
  - rewrite (proj2 (Z.ltb_lt (pa_size array) (pa_capacity array))) by lia.
    destruct (pa_cells array) as [cells|] eqn:Heq.
    + destruct (array_holds_write array items cells (Some p) Hholds Heq)
        as [Hwrite Hholds']; [lia|].
      rewrite Heq in Hwrite. rewrite Hwrite.
      eexists. split; [reflexivity|]. split; [exact Hholds'|reflexivity].
    + destruct Hholds as [Hsize Hcells]. rewrite Heq in Hcells.
      destruct Hcells as [Hcap ->]. cbn [length] in Hsize. lia.
Qed.

Lemma system_array_add_all_grows systems : forall array items,
  array_holds array items ->
  (exists k : nat, pa_capacity array = 2 ^ Z.of_nat k) ->
  pa_capacity array = 1 \/ pa_capacity array < 2 * pa_size array ->
  exists array',
    system_array_add_all systems array = Returns array'
    /\ array_holds array' (items ++ systems)
    /\ (exists k : nat, pa_capacity array' = 2 ^ Z.of_nat k)
    /\ (pa_capacity array' = 1 \/ pa_capacity array' < 2 * pa_size array').
Proof.
  induction systems as [|system rest IH]; intros array items Hholds Hpow Htight.
  - exists array. rewrite app_nil_r. auto.
  - destruct (system_array_add_returns true array items system Hholds)
      as (array1 & Hadd & Hholds1 & Hcap1); [right; reflexivity|].
    assert (Hsize : 0 <= pa_size array) by (destruct Hholds as [-> _]; lia).
    assert (Hsize1 : pa_size array1 = pa_size array + 1).
    { destruct Hholds as [-> _], Hholds1 as [-> _].
      rewrite length_app. cbn [length]. lia. }
    destruct Hpow as [k Hk].
    assert (Hpos : 0 < pa_capacity array)
      by (rewrite Hk; apply Z.pow_pos_nonneg; lia).
    destruct (IH array1 (items ++ [system]) Hholds1)
      as (array' & Hall & Hholds' & Hpow' & Htight').
    + destruct (Z.ltb_spec (pa_size array) (pa_capacity array)).
      * exists k. congruence.
      * exists (S k). rewrite Hcap1, (proj2 (Z.eqb_neq _ 0)) by lia.
        rewrite Hk, Nat2Z.inj_succ, Z.pow_succ_r by lia. lia.
    + rewrite Hsize1, Hcap1.
      destruct (Z.ltb_spec (pa_size array) (pa_capacity array)); [lia|].
      rewrite (proj2 (Z.eqb_neq _ 0)) by lia.
      assert (pa_size array <= pa_capacity array).
      { destruct (pa_cells array) as [cells|] eqn:Heq.
        - destruct (array_holds_room array items cells Hholds Heq).
          destruct Hholds as [-> _]. lia.
        - destruct Hholds as [_ Hcells]. rewrite Heq in Hcells. lia. }
      lia.
    + exists array'. cbn [system_array_add_all]. rewrite Hadd.
      rewrite <- app_assoc in Hholds'. auto.
Qed.

(** X14. Adding any list of systems, one by one, to a freshly initialised
    array (memory never running out) returns an array that holds exactly
    these systems in the order they were added; its capacity is a power of
    two and, unless it is still 1, less than twice the number of systems
    held. *)
Theorem system_array_growth systems :
  exists array0 array,
    system_array_init true = Returns array0
    /\ system_array_add_all systems array0 = Returns array
    /\ array_holds array systems
    /\ (exists k : nat, pa_capacity array = 2 ^ Z.of_nat k)
    /\ (pa_capacity array = 1
        \/ pa_capacity array < 2 * Z.of_nat (length systems)).
Proof.
  eexists.
  destruct (system_array_add_all_grows systems
              {| pa_cells := Some [Indeterminate]; pa_size := 0; pa_capacity := 1 |}
              [])
    as (array & Hall & Hholds & Hpow & Htight).
  - split; [reflexivity|]. split; reflexivity.
  - exists 0%nat. reflexivity.
  - left. reflexivity.
  - exists array. split; [reflexivity|]. split; [exact Hall|].
    split; [exact Hholds|]. split; [exact Hpow|].
    destruct Hholds as [Hsize _]. cbn [app] in Hsize.
    rewrite Hsize in Htight. exact Htight.
Qed.

Lemma destroy_cells_items {A : Type} (items : list (option nat)) :
  forall (i : nat) (cells : list Cell) (heap : Heap A),
  take (length items) (drop i cells) = Holds <$> items ->
  destroy_cells (length items) (Z.of_nat i) (Some cells) heap
  = destroy_all items heap.
Proof.
  induction items as [|pointer rest IH]; intros i cells heap Htake.
  - reflexivity.
  - cbn [length fmap list_fmap] in Htake.
    destruct (drop i cells) as [|c tail] eqn:Hdrop; [discriminate|].
    rewrite firstn_cons in Htake. injection Htake as -> Htail.
    assert (Hcell : cells !! i = Some (Holds pointer)).
    { rewrite <- (Nat.add_0_r i), <- lookup_drop, Hdrop. reflexivity. }
    assert (Hnext : drop (S i) cells = tail).
    { pose proof (drop_S cells (Holds pointer) i Hcell) as Hstep.
      rewrite Hdrop in Hstep. injection Hstep as <-. reflexivity. }
    cbn [length destroy_cells destroy_all read_cell].
    rewrite (proj2 (Z.ltb_ge _ _)) by lia. rewrite Nat2Z.id, Hcell.
    destruct (destroy pointer heap) as [heap'|]; [|reflexivity].
    replace (Z.of_nat i + 1) with (Z.of_nat (S i)) by lia.
    apply IH. rewrite Hnext. exact Htail.
Qed.

Lemma destroy_all_live {A : Type} (items : list (option nat)) :
  forall heap : Heap A,
  all_live items heap -> destroy_all items heap = Some (free_all items heap).
Proof.
  induction items as [|[p|] rest IH]; intros heap [Hdistinct Hlive].
  - reflexivity.
  - cbn [omap list_omap id] in Hdistinct, Hlive.
    apply NoDup_cons in Hdistinct as [Hfresh Hdistinct].
    apply Forall_cons in Hlive as [[a Hp] Hlive].
    cbn [destroy_all destroy free_all]. rewrite Hp. apply IH.
    split; [exact Hdistinct|].
    apply Forall_forall. intros q Hq.
    rewrite Forall_forall in Hlive. destruct (Hlive q Hq) as [b Hb].
    exists b. rewrite list_lookup_insert_ne; [exact Hb|].
    intros ->. exact (Hfresh Hq).
  - cbn [destroy_all destroy free_all]. apply IH. split; assumption.
Qed.

Lemma destroy_all_Some {A : Type} (items : list (option nat)) :
  forall heap heap' : Heap A,
  destroy_all items heap = Some heap' -> all_live items heap.
Proof.
  induction items as [|[p|] rest IH]; intros heap heap' Hdestroy.
  - split; [apply NoDup_nil_2|apply Forall_nil_2].
  - cbn [destroy_all destroy] in Hdestroy.
    destruct (heap !! p) as [[a|]|] eqn:Hp; try discriminate.
    destruct (IH _ _ Hdestroy) as [Hdistinct Hlive].
    assert (Hbound : (p < length heap)%nat)
      by (apply lookup_lt_is_Some; eauto).
    assert (Hfresh : p ∉ omap id rest).
    { intros Hin. rewrite Forall_forall in Hlive.
      destruct (Hlive p Hin) as [b Hb].
      rewrite list_lookup_insert_eq in Hb by exact Hbound. discriminate. }
    split; cbn [omap list_omap id].
    + apply NoDup_cons. split; assumption.
    + apply Forall_cons. split; [eauto|].
      apply Forall_forall. intros q Hq.
      rewrite Forall_forall in Hlive. destruct (Hlive q Hq) as [b Hb].
      exists b. rewrite list_lookup_insert_ne in Hb; [exact Hb|].
      intros ->. exact (Hfresh Hq).
  - cbn [destroy_all destroy] in Hdestroy. exact (IH _ _ Hdestroy).
Qed.

Lemma free_all_lookup {A : Type} (items : list (option nat)) :
  forall (heap : Heap A) (q : nat),
  length (free_all items heap) = length heap
  /\ (Some q ∈ items -> (q < length heap)%nat ->
      free_all items heap !! q = Some None)
  /\ (Some q ∉ items -> free_all items heap !! q = heap !! q).
Proof.
  induction items as [|[p|] rest IH]; intros heap q.
  - split; [reflexivity|]. split; [|reflexivity].
    intros Hin. apply elem_of_nil in Hin. destruct Hin.
  - cbn [free_all].
    destruct (IH (<[p := None]> heap) q) as (Hlen & Hin & Hout).
    rewrite length_insert in Hlen, Hin.
    split; [exact Hlen|]. split.
    + intros Hq Hbound. destruct (decide (Some q ∈ rest)) as [Hrest|Hrest].
      * exact (Hin Hrest Hbound).
      * apply elem_of_cons in Hq as [Hq|Hq]; [|contradiction].
        injection Hq as ->. rewrite (Hout Hrest).
        apply list_lookup_insert_eq. exact Hbound.
    + intros Hq. apply not_elem_of_cons in Hq as [Hne Hrest].
      rewrite (Hout Hrest). apply list_lookup_insert_ne. congruence.
  - cbn [free_all]. destruct (IH heap q) as (Hlen & Hin & Hout).
    split; [exact Hlen|]. split.
    + intros Hq. apply elem_of_cons in Hq as [Hq|Hq]; [discriminate|].
      exact (Hin Hq).
    + intros Hq. apply not_elem_of_cons in Hq as [_ Hrest]. exact (Hout Hrest).
Qed.

Lemma destroy_cells_holds {A : Type} array items cells (heap : Heap A) :
  array_holds array items ->
  pa_cells array = Some cells ->
  destroy_cells (Z.to_nat (pa_size array)) 0 (pa_cells array) heap
  = destroy_all items heap.
Proof.
  intros [Hsize Hcells] Heq. rewrite Heq in Hcells |- *.
  destruct Hcells as [_ Htake].
  rewrite Hsize, Nat2Z.id.
  apply (destroy_cells_items items 0 cells heap).
  rewrite drop_0. exact Htake.
Qed.

(** X15. [system_array_clean] on an array that holds [items]: when the
    non-null pointers among them are distinct and point to live systems,
    every one of these systems is freed, every other object of the heap is
    left as it is, and the array ends with no block, size 0 and
    capacity 0; when a pointer is repeated or points to no live system the
    call faults (a double free).  The cleaned array holds nothing, so a
    second clean changes nothing. *)
Theorem system_array_clean_frees array items heap :
  array_holds array items ->
  (all_live items heap ->
   system_array_clean (Some array) heap
   = Returns (Some cleaned, free_all items heap)
   /\ (forall q, Some q ∈ items -> free_all items heap !! q = Some None)
   /\ (forall q, Some q ∉ items -> free_all items heap !! q = heap !! q))
  /\ (~ all_live items heap -> system_array_clean (Some array) heap = Faults)
  /\ array_holds cleaned []
  /\ system_array_clean (Some cleaned) (free_all items heap)
     = Returns (Some cleaned, free_all items heap).
Proof.
  intros Hholds.
  assert (Hloop : destroy_cells (Z.to_nat (pa_size array)) 0 (pa_cells array) heap
                  = destroy_all items heap).
  { destruct (pa_cells array) as [cells|] eqn:Heq.
    - rewrite <- Heq. exact (destroy_cells_holds array items cells heap Hholds Heq).
    - destruct Hholds as [Hsize Hcells]. rewrite Heq in Hcells.
      destruct Hcells as [_ ->]. rewrite Hsize. reflexivity. }
  split; [|split; [|split]].
  - intros Hlive. unfold system_array_clean.
    rewrite Hloop, (destroy_all_live items heap Hlive).
    split; [reflexivity|]. split.
    + intros q Hq. apply (free_all_lookup items heap q); [exact Hq|].
      destruct Hlive as [_ Hlive]. rewrite Forall_forall in Hlive.
      destruct (Hlive q) as [a Ha].
      * apply list_elem_of_omap. exists (Some q). split; [exact Hq|reflexivity].
      * apply lookup_lt_is_Some. eauto.
    + intros q Hq. apply (free_all_lookup items heap q). exact Hq.
  - intros Hdead. unfold system_array_clean. rewrite Hloop.
    destruct (destroy_all items heap) as [heap'|] eqn:Hdestroy; [|reflexivity].
    destruct Hdead. exact (destroy_all_Some items heap heap' Hdestroy).
  - split; [reflexivity|]. split; reflexivity.
  - reflexivity.
Qed.

(** X16. [resource_array_clean] on an array that holds [items]: an array
    without a block is returned untouched; with a block, when the non-null
    pointers among [items] are distinct and point to live resources, every
    one of these resources is freed, every other object of the heap is left
    as it is, and the array ends with no block, size 0 and capacity 0, so
    that cleaning it again changes nothing; when a pointer is repeated or
    points to no live resource the call faults (a double free). *)
Theorem resource_array_clean_frees array items heap :
  array_holds array items ->
  (pa_cells array = None ->
   resource_array_clean (Some array) heap = Returns (Some array, heap))
  /\ (pa_cells array <> None -> all_live items heap ->
      resource_array_clean (Some array) heap
      = Returns (Some cleaned, free_all items heap)
      /\ (forall q, Some q ∈ items -> free_all items heap !! q = Some None)
      /\ (forall q, Some q ∉ items -> free_all items heap !! q = heap !! q)
      /\ resource_array_clean (Some cleaned) (free_all items heap)
         = Returns (Some cleaned, free_all items heap))
  /\ (pa_cells array <> None -> ~ all_live items heap ->
      resource_array_clean (Some array) heap = Faults).
Proof.
  intros Hholds. split; [|split].
  - intros Heq. unfold resource_array_clean. rewrite Heq. reflexivity.
  - intros Hblock Hlive. unfold resource_array_clean.
    destruct (pa_cells array) as [cells|] eqn:Heq; [|contradiction].
    rewrite <- Heq, (destroy_cells_holds array items cells heap Hholds Heq).
    rewrite (destroy_all_live items heap Hlive).
    split; [reflexivity|]. split; [|split; [|reflexivity]].
    + intros q Hq. apply (free_all_lookup items heap q); [exact Hq|].
      destruct Hlive as [_ Hlive]. rewrite Forall_forall in Hlive.
      destruct (Hlive q) as [a Ha].
      * apply list_elem_of_omap. exists (Some q). split; [exact Hq|reflexivity].
      * apply lookup_lt_is_Some. eauto.
    + intros q Hq. apply (free_all_lookup items heap q). exact Hq.
  - intros Hblock Hdead. unfold resource_array_clean.
    destruct (pa_cells array) as [cells|] eqn:Heq; [|contradiction].
    rewrite <- Heq, (destroy_cells_holds array items cells heap Hholds Heq).
    destruct (destroy_all items heap) as [heap'|] eqn:Hdestroy; [|reflexivity].
    destruct Hdead. exact (destroy_all_Some items heap heap' Hdestroy).
Qed.

End Arrays.

(** * The extra properties at work on the sample data *)

Lemma event_queue_push_represents_witness :
  represents (event_queue_push event_queue_init energy_full) ([] ++ [energy_full]).
Proof.
  apply (event_queue_push_represents event_queue_init [] energy_full).
  split; [constructor|]. split; [reflexivity|reflexivity].
Defined.

Lemma event_queue_pop_oldest_highest_witness :
  exists older newer queue',
    event_queue_pop two_reports = (1, Some oxygen_empty, queue')
    /\ [energy_full; oxygen_empty] = older ++ oxygen_empty :: newer
    /\ represents queue' (older ++ newer).
Proof.
  destruct (event_queue_pop_oldest_highest two_reports [energy_full; oxygen_empty])
    as [[Hnone _]|(event & older & newer & queue' & Hpop & Hsplit & _ & _ & Hrest)].
  - split; [repeat constructor; cbv; discriminate|].
    split; [|reflexivity].
    intros p. unfold with_priority. cbn.
    repeat case_decide; congruence.
  - discriminate Hnone.
  - exists older, newer, queue'.
    injection Hpop as <- <-. auto.
Defined.

Lemma system_store_resources_conserves_witness :
  exists m' sys stored,
    system_store_resources generator_system energy_retry
    = Some (STATUS_CAPACITY, m')
    /\ system_array energy_retry !! generator_system = Some sys
    /\ system_array m' !! generator_system = Some (set_amount_stored stored sys)
    /\ stored <> 0.
Proof.
  assert (Hrun : exists m', system_store_resources generator_system energy_retry
                            = Some (STATUS_CAPACITY, m'))
    by (eexists; lazy; reflexivity).
  destruct Hrun as [m' Hrun]. exists m'.
  destruct (system_store_resources_conserves energy_retry generator_system
              STATUS_CAPACITY m' Hrun)
    as (sys & stored & Hs & Hs' & Hok & _).
  exists sys, stored. split; [exact Hrun|].
  split; [exact Hs|]. split; [exact Hs'|].
  intros Hzero. apply Hok in Hzero. discriminate Hzero.
Defined.

Lemma system_run_frame_witness :
  exists m',
    system_run 3 1 100 generator_system energy_retry = Some (tt, m')
    /\ unit_step generator_system energy_retry m'.
Proof.
  eexists. split; [reflexivity|].
  apply (system_run_frame 3 1 100). reflexivity.
Defined.

Lemma system_run_reports_witness :
  exists m' sys effects,
    system_run 3 1 100 generator_system energy_retry = Some (tt, m')
    /\ system_array energy_retry !! generator_system = Some sys
    /\ trace m' = trace energy_retry ++ effects
    /\ event_queue m'
       = fold_left event_queue_push (pushed effects) (event_queue energy_retry)
    /\ Forall (fun event =>
                 event_ok m' event
                 /\ (shortage_event 3 generator_system sys event
                     \/ capacity_event 1 generator_system sys event))
         (pushed effects).
Proof.
  assert (Hrun : exists m', system_run 3 1 100 generator_system energy_retry
                            = Some (tt, m'))
    by (eexists; lazy; reflexivity).
  destruct Hrun as [m' Hrun]. exists m'.
  destruct (system_run_reports 3 1 100 energy_retry generator_system m' Hrun)
    as (sys & effects & Hreports).
  exists sys, effects. split; [exact Hrun|exact Hreports].
Defined.


Lemma manager_run_classifies_witness :
  exists m',
    manager_run STANDARD oxygen_reported = Some (tt, m')
    /\ q_head (event_queue m') = []
    /\ simulation_running m' = 0
    /\ system_array m' = map (set_status TERMINATE) (system_array oxygen_depleted).
Proof.
  destruct (manager_run_classifies oxygen_reported STANDARD oxygen_empty []
              oxygen (resource_create "Oxygen" 0 50) eq_refl)
    as (m1 & m' & Hrun & Hdrained & _ & Hsame & _ & _ & _ & Hterm & _).
  - repeat constructor; eexists; try split; try reflexivity; eexists; reflexivity.
  - reflexivity.
  - reflexivity.
  - exists m'. split; [exact Hrun|]. split; [exact Hdrained|].
    rewrite (Hsame eq_refl). apply Hterm. left. split; reflexivity.
Defined.

Lemma manager_run_fold_witness :
  manager_run STANDARD oxygen_alarm
  = Some (tt, set_event_queue
                {| q_head := [];
                   q_size := q_size (event_queue oxygen_alarm)
                             - Z.of_nat (length (q_head (event_queue oxygen_alarm))) |}
                (fold_left (fun m event => react event m)
                   (q_head (event_queue oxygen_alarm)) oxygen_alarm)).
Proof.
  apply (manager_run_fold oxygen_alarm STANDARD).
  repeat constructor; eexists; try split; try reflexivity; eexists; reflexivity.
Defined.

Lemma manager_run_stops_on_terminal_witness :
  exists m',
    manager_run STANDARD oxygen_alarm = Some (tt, m')
    /\ simulation_running m' = 0
    /\ resource_array m' = resource_array oxygen_alarm
    /\ trace m' = trace oxygen_alarm.
Proof.
  destruct (manager_run_stops_on_terminal oxygen_alarm STANDARD)
    as (m' & Hrun & Hstop & _ & Hresources & Htrace & _).
  - repeat constructor; eexists; try split; try reflexivity; eexists; reflexivity.
  - exists m'. split; [exact Hrun|]. split; [|split; assumption].
    apply Hstop. right. apply Exists_cons_hd.
    exists oxygen, (resource_create "Oxygen" 0 50).
    split; [reflexivity|]. split; [reflexivity|]. left. split; reflexivity.
Defined.

Lemma manager_run_last_event_wins_witness :
  exists m',
    manager_run STANDARD oxygen_alarm = Some (tt, m')
    /\ forall sys',
         system_array m' !! generator_system = Some sys' ->
         ra_resource (s_produced sys') = Some energy ->
         s_status sys' = SLOW.
Proof.
  destruct (manager_run_last_event_wins oxygen_alarm STANDARD
              [oxygen_empty] energy_full energy (resource_create "Energy" 30 50))
    as (m' & Hrun & Hlast); try reflexivity.
  - repeat constructor; eexists; try split; try reflexivity; eexists; reflexivity.
  - exists m'. split; [exact Hrun|]. intros sys' Hs Hproduced.
    destruct (Hlast generator_system sys' Hs) as [_ Hspeed].
    apply Hspeed; [|exact Hproduced|reflexivity].
    intros [[Hstatus _]|[_ Hname]]; discriminate.
Defined.

Lemma schedule_runs_safely_witness :
  exists m',
    run_steps 3 1 100
      [Cycle propulsion_system; Pass STANDARD; Cycle crew_capsule_system;
       Cycle generator_system; Pass FAST] load_data
    = Some (tt, m')
    /\ state_ok m'
    /\ Forall (fun r => 0 <= r_amount r <= r_max_capacity r) (resource_array m').
Proof.
  apply (schedule_runs_safely 3 1 100).
  - split; [exact load_data_well_formed|]. split; [|apply Forall_nil_2].
    split; repeat constructor; cbn; unfold INT_MAX; lia.
  - repeat constructor; eexists; reflexivity.
Defined.

Lemma system_array_add_appends_witness :
  exists array',
    system_array_add true sample_systems None = Returns array'
    /\ array_holds array' (sample_pointers ++ [None])
    /\ pa_capacity array' = 8.
Proof.
  destruct (system_array_add_appends true sample_systems sample_pointers None)
    as [Hadd _].
  - split; [reflexivity|]. split; reflexivity.
  - apply Hadd. right. reflexivity.
Defined.

Lemma resource_array_add_appends_witness :
  resource_array_add false (Some sample_resources) (Some energy)
  = Returns (Some sample_resources)
  /\ exists array',
       resource_array_add true (Some sample_resources) (Some energy)
       = Returns (Some array')
       /\ array_holds array' ([Some fuel; Some oxygen] ++ [Some energy])
       /\ pa_capacity array' = 4.
Proof.
  destruct (resource_array_add_appends false sample_resources
              [Some fuel; Some oxygen] energy) as (_ & _ & Hdrop).
  { split; [reflexivity|]. split; reflexivity. }
  destruct (resource_array_add_appends true sample_resources
              [Some fuel; Some oxygen] energy) as (_ & Hadd & _).
  { split; [reflexivity|]. split; reflexivity. }
  split.
  - apply Hdrop; [cbn; lia|reflexivity].
  - apply Hadd. right. reflexivity.
Defined.

Lemma system_array_clean_frees_witness :
  system_array_clean (Some sample_systems) sample_heap
  = Returns (Some cleaned, free_all sample_pointers sample_heap)
  /\ system_array_clean (Some sample_systems)
       (free_all sample_pointers sample_heap) = Faults.
Proof.
  assert (Hholds : array_holds sample_systems sample_pointers).
  { split; [reflexivity|]. split; reflexivity. }
  destruct (system_array_clean_frees sample_systems sample_pointers sample_heap
              Hholds) as (Hfrees & _).
  destruct (system_array_clean_frees sample_systems sample_pointers
              (free_all sample_pointers sample_heap) Hholds) as (_ & Hfaults & _).
  split.
  - apply Hfrees. split.
    + apply (bool_decide_unpack _). reflexivity.
    + repeat constructor; eexists; reflexivity.
  - apply Hfaults. intros [_ Hlive].
    apply Forall_cons in Hlive as [[a Ha] _]. discriminate Ha.
Defined.

Lemma resource_array_clean_frees_witness :
  resource_array_clean (Some sample_resources)
    [Some (resource_create "Fuel" 1000 1000); Some (resource_create "Oxygen" 20 50)]
  = Returns (Some cleaned, [None; None])
  /\ resource_array_clean (Some cleaned) [None; None]
     = Returns (Some cleaned, [None; None]).
Proof.
  destruct (resource_array_clean_frees sample_resources [Some fuel; Some oxygen]
              [Some (resource_create "Fuel" 1000 1000);
               Some (resource_create "Oxygen" 20 50)])
    as (_ & Hfrees & _).
  { split; [reflexivity|]. split; reflexivity. }
  destruct Hfrees as (Hclean & _ & _ & Hagain).
  - discriminate.
  - split.
    + apply (bool_decide_unpack _). reflexivity.
    + repeat constructor; eexists; reflexivity.
  - split; [exact Hclean|exact Hagain].
Defined.
